(** * Z-score anomaly detection of [anamoly_detection/api_server.py]

    A shallow embedding of [detect_temporal_anomalies] and of the
    [/detect] endpoint [detect_anomalies], and the properties the
    specification states about them.

    Python [float] and NumPy [float64] are IEEE 754 binary64 numbers:
    they are modelled by [spec_float] with the binary64 operations of
    the Standard Library ([prec = 53], [emax = 1024]).  Python [int] is
    [Z], [str] is [string], a [list] is a [list], and the insertion
    ordered [defaultdict(list)] is an association list. *)

From Stdlib Require Import ZArith List String Ascii Bool Lia DecimalString.
From Stdlib Require Import Permutation Sorted.
From Stdlib Require Import Floats.SpecFloat.
From Stdlib Require Import QArith Qpower Lqa.
Import ListNotations.

Local Open Scope string_scope.
Local Open Scope list_scope.
Local Open Scope Z_scope.

(** ** Python floats *)

Module Float.

Definition float := spec_float.

Definition prec : Z := 53.
Definition emax : Z := 1024.

Definition add : float -> float -> float := SFadd prec emax.
Definition sub : float -> float -> float := SFsub prec emax.
Definition mul : float -> float -> float := SFmul prec emax.
Definition div : float -> float -> float := SFdiv prec emax.
Definition sqrt : float -> float := SFsqrt prec emax.
Definition abs : float -> float := SFabs.
Definition ltb : float -> float -> bool := SFltb.
Definition leb : float -> float -> bool := SFleb.

(** [x > y] and [x >= y] of Python are [y < x] and [y <= x]. *)
Definition gtb (x y : float) : bool := ltb y x.
Definition geb (x y : float) : bool := leb y x.

(** The float nearest to an integer ([float(n)]). *)
Definition of_Z (n : Z) : float := binary_normalize prec emax n 0 false.

(** The float nearest to [n / d], as a decimal literal denotes it when
    [n] and [d] are exactly representable. *)
Definition of_ratio (n d : Z) : float := div (of_Z n) (of_Z d).

Definition zero : float := S754_zero false.

(** The literal [1e-6]. *)
Definition eps : float := of_ratio 1 1000000.

(** Whether [x] is a binary64 number: the mantissa of a finite one has
    at most 53 digits and fits its exponent. *)
Definition valid (x : float) : bool := valid_binary prec emax x.

Definition eq_dec (x y : float) : {x = y} + {x <> y}.
Proof.
  decide equality; try apply Bool.bool_dec.
  - apply Z.eq_dec.
  - apply Pos.eq_dec.
Defined.

End Float.

Abbreviation float := Float.float.

(** ** Exceptions

    A Python call either returns a value or raises an exception, which
    carries its message ([str(e)]). *)

Inductive result (A : Type) : Type :=
| Return (a : A)
| Raise (msg : string).
Arguments Return {A} a.
Arguments Raise {A} msg.

Definition bind {A B : Type} (c : result A) (k : A -> result B) : result B :=
  match c with
  | Return a => k a
  | Raise msg => Raise msg
  end.

Notation "x <- c ;; k" := (bind c (fun x => k))
  (at level 61, c at next level, right associativity).

(** A [for] loop over [l] that threads the loop state [acc] and stops
    at the first exception. *)
Fixpoint for_each {A S : Type} (l : list A) (body : S -> A -> result S)
  (acc : S) : result S :=
  match l with
  | [] => Return acc
  | x :: l' => acc' <- body acc x ;; for_each l' body acc'
  end.

(** ** Data model *)

Record Observation : Type := mkObservation {
  station_id : string;
  timestamp : Z;
  temp_out : float;
  out_hum : float;
  wind_speed : float;
  bar : float;
  rain : float
}.

Module AnomalyResult.
Record t : Type := mk {
  time_start : string;
  time_end : string;
  station_id : string;
  variable : string;
  anomaly_timestamp : string;
  anomaly_value : float;
  z_score : float
}.

Definition eq_dec (x y : t) : {x = y} + {x <> y}.
Proof.
  decide equality; try apply Float.eq_dec; apply string_dec.
Defined.
End AnomalyResult.

(** The tracked variables; [var_name] is the attribute name the source
    uses, [getattr] the attribute access. *)
Inductive Var : Type := TempOut | OutHum | WindSpeed | Bar | Rain.

Definition var_name (v : Var) : string :=
  match v with
  | TempOut => "temp_out"
  | OutHum => "out_hum"
  | WindSpeed => "wind_speed"
  | Bar => "bar"
  | Rain => "rain"
  end.

Definition getattr (obs : Observation) (v : Var) : float :=
  match v with
  | TempOut => temp_out obs
  | OutHum => out_hum obs
  | WindSpeed => wind_speed obs
  | Bar => bar obs
  | Rain => rain obs
  end.

Definition variables : list Var := [TempOut; OutHum; WindSpeed; Bar; Rain].

Definition Var_eq_dec (x y : Var) : {x = y} + {x <> y}.
Proof. decide equality. Defined.

(** ** [defaultdict(list)]

    A dictionary keeps its keys in insertion order, which is the order
    [items()] yields them in. *)

Definition station_dict : Type := list (string * list Observation).

(** [station_data[k].append(obs)] *)
Fixpoint dict_append (k : string) (obs : Observation) (d : station_dict)
  : station_dict :=
  match d with
  | [] => [(k, [obs])]
  | (k', l) :: d' =>
      if String.eqb k k' then (k', l ++ [obs]) :: d'
      else (k', l) :: dict_append k obs d'
  end.

(** The grouping loop of the source, from a given dictionary. *)
Definition group_into (observations : list Observation) (d : station_dict)
  : station_dict :=
  fold_left (fun d obs => dict_append (station_id obs) obs d) observations d.

Definition group_by_station (observations : list Observation) : station_dict :=
  group_into observations [].

(** ** [list.sort(key=...)]

    Python's sort is stable; the stable sort of a list is unique, and
    insertion from the right computes it. *)

Fixpoint insert_by (x : Observation) (l : list Observation)
  : list Observation :=
  match l with
  | [] => [x]
  | y :: l' =>
      if timestamp x <=? timestamp y then x :: y :: l'
      else y :: insert_by x l'
  end.

Fixpoint sort_by_timestamp (l : list Observation) : list Observation :=
  match l with
  | [] => []
  | x :: l' => insert_by x (sort_by_timestamp l')
  end.

(** [min(l)] and [max(l)]: a [ValueError] on the empty list. *)
Definition py_min (l : list Z) : result Z :=
  match l with
  | [] => Raise "min() arg is an empty sequence"
  | x :: l' => Return (fold_left Z.min l' x)
  end.

Definition py_max (l : list Z) : result Z :=
  match l with
  | [] => Raise "max() arg is an empty sequence"
  | x :: l' => Return (fold_left Z.max l' x)
  end.

(** ** The detector *)

Section Detector.

(** What the source takes from its environment: NumPy's [np.mean] and
    [np.std] on a float64 array, Python's [round(x, 2)], and
    [datetime.fromtimestamp(ts).strftime("%Y-%m-%d %H:%M:%S")], which
    raises on a timestamp outside the platform's range. *)
Variable np_mean : list float -> float.
Variable np_std : list float -> float.
Variable round2 : float -> float.
Variable strftime : Z -> result string.

(** The innermost loop: [for i, (obs, z_score) in enumerate(zip(...))]. *)
Definition find_anomalies (threshold : float)
  (time_start time_end station_id : string) (var : Var)
  (pairs : list (Observation * float))
  (anomalies : list AnomalyResult.t) : result (list AnomalyResult.t) :=
  for_each pairs
    (fun anomalies '(obs, z_score) =>
       if Float.gtb (Float.abs z_score) threshold then
         anomaly_timestamp <- strftime (timestamp obs) ;;
         Return (anomalies ++
                 [AnomalyResult.mk time_start time_end station_id
                    (var_name var) anomaly_timestamp
                    (round2 (getattr obs var)) (round2 z_score)])
       else Return anomalies)
    anomalies.

(** The body of [for var in variables].  The division of
    [(values - mean) / std] is an argument, so that one can say which
    divisions the body performs; the source divides float64 numbers. *)
Definition check_variable_with (divide : float -> float -> float)
  (threshold : float) (time_start time_end station_id : string)
  (obs_list : list Observation)
  (anomalies : list AnomalyResult.t) (var : Var)
  : result (list AnomalyResult.t) :=
  let values := map (fun obs => getattr obs var) obs_list in
  if Float.ltb (np_std values) Float.eps then Return anomalies
  else
    let mean := np_mean values in
    let std := np_std values in
    if Float.gtb std Float.zero then
      let z_scores :=
        map (fun v => divide (Float.sub v mean) std) values in
      find_anomalies threshold time_start time_end station_id var
        (combine obs_list z_scores) anomalies
    else Return anomalies.

Definition check_variable :
  float -> string -> string -> string -> list Observation ->
  list AnomalyResult.t -> Var -> result (list AnomalyResult.t) :=
  check_variable_with Float.div.

(** The body of [for station_id, obs_list in station_data.items()]. *)
Definition check_station (threshold : float)
  (anomalies : list AnomalyResult.t)
  (item : string * list Observation) : result (list AnomalyResult.t) :=
  let '(station_id, obs_list) := item in
  let obs_list := sort_by_timestamp obs_list in
  if (List.length obs_list <? 3)%nat then Return anomalies
  else
    let timestamps := map timestamp obs_list in
    lo <- py_min timestamps ;;
    time_start <- strftime lo ;;
    hi <- py_max timestamps ;;
    time_end <- strftime hi ;;
    for_each variables
      (check_variable threshold time_start time_end station_id obs_list)
      anomalies.

Definition detect_temporal_anomalies (observations : list Observation)
  (threshold : float) : result (list AnomalyResult.t) :=
  let station_data := group_by_station observations in
  for_each station_data (check_station threshold) [].

End Detector.

(** ** The [/detect] endpoint *)

Record DetectionRequest : Type := mkRequest {
  observations : list Observation;
  window_len : Z;
  stride : Z;
  threshold : float
}.

Record Parameters : Type := mkParameters {
  param_window_len : Z;
  param_stride : Z;
  param_threshold : float;
  param_variables : list string
}.

Record DetectionResponse : Type := mkResponse {
  status : string;
  message : string;
  detection_time : string;
  total_observations : nat;
  total_anomalies : nat;
  parameters : Parameters;
  anomalies : list AnomalyResult.t
}.

(** What a request handler does: it returns its response or raises an
    [HTTPException]. *)
Inductive http_result : Type :=
| Response (r : DetectionResponse)
| HTTPException (status_code : Z) (detail : string).

(** [str(n)] of a length. *)
Definition str_of_nat (n : nat) : string :=
  NilZero.string_of_uint (Nat.to_uint n).

(** The bytes that open both messages in the source file. *)
Definition check_mark : string :=
  String (ascii_of_nat 226) (String (ascii_of_nat 128)
  (String (ascii_of_nat 154) (String (ascii_of_nat 195)
  (String (ascii_of_nat 186) (String (ascii_of_nat 195)
  (String (ascii_of_nat 172) EmptyString)))))).

Section Endpoint.

(** The detector the handler calls, and the formatted clock reading
    [datetime.now().strftime(...)]. *)
Variable detector :
  list Observation -> float -> result (list AnomalyResult.t).
Variable now : string.

(** The body of the [try] block. *)
Definition build_response (request : DetectionRequest)
  : result DetectionResponse :=
  let n := List.length (observations request) in
  anomalies <- detector (observations request) (threshold request) ;;
  let '(status, message) :=
    if (0 <? List.length anomalies)%nat then
      ("anomalies_found",
       (check_mark ++ " Detection completed. Found "
        ++ str_of_nat (List.length anomalies) ++ " anomalie(s) in "
        ++ str_of_nat n ++ " observations.")%string)
    else
      ("no_anomalies",
       (check_mark ++ " Detection completed. No anomalies detected in "
        ++ str_of_nat n
        ++ " observations. All values are within normal range.")%string)
  in
  Return (mkResponse status message now n (List.length anomalies)
            (mkParameters (window_len request) (stride request)
               (threshold request) (map var_name variables))
            anomalies).

Definition detect_anomalies_with (request : DetectionRequest)
  : http_result :=
  match observations request with
  | [] => HTTPException 400 "No observations provided"
  | _ :: _ =>
      if (List.length (observations request) <? 3)%nat then
        HTTPException 400
          ("Insufficient data: "
           ++ str_of_nat (List.length (observations request))
           ++ " observations provided. Minimum 3 required for statistical analysis.")%string
      else
        match build_response request with
        | Return response => Response response
        | Raise msg =>
            HTTPException 500 ("Detection failed: " ++ msg)%string
        end
  end.

End Endpoint.

(** The handler of the source: the detector it calls is
    [detect_temporal_anomalies]. *)
Definition detect_anomalies (np_mean np_std : list float -> float)
  (round2 : float -> float) (strftime : Z -> result string) (now : string)
  (request : DetectionRequest) : http_result :=
  detect_anomalies_with
    (detect_temporal_anomalies np_mean np_std round2 strftime) now request.

(** ** A reference environment

    One instance of what the detector takes from its environment, on
    which the model runs: NumPy's float64 reductions, Python's
    [round(x, 2)] and [strftime] in the UTC time zone. *)

Module Reference.

(** NumPy adds a float64 array up by pairwise summation: fewer than 8
    elements one after the other, up to 128 elements in 8 interleaved
    accumulators, more by halving. *)
Fixpoint add_blocks (r l : list float) (blocks : nat)
  : list float * list float :=
  match blocks with
  | O => (r, l)
  | S b =>
      add_blocks (map (fun p => Float.add (fst p) (snd p))
                    (combine r (firstn 8 l)))
        (skipn 8 l) b
  end.

Definition sum_unrolled (l : list float) : float :=
  let '(r, rest) :=
    add_blocks (firstn 8 l) (skipn 8 l) (List.length l / 8 - 1) in
  match r with
  | [r0; r1; r2; r3; r4; r5; r6; r7] =>
      fold_left Float.add rest
        (Float.add
           (Float.add (Float.add r0 r1) (Float.add r2 r3))
           (Float.add (Float.add r4 r5) (Float.add r6 r7)))
  | _ => S754_nan
  end.

Fixpoint pairwise_sum (fuel : nat) (l : list float) : float :=
  let n := List.length l in
  if (n <? 8)%nat then fold_left Float.add l Float.zero
  else if (n <=? 128)%nat then sum_unrolled l
  else
    match fuel with
    | O => S754_nan
    | S fuel' =>
        let n2 := (n / 2 - (n / 2) mod 8)%nat in
        Float.add (pairwise_sum fuel' (firstn n2 l))
          (pairwise_sum fuel' (skipn n2 l))
    end.

Definition np_sum (l : list float) : float :=
  Float.add Float.zero (pairwise_sum (List.length l) l).

Definition count (l : list float) : float :=
  Float.of_Z (Z.of_nat (List.length l)).

(** [np.mean(a)] is [a.sum() / n]. *)
Definition np_mean (l : list float) : float :=
  Float.div (np_sum l) (count l).

(** [np.std(a)] with the default [ddof = 0]: the square root of the
    mean of the squared deviations from the mean. *)
Definition np_var (l : list float) : float :=
  let arrmean := Float.div (np_sum l) (count l) in
  let x := map (fun a => Float.sub a arrmean) l in
  let x := map (fun d => Float.mul d d) x in
  Float.div (np_sum x) (count l).

Definition np_std (l : list float) : float := Float.sqrt (np_var l).

(** [round(x, 2)]: the decimal with two places nearest to [x], ties to
    even, then the float nearest to that decimal. *)
Definition round_half_even (num den : Z) : Z :=
  let q := num / den in
  let r := num mod den in
  match 2 * r ?= den with
  | Lt => q
  | Gt => q + 1
  | Eq => if Z.even q then q else q + 1
  end.

Definition round2 (x : float) : float :=
  match x with
  | S754_finite s m e =>
      let hundredths :=
        if 0 <=? e then Zpos m * 100 * 2 ^ e
        else round_half_even (Zpos m * 100) (2 ^ (- e)) in
      match hundredths with
      | Zpos p =>
          Float.div (S754_finite s p 0) (S754_finite false 100 0)
      | _ => S754_zero s
      end
  | _ => x
  end.

(** [datetime.fromtimestamp(ts).strftime("%Y-%m-%d %H:%M:%S")]: the
    local time of the instant [ts], as CPython on Linux renders it.
    The local time zone is given by [utcoffset], the number of seconds
    that local time is ahead of UTC at an instant. *)
Definition civil_from_days (days : Z) : Z * Z * Z :=
  let z := days + 719468 in
  let era := z / 146097 in
  let doe := z - era * 146097 in
  let yoe := (doe - doe / 1460 + doe / 36524 - doe / 146096) / 365 in
  let y := yoe + era * 400 in
  let doy := doe - (365 * yoe + yoe / 4 - yoe / 100) in
  let mp := (5 * doy + 2) / 153 in
  let d := doy - (153 * mp + 2) / 5 + 1 in
  let m := if mp <? 10 then mp + 3 else mp - 9 in
  (if m <=? 2 then y + 1 else y, m, d).

Definition digit (n : Z) : ascii := ascii_of_nat (48 + Z.to_nat (n mod 10)).

Definition pad2 (n : Z) : string :=
  String (digit (n / 10)) (String (digit n) EmptyString).

(** [str(n)] of an integer. *)
Definition str_of_Z (n : Z) : string := NilZero.string_of_int (Z.to_int n).

(** The year of the local time [seconds] after the epoch. *)
Definition year_of (seconds : Z) : Z :=
  let '(y, _, _) := civil_from_days (seconds / 86400) in y.

Definition year_out_of_range (y : Z) : string :=
  ("year " ++ str_of_Z y ++ " is out of range")%string.

(** [fromtimestamp] fails when [ts] is no [time_t], when the year does
    not fit the [int] of [struct tm], when the year is not one of 1 to
    9999, and when the local time of one day earlier, which it probes
    to find a repeated hour, has no such year. *)
Definition strftime_in (utcoffset : Z -> Z) (ts : Z) : result string :=
  if (ts <? - 2 ^ 63) || (2 ^ 63 <=? ts) then
    Raise "timestamp out of range for platform time_t"
  else
    let local := ts + utcoffset ts in
    let '(y, m, d) := civil_from_days (local / 86400) in
    let s := local mod 86400 in
    if (y - 1900 <? - 2 ^ 31) || (2 ^ 31 <=? y - 1900) then
      Raise "[Errno 75] Value too large for defined data type"
    else if (y <? 1) || (9999 <? y) then Raise (year_out_of_range y)
    else
      let probe := ts - 86400 in
      let py := year_of (probe + utcoffset probe) in
      if py <? 1 then Raise (year_out_of_range py)
      else
        Return (str_of_Z y ++ "-" ++ pad2 m ++ "-" ++ pad2 d ++ " "
                ++ pad2 (s / 3600) ++ ":" ++ pad2 (s / 60 mod 60) ++ ":"
                ++ pad2 (s mod 60))%string.

(** The time zone of the reference environment is UTC. *)
Definition utc (ts : Z) : Z := 0.

Definition strftime : Z -> result string := strftime_in utc.

Definition detect : list Observation -> float ->
  result (list AnomalyResult.t) :=
  detect_temporal_anomalies np_mean np_std round2 strftime.


End Reference.

(** ** Vocabulary of the specification *)

(** All results of [f] on [l], up to the first exception. *)
Fixpoint mapM {A B : Type} (f : A -> result B) (l : list A)
  : result (list B) :=
  match l with
  | [] => Return []
  | x :: l' => y <- f x ;; ys <- mapM f l' ;; Return (y :: ys)
  end.

(** The distinct elements of [l], in the order of their first
    occurrence. *)
Fixpoint first_seen (l : list string) : list string :=
  match l with
  | [] => []
  | k :: l' => k :: filter (fun k' => negb (String.eqb k' k)) (first_seen l')
  end.

Definition stations (obs : list Observation) : list string :=
  first_seen (map station_id obs).

(** The observations of a station, in arrival order. *)
Definition station_group (sid : string) (obs : list Observation)
  : list Observation :=
  filter (fun o => String.eqb (station_id o) sid) obs.

Definition min_timestamp (l : list Observation) : Z :=
  match map timestamp l with
  | [] => 0
  | x :: l' => fold_left Z.min l' x
  end.

Definition max_timestamp (l : list Observation) : Z :=
  match map timestamp l with
  | [] => 0
  | x :: l' => fold_left Z.max l' x
  end.

(** The order the groups are sorted in. *)
Definition ts_le (a b : Observation) : Prop := timestamp a <= timestamp b.

(** [|z| > threshold] *)
Definition is_anomaly (threshold z : float) : bool :=
  Float.gtb (Float.abs z) threshold.

(** The records of one station are those that carry its id. *)
Definition of_station (sid : string) (r : AnomalyResult.t) : bool :=
  String.eqb (AnomalyResult.station_id r) sid.

Definition of_variable (v : Var) (r : AnomalyResult.t) : bool :=
  String.eqb (AnomalyResult.variable r) (var_name v).

(** Observations of one station with one timestamp are one
    observation. *)
Definition ties_are_equal (obs : list Observation) : Prop :=
  forall o1 o2, In o1 obs -> In o2 obs ->
    station_id o1 = station_id o2 -> timestamp o1 = timestamp o2 ->
    o1 = o2.

Section Spec.

Variable np_mean : list float -> float.
Variable np_std : list float -> float.
Variable round2 : float -> float.
Variable strftime : Z -> result string.

(** The Z-scores of a sequence of values: [(value - mean) / std]. *)
Definition z_scores (values : list float) : list float :=
  map (fun v => Float.div (Float.sub v (np_mean values)) (np_std values))
    values.

(** The formatted timestamp, where [strftime] returns one. *)
Definition formatted (ts : Z) : string :=
  match strftime ts with
  | Return s => s
  | Raise _ => EmptyString
  end.

Definition formattable (ts : Z) : Prop :=
  exists s, strftime ts = Return s.

(** The record of an anomalous observation [o] of the sorted group
    [sorted], for the variable [v] and the Z-score [z]. *)
Definition record_of (sid : string) (sorted : list Observation) (v : Var)
  (p : Observation * float) : AnomalyResult.t :=
  AnomalyResult.mk (formatted (min_timestamp sorted))
    (formatted (max_timestamp sorted)) sid (var_name v)
    (formatted (timestamp (fst p)))
    (round2 (getattr (fst p) v)) (round2 (snd p)).

(** Step 4 of the algorithm of the specification, for one variable. *)
Definition spec_variable_records (threshold : float) (sid : string)
  (sorted : list Observation) (v : Var) : list AnomalyResult.t :=
  let values := map (fun o => getattr o v) sorted in
  if Float.ltb (np_std values) Float.eps then []
  else
    map (record_of sid sorted v)
      (filter (fun p => is_anomaly threshold (snd p))
         (combine sorted (z_scores values))).

(** Steps 1 to 4, for one station. *)
Definition spec_station_records (threshold : float)
  (obs : list Observation) (sid : string) : list AnomalyResult.t :=
  let sorted := sort_by_timestamp (station_group sid obs) in
  if (List.length sorted <? 3)%nat then []
  else flat_map (spec_variable_records threshold sid sorted) variables.

(** Step 5: the records of all stations, in first-seen order. *)
Definition spec_detect (obs : list Observation) (threshold : float)
  : list AnomalyResult.t :=
  flat_map (spec_station_records threshold obs) (stations obs).

(** What one pass of each loop body adds to [anomalies]. *)
Definition emit_record (threshold : float)
  (time_start time_end sid : string) (v : Var) (p : Observation * float)
  : result (list AnomalyResult.t) :=
  if is_anomaly threshold (snd p) then
    anomaly_timestamp <- strftime (timestamp (fst p)) ;;
    Return [AnomalyResult.mk time_start time_end sid (var_name v)
              anomaly_timestamp (round2 (getattr (fst p) v))
              (round2 (snd p))]
  else Return [].

Definition variable_result (threshold : float)
  (time_start time_end sid : string) (obs_list : list Observation)
  (v : Var) : result (list AnomalyResult.t) :=
  check_variable np_mean np_std round2 strftime threshold time_start
    time_end sid obs_list [] v.

Definition station_result (threshold : float) (obs : list Observation)
  (sid : string) : result (list AnomalyResult.t) :=
  check_station np_mean np_std round2 strftime threshold []
    (sid, station_group sid obs).

End Spec.

(** ** Sample requests

    The example request of the source ([schema_extra] of
    [DetectionRequest]): ten observations of one station, of which the
    sixth reports 100 degrees. *)

Module Sample.

Definition dec (n d : Z) : float := Float.of_ratio n d.

Definition reading (sid : string) (ts temp hum wind pressure : Z)
  : Observation :=
  mkObservation sid ts (dec temp 10) (dec hum 1) (dec wind 10)
    (dec pressure 10) (dec 0 1).

Definition station_001 : list Observation :=
  [ reading "station_001" 1729580400 152 80 55 10132;
    reading "station_001" 1729581000 158 79 52 10135;
    reading "station_001" 1729581600 162 78 58 10138;
    reading "station_001" 1729582200 165 77 60 10140;
    reading "station_001" 1729582800 170 76 62 10142;
    reading "station_001" 1729583400 1000 75 65 10145;
    reading "station_001" 1729584000 178 74 68 10148;
    reading "station_001" 1729584600 182 73 70 10150;
    reading "station_001" 1729585200 185 72 72 10152;
    reading "station_001" 1729585800 190 71 75 10155 ].

(** A second station with two observations, which arrive first. *)
Definition station_002 : list Observation :=
  [ reading "station_002" 1729580400 140 60 30 10100;
    reading "station_002" 1729581000 900 61 31 10101 ].

Definition two_stations : list Observation := station_002 ++ station_001.

(** Five observations of one station with constant measurements. *)
Definition constant_station : list Observation :=
  [ reading "station_003" 1729580400 152 80 55 10132;
    reading "station_003" 1729581000 152 80 55 10132;
    reading "station_003" 1729581600 152 80 55 10132;
    reading "station_003" 1729582200 152 80 55 10132;
    reading "station_003" 1729582800 152 80 55 10132 ].

(** The default threshold, [2.5]. *)
Definition threshold : float := dec 25 10.

Definition request : DetectionRequest :=
  mkRequest station_001 10 1 threshold.

Definition now : string := "2024-10-22 09:00:00".

(** The anomaly of the example request. *)
Definition anomaly : AnomalyResult.t :=
  AnomalyResult.mk "2024-10-22 07:00:00" "2024-10-22 08:30:00"
    "station_001" "temp_out" "2024-10-22 07:50:00" (dec 100 1) (dec 3 1).

End Sample.

(** Three observations whose timestamps [datetime] cannot hold. *)
Module FarFuture.

Definition observations : list Observation :=
  [ Sample.reading "station_009" 1000000000000000 152 80 55 10132;
    Sample.reading "station_009" 1000000000000600 158 79 52 10135;
    Sample.reading "station_009" 1000000000001200 162 78 58 10138 ].

Definition request : DetectionRequest :=
  mkRequest observations 60 18 Sample.threshold.

End FarFuture.

(** Two outcomes of the handler report the same anomalies. *)
Definition same_anomalies (a b : http_result) : Prop :=
  match a, b with
  | Response x, Response y =>
      anomalies x = anomalies y /\ status x = status y /\
      message x = message y /\ total_anomalies x = total_anomalies y
  | HTTPException c d, HTTPException c' d' => c = c' /\ d = d'
  | _, _ => False
  end.

(** Three readings of one station with one timestamp, whose
    temperatures are 0.1, 0.2 and 0.3, and the threshold
    [1.2247448713915892]. *)
Module Tie.

Definition reading (temp : Z) : Observation :=
  mkObservation "station_007" 1729580400 (Sample.dec temp 10)
    (Sample.dec 50 1) (Sample.dec 3 1) (Sample.dec 1013 1) (Sample.dec 0 1).

Definition arrival : list Observation := [reading 1; reading 2; reading 3].

Definition threshold : float := S754_finite false 5515760546423087 (-52).

(** The Z-score [-1.2247448713915896] of the first reading, rounded. *)
Definition anomaly : AnomalyResult.t :=
  AnomalyResult.mk "2024-10-22 07:00:00" "2024-10-22 07:00:00"
    "station_007" "temp_out" "2024-10-22 07:00:00" (Sample.dec 1 10)
    (Sample.dec (-122) 100).

End Tie.

(** Five readings of one station, with temperatures 0, 0, 0, 0 and
    37.7. *)
Module FiveReadings.

Definition reading (ts temp : Z) : Observation :=
  mkObservation "station_005" ts (Sample.dec temp 10)
    (Sample.dec 50 1) (Sample.dec 3 1) (Sample.dec 1013 1) (Sample.dec 0 1).

Definition observations : list Observation :=
  [ reading 1729580400 0; reading 1729581000 0; reading 1729581600 0;
    reading 1729582200 0; reading 1729582800 377 ].

End FiveReadings.

(** Seven readings of one station: six temperatures of [2^40] and one
    of [2^40 + 2^-12], the next float64 number. *)
Module SevenReadings.

Definition base : float := Float.of_Z (2 ^ 40).

Definition bumped : float := S754_finite false 4503599627370497 (-12).

Definition reading (ts : Z) (temp : float) : Observation :=
  mkObservation "station_012" ts temp (Sample.dec 50 1) (Sample.dec 3 1)
    (Sample.dec 1013 1) (Sample.dec 0 1).

Definition observations : list Observation :=
  [ reading 1729580400 base; reading 1729581000 base;
    reading 1729581600 base; reading 1729582200 base;
    reading 1729582800 base; reading 1729583400 base;
    reading 1729584000 bumped ].

(** The Z-score [2.6457513110645907] of the last reading. *)
Definition z_score : float := S754_finite false 5957702309312746 (-51).

Definition anomaly : AnomalyResult.t :=
  AnomalyResult.mk "2024-10-22 07:00:00" "2024-10-22 08:00:00"
    "station_012" "temp_out" "2024-10-22 08:00:00" base
    (Sample.dec 265 100).

End SevenReadings.

(** ** The numbers floats stand for

    A finite float stands for a rational number; the arithmetic of
    the code rounds each result to a float.  The error of one rounding
    is at most [eps] of the result, unless the result is smaller than
    [tiny], the least normal number. *)

Module Exact.

Local Open Scope Q_scope.

(** The rational a finite float stands for. *)
Definition value (x : float) : Q :=
  match x with
  | S754_finite s m e =>
      inject_Z (if s then Zneg m else Zpos m) * 2 ^ e
  | _ => 0
  end.

Definition finite (x : float) : bool :=
  match x with
  | S754_zero _ | S754_finite _ _ _ => true
  | _ => false
  end.

End Exact.

(** Every measurement of an observation is a binary64 number. *)
Definition well_formed (o : Observation) : bool :=
  forallb (fun v => Float.valid (getattr o v)) variables.

(** The squares that [np.std] adds up. *)
Definition squared_deviations (l : list float) : list float :=
  map (fun d => Float.mul d d)
    (map (fun a => Float.sub a (Reference.np_mean l)) l).

Module Rounding.

(** The least exponent of a float and the exponent that a mantissa of
    exponent [e] is rounded to. *)
Definition emin : Z := SpecFloat.emin Float.prec Float.emax.

Definition cexp (m e : Z) : Z :=
  fexp Float.prec Float.emax (Zdigits2 m + e).

Definition pow2 (e : Z) : Q := (2 ^ e)%Q.

(** The value of the mantissa [m] at the exponent [e]. *)
Definition F2Q (m e : Z) : Q := (inject_Z m * pow2 e)%Q.

Definition eps : Q := pow2 (-52).

Definition tiny : Q := pow2 (-1022).

(** Seven roundings lie between a deviation and its Z-score; their
    errors add up to less than [2^-49] of the result. *)
Definition slack : Q := (1 + pow2 (-49))%Q.

(** A square is no number, plus infinity, plus zero or a positive
    float, and so is every sum of squares.  [le_sum a b] orders
    them: [b] is no number or infinite, or both are finite and [a]
    is at most [b]. *)
Definition summand (x : float) : Prop :=
  match x with
  | S754_nan | S754_infinity false | S754_zero false => True
  | S754_finite false m e => bounded Float.prec Float.emax m e = true
  | _ => False
  end.

Definition le_sum (a b : float) : Prop :=
  match b with
  | S754_nan | S754_infinity false => True
  | S754_zero false => a = S754_zero false
  | S754_finite false mb eb =>
      match a with
      | S754_zero false => True
      | S754_finite false ma ea =>
          bounded Float.prec Float.emax ma ea = true /\
          (F2Q (Zpos ma) ea <= F2Q (Zpos mb) eb)%Q
      | _ => False
      end
  | _ => False
  end.

End Rounding.

(** ** Tactics for comparisons of floats *)

Ltac float_destruct x :=
  let s := fresh "s" in
  let m := fresh "m" in
  let e := fresh "e" in
  destruct x as [s|s| |s m e]; try destruct s.

Ltac cmp_cases :=
  repeat match goal with
    | H : context [Z.compare ?x ?y] |- _ =>
        destruct (Z.compare_spec x y); try discriminate H
    | |- context [Z.compare ?x ?y] =>
        destruct (Z.compare_spec x y)
    | H : context [Pos.compare_cont Eq ?x ?y] |- _ =>
        change (Pos.compare_cont Eq x y) with (Pos.compare x y) in H
    | |- context [Pos.compare_cont Eq ?x ?y] =>
        change (Pos.compare_cont Eq x y) with (Pos.compare x y)
    | H : context [Pos.compare ?x ?y] |- _ =>
        destruct (Pos.compare_spec x y); try discriminate H
    | |- context [Pos.compare ?x ?y] =>
        destruct (Pos.compare_spec x y)
    end.

Ltac float_solve :=
  cmp_cases; simpl in *; try discriminate; try reflexivity; try lia.

(** The same observation with its humidity squared: a change of one
    variable that leaves the station, the timestamp and the other
    variables alone. *)
Module Variation.

Definition square_humidity (o : Observation) : Observation :=
  mkObservation (station_id o) (timestamp o) (temp_out o)
    (Float.mul (out_hum o) (out_hum o)) (wind_speed o) (bar o) (rain o).

End Variation.

(** ** The [/test-data] endpoint

    [get_test_data] reads [api_test_data.json] and serves its content.
    What [json.load] gives is a JSON value; [None] is [JNull], a
    string is a sequence of characters, and a [dict] is the list of its
    items, whose keys are distinct. *)

Module TestData.

#[warnings="-register-all"]
Inductive json : Type :=
| JNull
| JBool (b : bool)
| JInt (n : Z)
| JFloat (x : float)
| JStr (s : string)
| JList (l : list json)
| JDict (d : list (string * json)).

(** What [open] and [json.load] do: the file is missing, another error
    is raised (no permission, no JSON), or a value is loaded. *)
Inductive file_read : Type :=
| FileNotFound
| ReadFailed (msg : string)
| Loaded (test_data : json).

Record response : Type := mkResponse {
  message : string;
  total_observations : nat;
  stations : list json;
  time_range_start : json;
  time_range_end : json;
  observations : json
}.

(** The handler returns, raises an [HTTPException], or lets another
    exception pass. *)
Inductive outcome : Type :=
| Returned (r : response)
| HTTPException (status_code : Z) (detail : string)
| Uncaught (msg : string).

Definition type_error : string := "TypeError".

Definition key_error (key : string) : string := "KeyError: " ++ key.

(** [len(v)] *)
Definition py_len (v : json) : result nat :=
  match v with
  | JList l => Return (List.length l)
  | JDict d => Return (List.length d)
  | JStr s => Return (String.length s)
  | _ => Raise type_error
  end.

(** [bool(v)] *)
Definition py_bool (v : json) : bool :=
  match v with
  | JNull => false
  | JBool b => b
  | JInt n => negb (n =? 0)
  | JFloat (S754_zero _) => false
  | JFloat _ => true
  | JStr s => negb (String.eqb s "")
  | JList l => negb (Nat.eqb (List.length l) 0)
  | JDict d => negb (Nat.eqb (List.length d) 0)
  end.

Definition characters (s : string) : list json :=
  map (fun c => JStr (String c EmptyString)) (list_ascii_of_string s).

(** [iter(v)]: the elements of a list, the keys of a dict, the
    characters of a string. *)
Definition py_iter (v : json) : result (list json) :=
  match v with
  | JList l => Return l
  | JDict d => Return (map (fun item => JStr (fst item)) d)
  | JStr s => Return (characters s)
  | _ => Raise type_error
  end.

Fixpoint dict_get (key : string) (d : list (string * json)) : option json :=
  match d with
  | [] => None
  | (k, v) :: d' => if String.eqb k key then Some v else dict_get key d'
  end.

(** [v[key]] for a string [key]. *)
Definition py_getitem (v : json) (key : string) : result json :=
  match v with
  | JDict d =>
      match dict_get key d with
      | Some x => Return x
      | None => Raise (key_error ("'" ++ key ++ "'"))
      end
  | _ => Raise type_error
  end.

(** [v[0]] and [v[-1]]; the keys of a loaded dict are strings, so an
    integer is no key of it. *)
Definition py_first (v : json) : result json :=
  match v with
  | JList (x :: _) => Return x
  | JList [] => Raise "IndexError"
  | JStr s =>
      match characters s with
      | x :: _ => Return x
      | [] => Raise "IndexError"
      end
  | JDict _ => Raise (key_error "0")
  | _ => Raise type_error
  end.

Definition py_last (v : json) : result json :=
  match v with
  | JList l =>
      match rev l with
      | x :: _ => Return x
      | [] => Raise "IndexError"
      end
  | JStr s =>
      match rev (characters s) with
      | x :: _ => Return x
      | [] => Raise "IndexError"
      end
  | JDict _ => Raise (key_error "-1")
  | _ => Raise type_error
  end.

(** What a set accepts: lists and dicts cannot be hashed. *)
Definition py_hash (v : json) : result json :=
  match v with
  | JList _ | JDict _ => Raise type_error
  | _ => Return v
  end.

Section Handler.

(** [list(set(xs))]: the distinct elements of [xs] in the order in
    which the set yields them. *)
Variable list_of_set : list json -> list json.

(** The body of the [try] block after the file is loaded. *)
Definition build (test_data : json) : result response :=
  n <- py_len test_data ;;
  items <- py_iter test_data ;;
  ids <- mapM (fun obs => id <- py_getitem obs "station_id" ;; py_hash id)
           items ;;
  start <-
    (if py_bool test_data then
       first <- py_first test_data ;; py_getitem first "datetime"
     else Return JNull) ;;
  finish <-
    (if py_bool test_data then
       last <- py_last test_data ;; py_getitem last "datetime"
     else Return JNull) ;;
  Return (mkResponse
            "Sample test data for 10 stations, 60 time points each"
            n (list_of_set ids) start finish test_data).

Definition get_test_data (file : file_read) : outcome :=
  match file with
  | FileNotFound => HTTPException 404 "Test data file not found"
  | ReadFailed msg => Uncaught msg
  | Loaded test_data =>
      match build test_data with
      | Return r => Returned r
      | Raise msg => Uncaught msg
      end
  end.

End Handler.

(** A record of the test data: an object that binds ["station_id"] to
    a value that can be hashed. *)
Definition station_of (obs : json) : option json :=
  match obs with
  | JDict d =>
      match dict_get "station_id" d with
      | Some (JList _) | Some (JDict _) | None => None
      | Some id => Some id
      end
  | _ => None
  end.

Definition datetime_of (obs : json) : option json :=
  match obs with
  | JDict d => dict_get "datetime" d
  | _ => None
  end.

(** Three records of a test file, all of station 574, and one that
    lacks its station. *)
Definition record (sid datetime : string) : json :=
  JDict [("station_id", JStr sid); ("datetime", JStr datetime);
         ("temp_out", JFloat (Float.of_ratio 152 10))].

Definition sample : list json :=
  [ record "574" "2024-10-22 07:00:00"; record "574" "2024-10-22 07:10:00";
    record "574" "2024-10-22 07:20:00" ].

Definition nameless : json := JDict [("datetime", JStr "2024-10-22 07:30:00")].

(** [x == n] for a float and an integer, which Python compares
    exactly. *)
Definition float_eq_int (x : float) (n : Z) : bool :=
  match x with
  | S754_zero _ => n =? 0
  | S754_finite s m e =>
      let k := if s then Z.neg m else Z.pos m in
      if 0 <=? e then n =? k * 2 ^ e
      else (k mod 2 ^ (- e) =? 0) && (n =? k / 2 ^ (- e))
  | _ => false
  end.

Definition int_of_bool (b : bool) : Z := if b then 1 else 0.

(** Whether a set takes two values for one: [x == y], or the same
    object.  [True] is [1] and [False] is [0]; [json.load] yields one
    object for every [NaN] of a file. *)
Definition py_eq (x y : json) : bool :=
  match x, y with
  | JNull, JNull => true
  | JStr a, JStr b => String.eqb a b
  | JBool a, JBool b => int_of_bool a =? int_of_bool b
  | JBool a, JInt n | JInt n, JBool a => int_of_bool a =? n
  | JBool a, JFloat f | JFloat f, JBool a => float_eq_int f (int_of_bool a)
  | JInt a, JInt b => a =? b
  | JInt n, JFloat f | JFloat f, JInt n => float_eq_int f n
  | JFloat S754_nan, JFloat S754_nan => true
  | JFloat a, JFloat b => SFeqb a b
  | _, _ => false
  end.

(** One iteration order of a set: that of the first occurrences.  The
    order of a set of strings changes from one run of Python to the
    next; a set of one element has one order. *)
Definition first_occurrences (xs : list json) : list json :=
  fold_right (fun x acc => x :: filter (fun y => negb (py_eq x y)) acc)
    [] xs.

End TestData.

(** ** The order of formatted timestamps

    The three timestamps of a record are strings; as Python compares
    strings, [s1 <= s2] is [String.leb s1 s2].  Formatting keeps the
    order of the timestamps [tss] when the strings of any two of them
    are ordered as the timestamps are. *)

Definition order_preserving (strftime : Z -> result string) (tss : list Z)
  : bool :=
  forallb
    (fun t1 =>
       forallb
         (fun t2 =>
            match strftime t1, strftime t2 with
            | Return s1, Return s2 => implb (t1 <=? t2) (String.leb s1 s2)
            | _, _ => true
            end)
         tss)
    tss.

(** The span of a record holds its anomaly timestamp, as strings. *)
Definition within_time_span (r : AnomalyResult.t) : bool :=
  String.leb (AnomalyResult.time_start r) (AnomalyResult.anomaly_timestamp r)
  && String.leb (AnomalyResult.anomaly_timestamp r) (AnomalyResult.time_end r).

(** A server in the time zone [America/New_York] in 2024: daylight
    saving time, four hours behind UTC, from 10 March 07:00 UTC until
    3 November 06:00 UTC, and standard time, five hours behind,
    otherwise.  Ten observations of one station on the night of
    3 November, of which the sixth reports 100 degrees one second
    before the clocks are set back. *)
Module Eastern.

Definition utcoffset (ts : Z) : Z :=
  if (1710054000 <=? ts) && (ts <? 1730613600) then -14400 else -18000.

Definition strftime : Z -> result string := Reference.strftime_in utcoffset.

Definition detect : list Observation -> float ->
  result (list AnomalyResult.t) :=
  detect_temporal_anomalies Reference.np_mean Reference.np_std
    Reference.round2 strftime.

Definition observations : list Observation :=
  [ Sample.reading "station_011" 1730610000 152 80 55 10132;
    Sample.reading "station_011" 1730610600 158 79 52 10135;
    Sample.reading "station_011" 1730611200 162 78 58 10138;
    Sample.reading "station_011" 1730611800 165 77 60 10140;
    Sample.reading "station_011" 1730612400 170 76 62 10142;
    Sample.reading "station_011" 1730613599 1000 75 65 10145;
    Sample.reading "station_011" 1730613600 178 74 68 10148;
    Sample.reading "station_011" 1730614200 182 73 70 10150;
    Sample.reading "station_011" 1730614800 185 72 72 10152;
    Sample.reading "station_011" 1730615400 190 71 75 10155 ].

Definition anomaly : AnomalyResult.t :=
  AnomalyResult.mk "2024-11-03 01:00:00" "2024-11-03 01:30:00"
    "station_011" "temp_out" "2024-11-03 01:59:59" (Sample.dec 100 1)
    (Sample.dec 3 1).

End Eastern.

(** * Properties *)

(** ** Loops and exceptions *)

Lemma bind_Return_inv {A B : Type} (c : result A) (k : A -> result B) b :
  bind c k = Return b -> exists a, c = Return a /\ k a = Return b.
Proof.
  destruct c as [a|msg]; simpl; intros H.
  - exists a; auto.
  - discriminate.
Qed.

(** A loop whose body appends what [f] yields to the loop state
    collects the results of [f]. *)
Lemma for_each_appends {A B : Type}
  (body : list B -> A -> result (list B)) (f : A -> result (list B)) :
  (forall acc x, body acc x = (r <- f x ;; Return (acc ++ r))) ->
  forall l acc,
    for_each l body acc = (rss <- mapM f l ;; Return (acc ++ List.concat rss)).
Proof.
  intros Hbody l; induction l as [|x l IH]; intros acc; simpl.
  - now rewrite app_nil_r.
  - rewrite Hbody. destruct (f x) as [r|msg]; simpl; [|reflexivity].
    rewrite IH. destruct (mapM f l) as [rss|msg]; simpl; [|reflexivity].
    now rewrite app_assoc.
Qed.

Lemma mapM_Return_Forall2 {A B : Type} (f : A -> result B) l ys :
  mapM f l = Return ys <-> Forall2 (fun x y => f x = Return y) l ys.
Proof.
  revert ys; induction l as [|x l IH]; intros ys; simpl.
  - split; intros H.
    + injection H as <-; constructor.
    + now inversion H.
  - split; intros H.
    + apply bind_Return_inv in H as (y & Hy & H).
      apply bind_Return_inv in H as (ys' & Hys & H).
      injection H as <-. constructor; [assumption|now apply IH].
    + inversion H as [|? y ? ys' Hy Hys]; subst.
      rewrite Hy; simpl. apply IH in Hys. now rewrite Hys.
Qed.

Lemma mapM_ext_in {A B : Type} (f g : A -> result B) l :
  (forall x, In x l -> f x = g x) -> mapM f l = mapM g l.
Proof.
  induction l as [|x l IH]; simpl; intros H; [reflexivity|].
  rewrite (H x) by now left.
  rewrite IH by (intros; apply H; now right). reflexivity.
Qed.

(** [mapM] of a function that always returns. *)
Lemma mapM_total {A B : Type} (f : A -> result B) (g : A -> B) l :
  (forall x, In x l -> f x = Return (g x)) -> mapM f l = Return (map g l).
Proof.
  induction l as [|x l IH]; simpl; intros H; [reflexivity|].
  rewrite (H x) by now left. simpl.
  rewrite IH by (intros; apply H; now right). reflexivity.
Qed.

Lemma mapM_Return_map {A B : Type} (f : A -> result B) (g : A -> B) l ys :
  (forall x y, In x l -> f x = Return y -> y = g x) ->
  mapM f l = Return ys -> ys = map g l.
Proof.
  intros Hg H. apply mapM_Return_Forall2 in H.
  induction H as [|x y l ys Hxy _ IH]; simpl; [reflexivity|].
  f_equal.
  - apply Hg; [now left|assumption].
  - apply IH. intros; eapply Hg; eauto. now right.
Qed.

(** ** Grouping by station *)

Lemma first_seen_In k l : In k (first_seen l) <-> In k l.
Proof.
  induction l as [|a l IH]; simpl; [tauto|].
  rewrite filter_In, IH, negb_true_iff, String.eqb_neq.
  destruct (string_dec a k); intuition congruence.
Qed.

Lemma first_seen_NoDup l : NoDup (first_seen l).
Proof.
  induction l as [|a l IH]; simpl; constructor.
  - rewrite filter_In, String.eqb_refl. simpl. intros [_ H]; discriminate.
  - now apply NoDup_filter.
Qed.

Lemma existsb_eqb_In k l : existsb (String.eqb k) l = true <-> In k l.
Proof.
  rewrite existsb_exists. split.
  - intros (x & Hx & E). apply String.eqb_eq in E. now subst.
  - intros H. exists k. split; [assumption|apply String.eqb_refl].
Qed.

Lemma existsb_first_seen k l :
  existsb (String.eqb k) (first_seen l) = existsb (String.eqb k) l.
Proof.
  apply eq_true_iff_eq. now rewrite !existsb_eqb_In, first_seen_In.
Qed.

Lemma first_seen_snoc l k :
  first_seen (l ++ [k]) =
  if existsb (String.eqb k) l then first_seen l else first_seen l ++ [k].
Proof.
  induction l as [|a l IH]; simpl; [reflexivity|].
  rewrite IH. destruct (String.eqb k a) eqn:E; simpl.
  - apply String.eqb_eq in E; subst a.
    destruct (existsb (String.eqb k) l); [reflexivity|].
    rewrite filter_app; simpl. rewrite String.eqb_refl; simpl.
    now rewrite app_nil_r.
  - destruct (existsb (String.eqb k) l); [reflexivity|].
    rewrite filter_app; simpl. now rewrite E.
Qed.

Lemma station_group_snoc sid obs o :
  station_group sid (obs ++ [o]) =
  if String.eqb (station_id o) sid then station_group sid obs ++ [o]
  else station_group sid obs.
Proof.
  unfold station_group. rewrite filter_app; simpl.
  destruct (String.eqb (station_id o) sid); [reflexivity|apply app_nil_r].
Qed.

Lemma station_group_absent sid obs :
  ~ In sid (map station_id obs) -> station_group sid obs = [].
Proof.
  unfold station_group. induction obs as [|o obs IH]; simpl; intros H.
  - reflexivity.
  - destruct (String.eqb (station_id o) sid) eqn:E.
    + apply String.eqb_eq in E. tauto.
    + apply IH. tauto.
Qed.

Lemma dict_append_groups obs o ks :
  NoDup ks ->
  dict_append (station_id o) o (map (fun k => (k, station_group k obs)) ks) =
  map (fun k => (k, station_group k (obs ++ [o]))) ks ++
  (if existsb (String.eqb (station_id o)) ks then []
   else [(station_id o, [o])]).
Proof.
  induction ks as [|k ks IH]; intros ND; simpl; [reflexivity|].
  inversion ND as [|? ? Hk ND']; subst.
  rewrite station_group_snoc, (String.eqb_sym (station_id o) k).
  destruct (String.eqb k (station_id o)) eqn:E; simpl.
  - apply String.eqb_eq in E; subst k. rewrite app_nil_r. f_equal.
    apply map_ext_in. intros k' Hk'. rewrite station_group_snoc.
    destruct (String.eqb (station_id o) k') eqn:E'; [|reflexivity].
    apply String.eqb_eq in E'; subst k'. contradiction.
  - now rewrite IH.
Qed.

(** The dictionary of the source holds, for each station in first-seen
    order, its observations in arrival order. *)
Lemma group_by_station_spec obs :
  group_by_station obs = map (fun k => (k, station_group k obs)) (stations obs).
Proof.
  unfold group_by_station, group_into, stations.
  induction obs as [|o obs IH] using rev_ind; [reflexivity|].
  rewrite fold_left_app; simpl. rewrite IH.
  rewrite dict_append_groups by apply first_seen_NoDup.
  rewrite map_app; simpl. rewrite first_seen_snoc, existsb_first_seen.
  destruct (existsb (String.eqb (station_id o)) (map station_id obs)) eqn:E.
  - now rewrite app_nil_r.
  - rewrite map_app; simpl. rewrite station_group_snoc, String.eqb_refl.
    rewrite (station_group_absent (station_id o) obs); [reflexivity|].
    rewrite <- existsb_eqb_In. congruence.
Qed.

(** ** Sorting by timestamp *)

Lemma insert_by_perm x l : Permutation (insert_by x l) (x :: l).
Proof.
  induction l as [|y l IH]; simpl; [reflexivity|].
  destruct (timestamp x <=? timestamp y); [reflexivity|].
  rewrite IH. apply perm_swap.
Qed.

Lemma sort_by_timestamp_perm l : Permutation (sort_by_timestamp l) l.
Proof.
  induction l as [|x l IH]; simpl; [reflexivity|].
  rewrite insert_by_perm. now constructor.
Qed.

Lemma sort_by_timestamp_length l :
  List.length (sort_by_timestamp l) = List.length l.
Proof. apply Permutation_length, sort_by_timestamp_perm. Qed.

Lemma sort_by_timestamp_In o l : In o (sort_by_timestamp l) <-> In o l.
Proof.
  split; apply Permutation_in;
    [|symmetry]; apply sort_by_timestamp_perm.
Qed.

Lemma insert_by_sorted x l :
  StronglySorted ts_le l -> StronglySorted ts_le (insert_by x l).
Proof.
  induction 1 as [|y l Hl IH Hy]; simpl.
  - repeat constructor.
  - destruct (timestamp x <=? timestamp y) eqn:E.
    + apply Z.leb_le in E. constructor.
      * now constructor.
      * constructor; [assumption|].
        eapply Forall_impl; [|exact Hy]. unfold ts_le. intros; lia.
    + apply Z.leb_gt in E. constructor; [assumption|].
      rewrite Forall_forall. intros z Hz.
      apply (Permutation_in _ (insert_by_perm x l)) in Hz.
      destruct Hz as [<-|Hz]; [unfold ts_le; lia|].
      rewrite Forall_forall in Hy. now apply Hy.
Qed.

Lemma sort_by_timestamp_sorted l : StronglySorted ts_le (sort_by_timestamp l).
Proof.
  induction l as [|x l IH]; simpl; [constructor|now apply insert_by_sorted].
Qed.

(** Stability: observations with one timestamp keep their order. *)
Lemma insert_by_stable k x l :
  filter (fun o => timestamp o =? k) (insert_by x l) =
  filter (fun o => timestamp o =? k) (x :: l).
Proof.
  induction l as [|y l IH]; [reflexivity|].
  cbn [insert_by]. destruct (timestamp x <=? timestamp y) eqn:E;
    [reflexivity|].
  apply Z.leb_gt in E. cbn [filter] in *. rewrite IH.
  destruct (timestamp x =? k) eqn:Ex; [|reflexivity].
  apply Z.eqb_eq in Ex.
  assert ((timestamp y =? k) = false) as -> by (apply Z.eqb_neq; lia).
  reflexivity.
Qed.

Lemma sort_by_timestamp_stable k l :
  filter (fun o => timestamp o =? k) (sort_by_timestamp l) =
  filter (fun o => timestamp o =? k) l.
Proof.
  induction l as [|x l IH]; [reflexivity|].
  cbn [sort_by_timestamp]. rewrite insert_by_stable. cbn [filter].
  now rewrite IH.
Qed.

(** A sorted list in which ties are equal is determined by its
    elements. *)
Lemma sorted_perm_unique l1 l2 :
  StronglySorted ts_le l1 -> StronglySorted ts_le l2 ->
  Permutation l1 l2 ->
  (forall a b, In a l1 -> In b l1 -> timestamp a = timestamp b -> a = b) ->
  l1 = l2.
Proof.
  intros S1; revert l2; induction S1 as [|a l1 S1 IH Ha];
    intros l2 S2 P Hties.
  - apply Permutation_nil in P. now subst.
  - destruct l2 as [|b l2].
    + symmetry in P. apply Permutation_nil in P. discriminate.
    + inversion S2 as [|? ? S2' Hb]; subst.
      assert (a = b) as <-.
      { assert (In b (a :: l1)) as Hin
          by (eapply Permutation_in; [symmetry; exact P|now left]).
        assert (In a (b :: l2)) as Hin'
          by (eapply Permutation_in; [exact P|now left]).
        apply Hties; [now left|assumption|].
        destruct Hin as [->|Hin]; [reflexivity|].
        destruct Hin' as [->|Hin']; [reflexivity|].
        rewrite Forall_forall in Ha, Hb.
        specialize (Ha _ Hin). specialize (Hb _ Hin').
        unfold ts_le in *. lia. }
      f_equal. apply IH; [assumption| |].
      * eapply Permutation_cons_inv; exact P.
      * intros; apply Hties; simpl; auto.
Qed.

(** ** Minimum and maximum *)

Lemma fold_min_le l x : fold_left Z.min l x <= x.
Proof.
  revert x; induction l as [|y l IH]; intros x; simpl; [lia|].
  specialize (IH (Z.min x y)). lia.
Qed.

Lemma fold_min_lower l x y : In y l -> fold_left Z.min l x <= y.
Proof.
  revert x; induction l as [|z l IH]; intros x; simpl; [tauto|].
  intros [->|H]; [|now apply IH].
  pose proof (fold_min_le l (Z.min x y)). lia.
Qed.

Lemma fold_min_In l x : In (fold_left Z.min l x) (x :: l).
Proof.
  revert x; induction l as [|y l IH]; intros x; simpl; [now left|].
  destruct (IH (Z.min x y)) as [H|H]; [|now right; right].
  rewrite <- H. destruct (Z.min_spec x y) as [[_ ->]|[_ ->]]; auto.
Qed.

Lemma fold_max_ge l x : x <= fold_left Z.max l x.
Proof.
  revert x; induction l as [|y l IH]; intros x; simpl; [lia|].
  specialize (IH (Z.max x y)). lia.
Qed.

Lemma fold_max_upper l x y : In y l -> y <= fold_left Z.max l x.
Proof.
  revert x; induction l as [|z l IH]; intros x; simpl; [tauto|].
  intros [->|H]; [|now apply IH].
  pose proof (fold_max_ge l (Z.max x y)). lia.
Qed.

Lemma fold_max_In l x : In (fold_left Z.max l x) (x :: l).
Proof.
  revert x; induction l as [|y l IH]; intros x; simpl; [now left|].
  destruct (IH (Z.max x y)) as [H|H]; [|now right; right].
  rewrite <- H. destruct (Z.max_spec x y) as [[_ ->]|[_ ->]]; auto.
Qed.

Lemma min_timestamp_le l o : In o l -> min_timestamp l <= timestamp o.
Proof.
  unfold min_timestamp. intros H. apply (in_map timestamp) in H.
  destruct (map timestamp l) as [|x ts]; [contradiction|].
  destruct H as [<-|H]; [apply fold_min_le|now apply fold_min_lower].
Qed.

Lemma max_timestamp_ge l o : In o l -> timestamp o <= max_timestamp l.
Proof.
  unfold max_timestamp. intros H. apply (in_map timestamp) in H.
  destruct (map timestamp l) as [|x ts]; [contradiction|].
  destruct H as [<-|H]; [apply fold_max_ge|now apply fold_max_upper].
Qed.

Lemma min_timestamp_In l :
  l <> [] -> exists o, In o l /\ timestamp o = min_timestamp l.
Proof.
  unfold min_timestamp. intros H.
  destruct l as [|a l]; [congruence|]. cbn [map].
  pose proof (fold_min_In (map timestamp l) (timestamp a)) as Hin.
  change (timestamp a :: map timestamp l) with (map timestamp (a :: l)) in Hin.
  apply in_map_iff in Hin as (o & E & Ho). eauto.
Qed.

Lemma max_timestamp_In l :
  l <> [] -> exists o, In o l /\ timestamp o = max_timestamp l.
Proof.
  unfold max_timestamp. intros H.
  destruct l as [|a l]; [congruence|]. cbn [map].
  pose proof (fold_max_In (map timestamp l) (timestamp a)) as Hin.
  change (timestamp a :: map timestamp l) with (map timestamp (a :: l)) in Hin.
  apply in_map_iff in Hin as (o & E & Ho). eauto.
Qed.

Lemma py_min_timestamp l :
  l <> [] -> py_min (map timestamp l) = Return (min_timestamp l).
Proof. destruct l; [congruence|reflexivity]. Qed.

Lemma py_max_timestamp l :
  l <> [] -> py_max (map timestamp l) = Return (max_timestamp l).
Proof. destruct l; [congruence|reflexivity]. Qed.


(** ** Comparisons of floats *)

Lemma eps_value : Float.eps = S754_finite false 4722366482869645 (-72).
Proof. vm_compute. reflexivity. Qed.

(** [a <= b < c] gives [a < c]. *)
Lemma leb_ltb_trans (a b c : float) :
  Float.leb a b = true -> Float.ltb b c = true -> Float.ltb a c = true.
Proof.
  unfold Float.leb, Float.ltb, SFleb, SFltb.
  float_destruct a; float_destruct b; simpl; try discriminate;
    float_destruct c; simpl; try discriminate; try reflexivity;
    intros H1 H2; float_solve.
Qed.

Lemma guards_divisor_pos (s : float) me ee :
  Float.ltb s (S754_finite false me ee) = false ->
  Float.gtb s Float.zero = true ->
  Float.leb (S754_finite false me ee) s = true.
Proof.
  unfold Float.leb, Float.ltb, Float.gtb, Float.zero, SFleb, SFltb.
  float_destruct s; simpl; try discriminate; try reflexivity;
    intros H1 H2; float_solve.
Qed.

Lemma divisor_guards_pos (s : float) me ee :
  Float.leb (S754_finite false me ee) s = true ->
  Float.ltb s (S754_finite false me ee) = false /\
  Float.gtb s Float.zero = true.
Proof.
  unfold Float.leb, Float.ltb, Float.gtb, Float.zero, SFleb, SFltb.
  float_destruct s; simpl; try discriminate; intros H1; split;
    try reflexivity; float_solve.
Qed.

Lemma guards_nan_pos (s : float) me ee :
  Float.ltb s (S754_finite false me ee) = false ->
  Float.gtb s Float.zero = false -> s = S754_nan.
Proof.
  unfold Float.ltb, Float.gtb, Float.zero, SFltb.
  float_destruct s; simpl; try discriminate; reflexivity.
Qed.

(** Past both guards of the source the divisor is at least [1e-6]. *)
Lemma guards_divisor (s : float) :
  Float.ltb s Float.eps = false -> Float.gtb s Float.zero = true ->
  Float.leb Float.eps s = true.
Proof. rewrite eps_value. apply guards_divisor_pos. Qed.

Lemma divisor_guards (s : float) :
  Float.leb Float.eps s = true ->
  Float.ltb s Float.eps = false /\ Float.gtb s Float.zero = true.
Proof. rewrite eps_value. apply divisor_guards_pos. Qed.

(** A standard deviation that passes the first guard and fails the
    second is not a number. *)
Lemma guards_nan (s : float) :
  Float.ltb s Float.eps = false -> Float.gtb s Float.zero = false ->
  s = S754_nan.
Proof. rewrite eps_value. apply guards_nan_pos. Qed.

Lemma is_anomaly_div_nan threshold x :
  is_anomaly threshold (Float.div x S754_nan) = false.
Proof.
  unfold is_anomaly, Float.div, SFdiv.
  destruct x as [| | |]; simpl; unfold Float.gtb, Float.ltb, SFltb;
    now destruct threshold.
Qed.

(** A Z-score that passes a threshold passes every lower one. *)
Lemma is_anomaly_mono t1 t2 z :
  Float.leb t1 t2 = true -> is_anomaly t2 z = true -> is_anomaly t1 z = true.
Proof. unfold is_anomaly, Float.gtb. apply leb_ltb_trans. Qed.

Lemma mapM_map {A B C : Type} (g : A -> B) (f : B -> result C) l :
  mapM f (map g l) = mapM (fun x => f (g x)) l.
Proof.
  induction l as [|x l IH]; simpl; [reflexivity|]. now rewrite IH.
Qed.

Lemma mapM_exists {A B : Type} (f : A -> result B) l :
  (forall x, In x l -> exists y, f x = Return y) ->
  exists ys, mapM f l = Return ys.
Proof.
  induction l as [|x l IH]; simpl; intros H; [eauto|].
  destruct (H x) as (y & Hy); [now left|].
  destruct IH as (ys & Hys); [intros; apply H; now right|].
  rewrite Hy, Hys; simpl; eauto.
Qed.

Lemma filter_combine_none {A B C : Type} (p : B -> bool) (g : C -> B)
  (l : list A) (values : list C) :
  (forall x, p (g x) = false) ->
  filter (fun q => p (snd q)) (combine l (map g values)) = [].
Proof.
  intros H. revert values; induction l as [|a l IH]; intros [|c values];
    simpl; try reflexivity.
  now rewrite H.
Qed.

(** ** The loops of the detector *)

Section DetectorFacts.

Variable np_mean : list float -> float.
Variable np_std : list float -> float.
Variable round2 : float -> float.
Variable strftime : Z -> result string.

Local Abbreviation detect :=
  (detect_temporal_anomalies np_mean np_std round2 strftime).

Lemma find_anomalies_mapM threshold ts te sid v pairs acc :
  find_anomalies round2 strftime threshold ts te sid v pairs acc =
  (rss <- mapM (emit_record round2 strftime threshold ts te sid v) pairs ;;
   Return (acc ++ List.concat rss)).
Proof.
  unfold find_anomalies. apply for_each_appends.
  intros acc' [obs z]. unfold emit_record, is_anomaly; simpl.
  destruct (Float.gtb (Float.abs z) threshold); simpl.
  - now destruct (strftime (timestamp obs)).
  - now rewrite app_nil_r.
Qed.

Lemma check_variable_with_appends divide threshold ts te sid l acc v :
  check_variable_with np_mean np_std round2 strftime divide threshold ts te
    sid l acc v =
  (r <- check_variable_with np_mean np_std round2 strftime divide threshold
          ts te sid l [] v ;;
   Return (acc ++ r)).
Proof.
  unfold check_variable_with.
  destruct (Float.ltb _ Float.eps); simpl; [now rewrite app_nil_r|].
  destruct (Float.gtb _ Float.zero); simpl; [|now rewrite app_nil_r].
  rewrite !find_anomalies_mapM.
  now destruct (mapM _ _).
Qed.

Lemma check_variable_appends threshold ts te sid l acc v :
  check_variable np_mean np_std round2 strftime threshold ts te sid l acc v =
  (r <- variable_result np_mean np_std round2 strftime threshold ts te sid
          l v ;;
   Return (acc ++ r)).
Proof. apply check_variable_with_appends. Qed.

Lemma check_station_appends threshold acc item :
  check_station np_mean np_std round2 strftime threshold acc item =
  (r <- check_station np_mean np_std round2 strftime threshold [] item ;;
   Return (acc ++ r)).
Proof.
  destruct item as [sid l]. unfold check_station.
  destruct (_ <? 3)%nat; cbn [bind]; [now rewrite app_nil_r|].
  destruct (py_min _) as [lo|]; cbn [bind]; [|reflexivity].
  destruct (strftime lo) as [ts|]; cbn [bind]; [|reflexivity].
  destruct (py_max _) as [hi|]; cbn [bind]; [|reflexivity].
  destruct (strftime hi) as [te|]; cbn [bind]; [|reflexivity].
  rewrite !(for_each_appends _ _ (check_variable_appends threshold ts te sid _)).
  now destruct (mapM _ _).
Qed.

(** The detector collects the results of the stations in first-seen
    order. *)
Lemma detect_mapM obs threshold :
  detect obs threshold =
  (rss <- mapM (station_result np_mean np_std round2 strftime threshold obs)
            (stations obs) ;;
   Return (List.concat rss)).
Proof.
  unfold detect_temporal_anomalies.
  rewrite (for_each_appends _ _ (check_station_appends threshold)).
  rewrite group_by_station_spec, mapM_map. reflexivity.
Qed.

Lemma formatted_Return ts s : strftime ts = Return s -> formatted strftime ts = s.
Proof. unfold formatted. now intros ->. Qed.

(** What the innermost loop emits: one record for each anomalous pair,
    in order. *)
Lemma emit_record_records threshold ts te sid v pairs rss :
  mapM (emit_record round2 strftime threshold ts te sid v) pairs = Return rss ->
  List.concat rss =
  map (fun p =>
         AnomalyResult.mk ts te sid (var_name v)
           (formatted strftime (timestamp (fst p)))
           (round2 (getattr (fst p) v)) (round2 (snd p)))
    (filter (fun p => is_anomaly threshold (snd p)) pairs).
Proof.
  revert rss; induction pairs as [|p pairs IH]; simpl; intros rss H.
  - now injection H as <-.
  - apply bind_Return_inv in H as (r & Hr & H).
    apply bind_Return_inv in H as (rss' & Hrss & H).
    injection H as <-. simpl. rewrite (IH _ Hrss).
    unfold emit_record in Hr.
    destruct (is_anomaly threshold (snd p)).
    + apply bind_Return_inv in Hr as (a & Ha & Hr). injection Hr as <-.
      simpl. now rewrite (formatted_Return _ _ Ha).
    + now injection Hr as <-.
Qed.

Lemma variable_result_records threshold sid sorted v r :
  variable_result np_mean np_std round2 strftime threshold
    (formatted strftime (min_timestamp sorted))
    (formatted strftime (max_timestamp sorted)) sid sorted v = Return r ->
  r = spec_variable_records np_mean np_std round2 strftime threshold sid
        sorted v.
Proof.
  unfold variable_result, check_variable, check_variable_with,
    spec_variable_records.
  destruct (Float.ltb _ Float.eps) eqn:E1; [now intros [= <-]|].
  destruct (Float.gtb _ Float.zero) eqn:E2.
  - rewrite find_anomalies_mapM. intros H.
    apply bind_Return_inv in H as (rss & Hrss & H). injection H as <-.
    simpl. now rewrite (emit_record_records _ _ _ _ _ _ _ Hrss).
  - intros [= <-]. apply guards_nan in E2; [|assumption].
    unfold z_scores. rewrite E2.
    rewrite (filter_combine_none (is_anomaly threshold)); [reflexivity|].
    intros x. apply is_anomaly_div_nan.
Qed.

Lemma sorted_nonempty (l : list Observation) :
  (List.length l <? 3)%nat = false -> l <> [].
Proof. destruct l; simpl; [discriminate|congruence]. Qed.

Lemma station_result_records threshold obs sid r :
  station_result np_mean np_std round2 strftime threshold obs sid = Return r ->
  r = spec_station_records np_mean np_std round2 strftime threshold obs sid.
Proof.
  unfold station_result, check_station, spec_station_records.
  set (sorted := sort_by_timestamp (station_group sid obs)).
  destruct (_ <? 3)%nat eqn:E; [now intros [= <-]|].
  pose proof (sorted_nonempty _ E) as Hne.
  rewrite py_min_timestamp, py_max_timestamp by assumption. cbn [bind].
  intros H.
  apply bind_Return_inv in H as (ts & Hts & H).
  apply bind_Return_inv in H as (te & Hte & H).
  rewrite (for_each_appends _ _ (check_variable_appends threshold ts te sid _))
    in H.
  apply bind_Return_inv in H as (rss & Hrss & H). injection H as <-.
  rewrite flat_map_concat_map. f_equal.
  apply (mapM_Return_map _ _ _ _ (fun v r' _ Hr' =>
           variable_result_records threshold sid sorted v r' Hr')).
  now rewrite (formatted_Return _ _ Hts), (formatted_Return _ _ Hte).
Qed.

(** What the detector returns is what the algorithm of the
    specification yields. *)
Lemma detect_Return_spec obs threshold recs :
  detect obs threshold = Return recs ->
  recs = spec_detect np_mean np_std round2 strftime obs threshold.
Proof.
  rewrite detect_mapM. intros H.
  apply bind_Return_inv in H as (rss & Hrss & H). injection H as <-.
  unfold spec_detect. rewrite flat_map_concat_map. f_equal.
  apply (mapM_Return_map _ _ _ _ (fun sid r _ Hr =>
           station_result_records threshold obs sid r Hr)).
  assumption.
Qed.

(** The detector returns when every timestamp can be formatted. *)
Lemma emit_record_total threshold ts te sid v p :
  formattable strftime (timestamp (fst p)) ->
  exists r, emit_record round2 strftime threshold ts te sid v p = Return r.
Proof.
  intros (s & Hs). unfold emit_record.
  destruct (is_anomaly threshold (snd p)); [|eauto].
  rewrite Hs; simpl; eauto.
Qed.

Lemma variable_result_total threshold ts te sid l v :
  (forall o, In o l -> formattable strftime (timestamp o)) ->
  exists r, variable_result np_mean np_std round2 strftime threshold ts te
              sid l v = Return r.
Proof.
  intros Hl. unfold variable_result, check_variable, check_variable_with.
  destruct (Float.ltb _ Float.eps); [eauto|].
  destruct (Float.gtb _ Float.zero); [|eauto].
  rewrite find_anomalies_mapM.
  destruct (mapM_exists (emit_record round2 strftime threshold ts te sid v)
              (combine l (map (fun v0 =>
                 Float.div (Float.sub v0
                   (np_mean (map (fun obs => getattr obs v) l)))
                   (np_std (map (fun obs => getattr obs v) l)))
                 (map (fun obs => getattr obs v) l)))) as (rss & Hrss).
  - intros [o z] Hin. apply emit_record_total. apply Hl.
    now apply in_combine_l in Hin.
  - rewrite Hrss. simpl; eauto.
Qed.

Lemma station_result_total threshold obs sid :
  (forall o, In o obs -> formattable strftime (timestamp o)) ->
  exists r, station_result np_mean np_std round2 strftime threshold obs sid
            = Return r.
Proof.
  intros Hobs. unfold station_result, check_station.
  set (sorted := sort_by_timestamp (station_group sid obs)).
  assert (Hin : forall o, In o sorted -> In o obs).
  { intros o Ho. unfold sorted in Ho.
    apply (proj1 (sort_by_timestamp_In _ _)) in Ho.
    unfold station_group in Ho. now apply filter_In in Ho. }
  destruct (_ <? 3)%nat eqn:E; [eauto|].
  pose proof (sorted_nonempty _ E) as Hne.
  rewrite py_min_timestamp, py_max_timestamp by assumption. cbn [bind].
  destruct (min_timestamp_In _ Hne) as (o1 & Ho1 & <-).
  destruct (max_timestamp_In _ Hne) as (o2 & Ho2 & <-).
  destruct (Hobs o1 (Hin _ Ho1)) as (ts & ->).
  destruct (Hobs o2 (Hin _ Ho2)) as (te & ->). cbn [bind].
  rewrite (for_each_appends _ _ (check_variable_appends threshold ts te sid _)).
  destruct (mapM_exists
              (variable_result np_mean np_std round2 strftime threshold ts te
                 sid sorted) variables) as (rss & ->).
  - intros v _. apply variable_result_total. auto.
  - simpl; eauto.
Qed.

Lemma detect_total obs threshold :
  (forall o, In o obs -> formattable strftime (timestamp o)) ->
  detect obs threshold =
  Return (spec_detect np_mean np_std round2 strftime obs threshold).
Proof.
  intros Hobs.
  destruct (mapM_exists
              (station_result np_mean np_std round2 strftime threshold obs)
              (stations obs)) as (rss & Hrss).
  - intros sid _. now apply station_result_total.
  - assert (H : detect obs threshold = Return (List.concat rss))
      by (rewrite detect_mapM, Hrss; reflexivity).
    rewrite H. f_equal. now apply detect_Return_spec.
Qed.

End DetectorFacts.

(** ** Records of one station and of one variable *)

Lemma filter_all {B : Type} (p : B -> bool) l :
  (forall r, In r l -> p r = true) -> filter p l = l.
Proof.
  induction l as [|r l IH]; simpl; intros H; [reflexivity|].
  rewrite (H r) by now left. f_equal. apply IH. intros; apply H; now right.
Qed.

Lemma flat_map_nil {A B : Type} (F : A -> list B) l :
  (forall x, F x = []) -> flat_map F l = [].
Proof.
  intros H. induction l as [|x l IH]; simpl; [reflexivity|].
  now rewrite H, IH.
Qed.

Lemma filter_none {B : Type} (p : B -> bool) l :
  (forall r, In r l -> p r = false) -> filter p l = [].
Proof.
  induction l as [|r l IH]; simpl; intros H; [reflexivity|].
  rewrite (H r) by now left. apply IH. intros; apply H; now right.
Qed.

(** Selecting the part of one key in a concatenation of lists that
    carry their key. *)
Lemma flat_map_select_none {K B : Type} (p : B -> bool) (k : K)
  (F : K -> list B) l :
  (forall x r, In r (F x) -> (p r = true <-> x = k)) ->
  ~ In k l -> filter p (flat_map F l) = [].
Proof.
  intros HF. induction l as [|x l IH]; simpl; intros Hk; [reflexivity|].
  rewrite filter_app, IH by tauto. rewrite app_nil_r.
  apply filter_none. intros r Hr.
  destruct (p r) eqn:E; [|reflexivity].
  apply (HF x r Hr) in E. tauto.
Qed.

Lemma flat_map_select {K B : Type} (p : B -> bool) (k : K)
  (F : K -> list B) l :
  (forall x r, In r (F x) -> (p r = true <-> x = k)) ->
  NoDup l -> In k l -> filter p (flat_map F l) = F k.
Proof.
  intros HF. induction l as [|x l IH]; simpl; intros ND Hk; [tauto|].
  inversion ND as [|? ? Hx ND']; subst. rewrite filter_app.
  destruct Hk as [->|Hk].
  - rewrite (flat_map_select_none p k F l HF Hx), app_nil_r.
    apply filter_all. intros r Hr. now apply (HF k r Hr).
  - rewrite IH by assumption.
    rewrite filter_none; [reflexivity|].
    intros r Hr. destruct (p r) eqn:E; [|reflexivity].
    apply (HF x r Hr) in E. congruence.
Qed.

Lemma var_name_inj v w : var_name v = var_name w -> v = w.
Proof. destruct v, w; simpl; intros H; reflexivity || discriminate H. Qed.

Lemma variables_NoDup : NoDup variables.
Proof.
  unfold variables.
  repeat constructor; simpl; intros H;
    repeat (destruct H as [H|H]; [discriminate H|]); exact H.
Qed.

Lemma variables_In v : In v variables.
Proof. destruct v; simpl; tauto. Qed.

Lemma of_station_spec sid r :
  of_station sid r = true <-> AnomalyResult.station_id r = sid.
Proof. apply String.eqb_eq. Qed.

Lemma of_variable_spec v r :
  of_variable v r = true <-> AnomalyResult.variable r = var_name v.
Proof. apply String.eqb_eq. Qed.

Lemma stations_In sid obs :
  In sid (stations obs) <-> station_group sid obs <> [].
Proof.
  unfold stations. rewrite first_seen_In. split.
  - intros H E. apply in_map_iff in H as (o & <- & Ho).
    assert (In o (station_group (station_id o) obs)) as Hin
      by (apply filter_In; split; [assumption|apply String.eqb_refl]).
    now rewrite E in Hin.
  - intros H. destruct (in_dec string_dec sid (map station_id obs)) as [|n];
      [assumption|].
    now apply station_group_absent in n.
Qed.

Section SpecFacts.

Variable np_mean : list float -> float.
Variable np_std : list float -> float.
Variable round2 : float -> float.
Variable strftime : Z -> result string.

Local Abbreviation detect :=
  (detect_temporal_anomalies np_mean np_std round2 strftime).
Local Abbreviation spec_variable :=
  (spec_variable_records np_mean np_std round2 strftime).
Local Abbreviation spec_station :=
  (spec_station_records np_mean np_std round2 strftime).
Local Abbreviation spec :=
  (spec_detect np_mean np_std round2 strftime).

Lemma spec_variable_records_key threshold sid sorted v r :
  In r (spec_variable threshold sid sorted v) ->
  AnomalyResult.station_id r = sid /\ AnomalyResult.variable r = var_name v.
Proof.
  unfold spec_variable_records.
  destruct (Float.ltb _ Float.eps); [contradiction|].
  intros H. apply in_map_iff in H as (p & <- & _). now split.
Qed.

Lemma spec_station_records_key threshold obs sid r :
  In r (spec_station threshold obs sid) -> AnomalyResult.station_id r = sid.
Proof.
  unfold spec_station_records. destruct (_ <? 3)%nat; [contradiction|].
  intros H. apply in_flat_map in H as (v & _ & H).
  now apply spec_variable_records_key in H.
Qed.

Lemma spec_station_records_absent threshold obs sid :
  (List.length (station_group sid obs) < 3)%nat ->
  spec_station threshold obs sid = [].
Proof.
  intros H. unfold spec_station_records.
  rewrite sort_by_timestamp_length.
  now apply Nat.ltb_lt in H as ->.
Qed.

(** The records of a station in the output are those of its group. *)
Lemma spec_detect_station threshold obs sid :
  filter (of_station sid) (spec obs threshold) = spec_station threshold obs sid.
Proof.
  unfold spec_detect.
  assert (HF : forall x r, In r (spec_station threshold obs x) ->
                 (of_station sid r = true <-> x = sid)).
  { intros x r Hr. apply spec_station_records_key in Hr.
    rewrite of_station_spec. now subst x. }
  destruct (in_dec string_dec sid (stations obs)) as [Hin|Hout].
  - now apply flat_map_select; [|apply first_seen_NoDup|].
  - rewrite (flat_map_select_none _ sid _ _ HF Hout).
    symmetry. apply spec_station_records_absent.
    rewrite stations_In in Hout.
    destruct (station_group sid obs); [simpl; lia|].
    exfalso. apply Hout. discriminate.
Qed.

(** The records of a variable of a station with at least three
    observations. *)
Lemma spec_station_variable threshold obs sid v :
  (3 <= List.length (station_group sid obs))%nat ->
  filter (of_variable v) (spec_station threshold obs sid) =
  spec_variable threshold sid (sort_by_timestamp (station_group sid obs)) v.
Proof.
  intros H. unfold spec_station_records.
  rewrite sort_by_timestamp_length.
  apply Nat.ltb_ge in H as ->.
  apply flat_map_select;
    [|apply variables_NoDup|apply variables_In].
  intros w r Hr. apply spec_variable_records_key in Hr as [_ Hr].
  rewrite of_variable_spec, Hr. split; [apply var_name_inj|congruence].
Qed.

End SpecFacts.

(** ** What a returning run has formatted *)

Lemma mapM_In {A B : Type} (f : A -> result B) l ys x :
  mapM f l = Return ys -> In x l -> exists y, f x = Return y /\ In y ys.
Proof.
  intros H. apply mapM_Return_Forall2 in H.
  induction H as [|a y l ys Hay _ IH]; simpl; [tauto|].
  intros [<-|Hx]; [eauto|].
  destruct (IH Hx) as (y' & ? & ?); eauto.
Qed.

Section Formatting.

Variable np_mean : list float -> float.
Variable np_std : list float -> float.
Variable round2 : float -> float.
Variable strftime : Z -> result string.

Local Abbreviation detect :=
  (detect_temporal_anomalies np_mean np_std round2 strftime).

Lemma detect_station_returns obs threshold recs sid :
  detect obs threshold = Return recs -> In sid (stations obs) ->
  exists r,
    station_result np_mean np_std round2 strftime threshold obs sid = Return r.
Proof.
  rewrite detect_mapM. intros H Hin.
  apply bind_Return_inv in H as (rss & Hrss & _).
  destruct (mapM_In _ _ _ _ Hrss Hin) as (r & Hr & _); eauto.
Qed.

Lemma station_result_formats threshold obs sid r :
  let sorted := sort_by_timestamp (station_group sid obs) in
  station_result np_mean np_std round2 strftime threshold obs sid = Return r ->
  (List.length sorted <? 3)%nat = false ->
  exists ts te,
    strftime (min_timestamp sorted) = Return ts /\
    strftime (max_timestamp sorted) = Return te /\
    forall v, exists rv,
      variable_result np_mean np_std round2 strftime threshold ts te sid
        sorted v = Return rv.
Proof.
  intros sorted. unfold station_result, check_station. fold sorted.
  intros H E. rewrite E in H.
  pose proof (sorted_nonempty _ E) as Hne.
  rewrite py_min_timestamp, py_max_timestamp in H by assumption.
  cbn [bind] in H.
  apply bind_Return_inv in H as (ts & Hts & H).
  apply bind_Return_inv in H as (te & Hte & H).
  rewrite (for_each_appends _ _ (check_variable_appends _ _ _ _ threshold ts
             te sid _)) in H.
  apply bind_Return_inv in H as (rss & Hrss & _).
  exists ts, te. repeat split; try assumption.
  intros v. destruct (mapM_In _ _ _ v Hrss (variables_In v)) as (rv & ? & _).
  eauto.
Qed.

Lemma variable_result_formats threshold ts te sid l v r p :
  let values := map (fun o => getattr o v) l in
  variable_result np_mean np_std round2 strftime threshold ts te sid l v
  = Return r ->
  Float.ltb (np_std values) Float.eps = false ->
  In p (combine l (z_scores np_mean np_std values)) ->
  is_anomaly threshold (snd p) = true ->
  formattable strftime (timestamp (fst p)).
Proof.
  intros values. unfold variable_result, check_variable, check_variable_with.
  fold values. intros H E1 Hp Ha. rewrite E1 in H.
  destruct (Float.gtb (np_std values) Float.zero) eqn:E2.
  - rewrite find_anomalies_mapM in H.
    apply bind_Return_inv in H as (rss & Hrss & _).
    destruct (mapM_In _ _ _ p Hrss Hp) as (y & Hy & _).
    unfold emit_record in Hy. rewrite Ha in Hy.
    apply bind_Return_inv in Hy as (s & Hs & _). now exists s.
  - apply guards_nan in E2; [|assumption].
    destruct p as [o z]; cbn [fst snd] in *.
    apply in_combine_r in Hp. unfold z_scores in Hp. rewrite E2 in Hp.
    apply in_map_iff in Hp as (x & Hx & _).
    rewrite <- Hx, is_anomaly_div_nan in Ha. discriminate.
Qed.

End Formatting.

(** * The claims of the specification *)

(** C2.  A station whose group holds fewer than three observations
    contributes no record to the output of the detector, whatever the
    observations and the threshold. *)
Theorem few_observations_no_records np_mean np_std round2 strftime
  obs threshold recs sid :
  detect_temporal_anomalies np_mean np_std round2 strftime obs threshold
  = Return recs ->
  (List.length (station_group sid obs) < 3)%nat ->
  filter (of_station sid) recs = [].
Proof.
  intros H Hlen. apply detect_Return_spec in H. subst recs.
  rewrite spec_detect_station. now apply spec_station_records_absent.
Qed.

Lemma few_observations_no_records_witness :
  Reference.detect Sample.two_stations Sample.threshold
  = Return [Sample.anomaly] /\
  (List.length (station_group "station_002" Sample.two_stations) < 3)%nat /\
  filter (of_station "station_002") [Sample.anomaly] = [].
Proof.
  assert (H : Reference.detect Sample.two_stations Sample.threshold
              = Return [Sample.anomaly]) by (vm_compute; reflexivity).
  assert (Hlen : (List.length (station_group "station_002"
                                 Sample.two_stations) < 3)%nat)
    by (vm_compute; lia).
  split; [exact H|]. split; [exact Hlen|].
  exact (few_observations_no_records _ _ _ _ _ _ _ _ H Hlen).
Defined.

Lemma filter_andb {B : Type} (p q : B -> bool) l :
  filter (fun r => p r && q r) l = filter q (filter p l).
Proof.
  induction l as [|r l IH]; simpl; [reflexivity|].
  destruct (p r); simpl; [destruct (q r)|]; now rewrite IH.
Qed.

(** C1.  For a station group of at least three observations and a
    tracked variable whose standard deviation [np.std] over the group
    is at least [1e-6], the records of that station and variable in the
    output are, in order, one record for each observation of the sorted
    group whose Z-score [z = (value - mean) / std] has [|z| > threshold],
    and none for the others; the record carries the formatted minimum
    and maximum timestamp of the group, the station id, the variable
    name, the formatted timestamp of the observation, the value rounded
    to two places and [z] rounded to two places. *)
Theorem anomaly_records_of_variable np_mean np_std round2 strftime
  obs threshold recs sid v :
  let sorted := sort_by_timestamp (station_group sid obs) in
  let values := map (fun o => getattr o v) sorted in
  let anomalous :=
    filter (fun p => is_anomaly threshold (snd p))
      (combine sorted (z_scores np_mean np_std values)) in
  detect_temporal_anomalies np_mean np_std round2 strftime obs threshold
  = Return recs ->
  (3 <= List.length (station_group sid obs))%nat ->
  Float.leb Float.eps (np_std values) = true ->
  filter (fun r => of_station sid r && of_variable v r) recs =
    map (record_of round2 strftime sid sorted v) anomalous /\
  formattable strftime (min_timestamp sorted) /\
  formattable strftime (max_timestamp sorted) /\
  Forall (fun p => formattable strftime (timestamp (fst p))) anomalous.
Proof.
  intros sorted values anomalous H Hlen Hstd.
  destruct (divisor_guards _ Hstd) as [E1 _].
  assert (Hin : In sid (stations obs)).
  { apply stations_In. destruct (station_group sid obs); [simpl in Hlen; lia|].
    discriminate. }
  destruct (detect_station_returns _ _ _ _ _ _ _ _ H Hin) as (r & Hr).
  assert (E : (List.length sorted <? 3)%nat = false).
  { apply Nat.ltb_ge. unfold sorted. now rewrite sort_by_timestamp_length. }
  destruct (station_result_formats _ _ _ _ _ _ _ _ Hr E)
    as (ts & te & Hts & Hte & Hv).
  split; [|split; [now exists ts|split; [now exists te|]]].
  - apply detect_Return_spec in H. subst recs.
    rewrite filter_andb, spec_detect_station, spec_station_variable
      by assumption.
    unfold spec_variable_records. fold sorted values. now rewrite E1.
  - apply Forall_forall. intros p Hp. apply filter_In in Hp as [Hp Ha].
    destruct (Hv v) as (rv & Hrv).
    exact (variable_result_formats _ _ _ _ _ _ _ _ _ _ _ _ Hrv E1 Hp Ha).
Qed.

Lemma anomaly_records_of_variable_witness :
  Reference.detect Sample.station_001 Sample.threshold
  = Return [Sample.anomaly] /\
  filter (fun r => of_station "station_001" r && of_variable TempOut r)
    [Sample.anomaly] = [Sample.anomaly] /\
  formattable Reference.strftime 1729580400.
Proof.
  assert (H : Reference.detect Sample.station_001 Sample.threshold
              = Return [Sample.anomaly]) by (vm_compute; reflexivity).
  assert (Hlen : (3 <= List.length (station_group "station_001"
                                      Sample.station_001))%nat)
    by (vm_compute; lia).
  assert (Hstd : Float.leb Float.eps
                   (Reference.np_std
                      (map (fun o => getattr o TempOut)
                         (sort_by_timestamp
                            (station_group "station_001"
                               Sample.station_001)))) = true)
    by (vm_compute; reflexivity).
  destruct (anomaly_records_of_variable _ _ _ _ _ _ _ _ TempOut H Hlen Hstd)
    as (Hrecs & Hmin & _).
  split; [exact H|]. split; [vm_compute; reflexivity|exact Hmin].
Defined.



(** ** Raising the threshold *)

Lemma mapM_simulation {A B C : Type} (f : A -> result B) (g : A -> result C)
  (R : B -> C -> Prop) l ys :
  (forall x y, In x l -> f x = Return y -> exists z, g x = Return z /\ R y z) ->
  mapM f l = Return ys ->
  exists zs, mapM g l = Return zs /\ Forall2 R ys zs.
Proof.
  revert ys; induction l as [|x l IH]; simpl; intros ys Hfg H.
  - injection H as <-. exists []. split; [reflexivity|constructor].
  - apply bind_Return_inv in H as (y & Hy & H).
    apply bind_Return_inv in H as (ys' & Hys & H). injection H as <-.
    destruct (Hfg x y) as (z & Hz & Hyz); [now left|assumption|].
    destruct (IH ys') as (zs & Hzs & Hall); [|assumption|].
    { intros; eapply Hfg; eauto. }
    rewrite Hz, Hzs. simpl. exists (z :: zs). split; [reflexivity|].
    now constructor.
Qed.

Lemma concat_length_le {B : Type} (ys zs : list (list B)) :
  Forall2 (fun a b => (List.length b <= List.length a)%nat) ys zs ->
  (List.length (List.concat zs) <= List.length (List.concat ys))%nat.
Proof.
  induction 1 as [|a b ys zs Hab _ IH]; simpl; [lia|].
  rewrite !length_app. lia.
Qed.

Section Monotone.

Variable np_mean : list float -> float.
Variable np_std : list float -> float.
Variable round2 : float -> float.
Variable strftime : Z -> result string.

Variables t1 t2 : float.
Hypothesis Hle : Float.leb t1 t2 = true.

Local Abbreviation shorter :=
  (fun a b : list AnomalyResult.t => (List.length b <= List.length a)%nat).

Lemma emit_record_monotone ts te sid v p r1 :
  emit_record round2 strftime t1 ts te sid v p = Return r1 ->
  exists r2,
    emit_record round2 strftime t2 ts te sid v p = Return r2 /\ shorter r1 r2.
Proof.
  unfold emit_record.
  destruct (is_anomaly t2 (snd p)) eqn:E2.
  - rewrite (is_anomaly_mono _ _ _ Hle E2). intros H. eauto.
  - intros _. exists []. split; [reflexivity|simpl; lia].
Qed.

Lemma variable_result_monotone ts te sid l v r1 :
  variable_result np_mean np_std round2 strftime t1 ts te sid l v = Return r1 ->
  exists r2,
    variable_result np_mean np_std round2 strftime t2 ts te sid l v = Return r2
    /\ shorter r1 r2.
Proof.
  unfold variable_result, check_variable, check_variable_with.
  destruct (Float.ltb _ Float.eps); [intros H; eauto|].
  destruct (Float.gtb _ Float.zero); [|intros H; eauto].
  rewrite !find_anomalies_mapM. intros H.
  apply bind_Return_inv in H as (rss & Hrss & H). injection H as <-.
  destruct (mapM_simulation _
              (emit_record round2 strftime t2 ts te sid v) shorter _ _
              (fun p y _ Hy => emit_record_monotone ts te sid v p y Hy) Hrss)
    as (zs & -> & Hall).
  simpl. eexists. split; [reflexivity|]. now apply concat_length_le.
Qed.

Lemma station_result_monotone obs sid r1 :
  station_result np_mean np_std round2 strftime t1 obs sid = Return r1 ->
  exists r2,
    station_result np_mean np_std round2 strftime t2 obs sid = Return r2
    /\ shorter r1 r2.
Proof.
  unfold station_result, check_station.
  destruct (_ <? 3)%nat; [intros H; eauto|].
  destruct (py_min _) as [lo|]; cbn [bind]; [|discriminate].
  destruct (strftime lo) as [ts|]; cbn [bind]; [|discriminate].
  destruct (py_max _) as [hi|]; cbn [bind]; [|discriminate].
  destruct (strftime hi) as [te|]; cbn [bind]; [|discriminate].
  rewrite (for_each_appends _ _ (check_variable_appends _ _ _ _ t1 ts te sid _)).
  rewrite (for_each_appends _ _ (check_variable_appends _ _ _ _ t2 ts te sid _)).
  intros H. apply bind_Return_inv in H as (rss & Hrss & H). injection H as <-.
  destruct (mapM_simulation _
              (variable_result np_mean np_std round2 strftime t2 ts te sid
                 (sort_by_timestamp (station_group sid obs))) shorter _ _
              (fun v y _ Hy => variable_result_monotone ts te sid _ v y Hy)
              Hrss)
    as (zs & -> & Hall).
  simpl. eexists. split; [reflexivity|]. now apply concat_length_le.
Qed.

Lemma detect_monotone obs recs1 :
  detect_temporal_anomalies np_mean np_std round2 strftime obs t1
  = Return recs1 ->
  exists recs2,
    detect_temporal_anomalies np_mean np_std round2 strftime obs t2
    = Return recs2 /\ shorter recs1 recs2.
Proof.
  rewrite !detect_mapM. intros H.
  apply bind_Return_inv in H as (rss & Hrss & H). injection H as <-.
  destruct (mapM_simulation _
              (station_result np_mean np_std round2 strftime t2 obs)
              shorter _ _
              (fun sid y _ Hy => station_result_monotone obs sid y Hy) Hrss)
    as (zs & -> & Hall).
  simpl. eexists. split; [reflexivity|]. now apply concat_length_le.
Qed.

End Monotone.

(** C4.  For a fixed list of observations and thresholds [t1 <= t2],
    the detector returns at [t2] whenever it returns at [t1], and
    with no more records: raising the threshold never increases the
    number of anomalies. *)
Theorem raising_threshold_fewer_anomalies np_mean np_std round2 strftime
  obs t1 t2 recs1 :
  Float.leb t1 t2 = true ->
  detect_temporal_anomalies np_mean np_std round2 strftime obs t1
  = Return recs1 ->
  exists recs2,
    detect_temporal_anomalies np_mean np_std round2 strftime obs t2
    = Return recs2 /\
    (List.length recs2 <= List.length recs1)%nat.
Proof. intros Hle. now apply detect_monotone. Qed.

Lemma raising_threshold_fewer_anomalies_witness :
  Float.leb Sample.threshold (Float.of_Z 4) = true /\
  Reference.detect Sample.station_001 Sample.threshold
  = Return [Sample.anomaly] /\
  exists recs2,
    Reference.detect Sample.station_001 (Float.of_Z 4) = Return recs2 /\
    (List.length recs2 <= 1)%nat.
Proof.
  assert (Hle : Float.leb Sample.threshold (Float.of_Z 4) = true)
    by (vm_compute; reflexivity).
  assert (H : Reference.detect Sample.station_001 Sample.threshold
              = Return [Sample.anomaly]) by (vm_compute; reflexivity).
  split; [exact Hle|]. split; [exact H|].
  exact (raising_threshold_fewer_anomalies _ _ _ _ _ _ _ _ Hle H).
Defined.

(** ** The endpoint *)

(** C6.  The window length and the stride do not reach the detector:
    two requests with the same observations and threshold and any
    window lengths and strides give the same anomaly list (or the same
    error). *)
Theorem window_and_stride_inert np_mean np_std round2 strftime now
  obs t w1 s1 w2 s2 :
  same_anomalies
    (detect_anomalies np_mean np_std round2 strftime now
       (mkRequest obs w1 s1 t))
    (detect_anomalies np_mean np_std round2 strftime now
       (mkRequest obs w2 s2 t)).
Proof.
  unfold detect_anomalies, detect_anomalies_with, build_response; simpl.
  destruct obs as [|o obs]; simpl; [now split|].
  destruct (_ <? 3)%nat; [now split|].
  destruct (detect_temporal_anomalies _ _ _ _ _ _) as [recs|msg]; simpl.
  - destruct (0 <? List.length recs)%nat; simpl; repeat split.
  - now split.
Qed.

(** C8.  A request with no observation or fewer than three is answered
    with status 400 whatever the detector is, so without calling it;
    and when the detector raises, the handler answers with status 500
    and the message of the exception. *)
Theorem endpoint_errors now request :
  ((List.length (observations request) < 3)%nat ->
   exists detail, forall detector,
     detect_anomalies_with detector now request = HTTPException 400 detail) /\
  (forall detector msg,
     (3 <= List.length (observations request))%nat ->
     detector (observations request) (threshold request) = Raise msg ->
     detect_anomalies_with detector now request
     = HTTPException 500 ("Detection failed: " ++ msg)%string).
Proof.
  unfold detect_anomalies_with, build_response. split.
  - intros Hlen. destruct (observations request) as [|o obs] eqn:E.
    + eexists; intros; reflexivity.
    + apply Nat.ltb_lt in Hlen. rewrite Hlen. eexists; intros; reflexivity.
  - intros detector msg Hlen Hraise.
    destruct (observations request) as [|o obs] eqn:E; [simpl in Hlen; lia|].
    apply Nat.ltb_ge in Hlen. rewrite Hlen, Hraise. reflexivity.
Qed.

Lemma endpoint_errors_witness :
  (exists detail, forall detector,
     detect_anomalies_with detector Sample.now
       (mkRequest Sample.station_002 60 18 Sample.threshold)
     = HTTPException 400 detail) /\
  detect_anomalies Reference.np_mean Reference.np_std Reference.round2
    Reference.strftime Sample.now FarFuture.request
  = HTTPException 500 "Detection failed: year 31690708 is out of range".
Proof.
  split.
  - apply (proj1 (endpoint_errors Sample.now
                    (mkRequest Sample.station_002 60 18 Sample.threshold))).
    vm_compute. lia.
  - apply (proj2 (endpoint_errors Sample.now FarFuture.request)
             Reference.detect "year 31690708 is out of range").
    + vm_compute. lia.
    + vm_compute. reflexivity.
Defined.

(** ** Where a record comes from *)

Section Provenance.

Variable np_mean : list float -> float.
Variable np_std : list float -> float.
Variable round2 : float -> float.
Variable strftime : Z -> result string.

Lemma spec_detect_In obs threshold r :
  In r (spec_detect np_mean np_std round2 strftime obs threshold) ->
  exists sid v p,
    (3 <= List.length (station_group sid obs))%nat /\
    Float.ltb
      (np_std (map (fun o => getattr o v)
                 (sort_by_timestamp (station_group sid obs))))
      Float.eps = false /\
    In p (combine (sort_by_timestamp (station_group sid obs))
            (z_scores np_mean np_std
               (map (fun o => getattr o v)
                  (sort_by_timestamp (station_group sid obs))))) /\
    is_anomaly threshold (snd p) = true /\
    r = record_of round2 strftime sid
          (sort_by_timestamp (station_group sid obs)) v p.
Proof.
  unfold spec_detect. intros H.
  apply in_flat_map in H as (sid & _ & H).
  unfold spec_station_records in H.
  destruct (_ <? 3)%nat eqn:E; [contradiction|].
  apply Nat.ltb_ge in E. rewrite sort_by_timestamp_length in E.
  apply in_flat_map in H as (v & _ & H).
  unfold spec_variable_records in H.
  destruct (Float.ltb _ Float.eps) eqn:E1; [contradiction|].
  apply in_map_iff in H as (p & <- & H).
  apply filter_In in H as [Hp Ha].
  exists sid, v, p. auto.
Qed.

End Provenance.

(** C9, as amended.  The three timestamps of every record are the
    formatted timestamps [lo <= ts <= hi], where [ts] is the timestamp
    of an observation of the record's station and [lo] and [hi] are the
    least and the greatest timestamp of that station's group; and when
    formatting keeps the order of the timestamps of that group, the
    strings of the record are ordered as well:
    [time_start <= anomaly_timestamp <= time_end]. *)
Theorem anomaly_within_time_span np_mean np_std round2 strftime
  obs threshold recs r :
  detect_temporal_anomalies np_mean np_std round2 strftime obs threshold
  = Return recs ->
  In r recs ->
  let group := station_group (AnomalyResult.station_id r) obs in
  (exists lo ts hi,
     strftime lo = Return (AnomalyResult.time_start r) /\
     strftime ts = Return (AnomalyResult.anomaly_timestamp r) /\
     strftime hi = Return (AnomalyResult.time_end r) /\
     lo <= ts <= hi /\
     (exists o, In o group /\ timestamp o = ts) /\
     (exists o, In o group /\ timestamp o = lo) /\
     (exists o, In o group /\ timestamp o = hi) /\
     (forall o, In o group -> lo <= timestamp o <= hi)) /\
  (order_preserving strftime (map timestamp group) = true ->
   within_time_span r = true).
Proof.
  intros H Hr group.
  assert (Hspan : exists lo ts hi,
     strftime lo = Return (AnomalyResult.time_start r) /\
     strftime ts = Return (AnomalyResult.anomaly_timestamp r) /\
     strftime hi = Return (AnomalyResult.time_end r) /\
     lo <= ts <= hi /\
     (exists o, In o group /\ timestamp o = ts) /\
     (exists o, In o group /\ timestamp o = lo) /\
     (exists o, In o group /\ timestamp o = hi) /\
     (forall o, In o group -> lo <= timestamp o <= hi)).
  { pose proof (detect_Return_spec _ _ _ _ _ _ _ H) as Hspec.
    rewrite Hspec in Hr.
    apply spec_detect_In in Hr as (sid & v & p & Hlen & E1 & Hp & Ha & ->).
    subst group. cbn [record_of AnomalyResult.station_id
      AnomalyResult.time_start AnomalyResult.time_end
      AnomalyResult.anomaly_timestamp].
    set (sorted := sort_by_timestamp (station_group sid obs)) in *.
    assert (Hin : In sid (stations obs)).
    { apply stations_In.
      destruct (station_group sid obs); [simpl in Hlen; lia|]. discriminate. }
    destruct (detect_station_returns _ _ _ _ _ _ _ _ H Hin) as (rs & Hrs).
    assert (E : (List.length sorted <? 3)%nat = false).
    { apply Nat.ltb_ge. unfold sorted. now rewrite sort_by_timestamp_length. }
    destruct (station_result_formats _ _ _ _ _ _ _ _ Hrs E)
      as (ts & te & Hts & Hte & Hv).
    fold sorted in Hts, Hte, Hv.
    destruct (Hv v) as (rv & Hrv).
    destruct (variable_result_formats _ _ _ _ _ _ _ _ _ _ _ _ Hrv E1 Hp Ha)
      as (s & Hs).
    assert (Hfst : In (fst p) sorted).
    { destruct p as [o z]. now apply in_combine_l in Hp. }
    assert (Hgroup : forall o, In o sorted <-> In o (station_group sid obs))
      by (intros; apply sort_by_timestamp_In).
    pose proof (sorted_nonempty _ E) as Hne.
    exists (min_timestamp sorted), (timestamp (fst p)), (max_timestamp sorted).
    rewrite (formatted_Return _ _ _ Hts), (formatted_Return _ _ _ Hte),
      (formatted_Return _ _ _ Hs).
    repeat split; try assumption.
    - now apply min_timestamp_le.
    - now apply max_timestamp_ge.
    - exists (fst p). split; [now apply Hgroup|reflexivity].
    - destruct (min_timestamp_In _ Hne) as (o & Ho & Eo).
      exists o. split; [now apply Hgroup|assumption].
    - destruct (max_timestamp_In _ Hne) as (o & Ho & Eo).
      exists o. split; [now apply Hgroup|assumption].
    - apply min_timestamp_le. now apply Hgroup.
    - apply max_timestamp_ge. now apply Hgroup. }
  split; [exact Hspan|].
  intros Hord.
  destruct Hspan as (lo & ts & hi & Hlo & Hts & Hhi & [Hle1 Hle2]
                     & (o & Ho & Eo) & (ol & Hol & Eol) & (oh & Hoh & Eoh) & _).
  assert (Hpair : forall o1 o2 s1 s2,
             In o1 group -> In o2 group ->
             timestamp o1 <= timestamp o2 ->
             strftime (timestamp o1) = Return s1 ->
             strftime (timestamp o2) = Return s2 ->
             String.leb s1 s2 = true).
  { intros o1 o2 s1 s2 H1 H2 Hle E1 E2.
    unfold order_preserving in Hord.
    rewrite forallb_forall in Hord.
    specialize (Hord (timestamp o1) (in_map timestamp _ _ H1)).
    rewrite forallb_forall in Hord.
    specialize (Hord (timestamp o2) (in_map timestamp _ _ H2)).
    rewrite E1, E2 in Hord. apply Z.leb_le in Hle. now rewrite Hle in Hord. }
  unfold within_time_span. apply andb_true_intro. split.
  - apply (Hpair ol o); try assumption; try lia; congruence.
  - apply (Hpair o oh); try assumption; try lia; congruence.
Qed.

Lemma anomaly_within_time_span_witness :
  Reference.detect Sample.station_001 Sample.threshold
  = Return [Sample.anomaly] /\
  order_preserving Reference.strftime
    (map timestamp (station_group "station_001" Sample.station_001))
  = true /\
  (exists lo ts hi,
     Reference.strftime lo = Return "2024-10-22 07:00:00" /\
     Reference.strftime ts = Return "2024-10-22 07:50:00" /\
     Reference.strftime hi = Return "2024-10-22 08:30:00" /\
     lo <= ts <= hi) /\
  within_time_span Sample.anomaly = true.
Proof.
  assert (H : Reference.detect Sample.station_001 Sample.threshold
              = Return [Sample.anomaly]) by (vm_compute; reflexivity).
  assert (Hord : order_preserving Reference.strftime
                   (map timestamp
                      (station_group "station_001" Sample.station_001))
                 = true) by (vm_compute; reflexivity).
  split; [exact H|]. split; [exact Hord|].
  destruct (anomaly_within_time_span _ _ _ _ _ _ _ Sample.anomaly H
              (or_introl eq_refl))
    as ((lo & ts & hi & Hlo & Hts & Hhi & Hle & _) & Hstr).
  split; [exists lo, ts, hi; auto|].
  exact (Hstr Hord).
Defined.

(** C9, as stated, fails where local time repeats an hour.  On a
    server in the time zone of New York the ten observations of
    [Eastern.observations] give one record, for the reading taken at
    01:59:59 daylight saving time; the last observation of the station
    is taken half an hour later, at 01:30:00 standard time, so the
    record's [anomaly_timestamp] is greater than its [time_end]. *)
Lemma fall_back_anomaly_after_time_end :
  Eastern.detect Eastern.observations Sample.threshold
  = Return [Eastern.anomaly] /\
  AnomalyResult.anomaly_timestamp Eastern.anomaly = "2024-11-03 01:59:59" /\
  AnomalyResult.time_end Eastern.anomaly = "2024-11-03 01:30:00" /\
  String.leb (AnomalyResult.anomaly_timestamp Eastern.anomaly)
    (AnomalyResult.time_end Eastern.anomaly) = false /\
  within_time_span Eastern.anomaly = false.
Proof. repeat split; vm_compute; reflexivity. Qed.

(** ** The order of the output *)

(** C7.  The output is the concatenation, never sorted again, of the
    records of the stations in the order in which each station first
    appears in the input; within a station, of the variables in the
    order temperature, humidity, wind speed, pressure, rainfall; within
    a variable, of the anomalous observations in the order of the
    group sorted by timestamp, where the sort is ascending and stable
    (observations with equal timestamps keep their arrival order). *)
Theorem output_order np_mean np_std round2 strftime obs threshold recs :
  detect_temporal_anomalies np_mean np_std round2 strftime obs threshold
  = Return recs ->
  recs =
    flat_map
      (fun sid =>
         let sorted := sort_by_timestamp (station_group sid obs) in
         if (List.length sorted <? 3)%nat then []
         else
           flat_map
             (fun v =>
                let values := map (fun o => getattr o v) sorted in
                if Float.ltb (np_std values) Float.eps then []
                else
                  map (record_of round2 strftime sid sorted v)
                    (filter (fun p => is_anomaly threshold (snd p))
                       (combine sorted (z_scores np_mean np_std values))))
             [TempOut; OutHum; WindSpeed; Bar; Rain])
      (first_seen (map station_id obs)) /\
  forall sid,
    let group := station_group sid obs in
    StronglySorted ts_le (sort_by_timestamp group) /\
    Permutation (sort_by_timestamp group) group /\
    forall k,
      filter (fun o => timestamp o =? k) (sort_by_timestamp group) =
      filter (fun o => timestamp o =? k) group.
Proof.
  intros H. split.
  - now apply detect_Return_spec in H.
  - intros sid group. split; [apply sort_by_timestamp_sorted|].
    split; [apply sort_by_timestamp_perm|].
    intros k. apply sort_by_timestamp_stable.
Qed.

Lemma output_order_witness :
  Reference.detect Sample.two_stations Sample.threshold
  = Return [Sample.anomaly] /\
  first_seen (map station_id Sample.two_stations)
  = ["station_002"; "station_001"] /\
  StronglySorted ts_le
    (sort_by_timestamp (station_group "station_001" Sample.two_stations)).
Proof.
  assert (H : Reference.detect Sample.two_stations Sample.threshold
              = Return [Sample.anomaly]) by (vm_compute; reflexivity).
  split; [exact H|]. split; [vm_compute; reflexivity|].
  exact (proj1 (proj2 (output_order _ _ _ _ _ _ _ H) "station_001")).
Defined.

(** ** The order of arrival *)

Lemma filter_perm {B : Type} (p : B -> bool) l l' :
  Permutation l l' -> Permutation (filter p l) (filter p l').
Proof.
  induction 1 as [|x l l' _ IH|x y l|l l' l'' _ IH1 _ IH2]; simpl.
  - constructor.
  - destruct (p x); [now constructor|assumption].
  - destruct (p x), (p y); try reflexivity. apply perm_swap.
  - now transitivity (filter p l').
Qed.

Lemma concat_perm {B : Type} (ys zs : list (list B)) :
  Permutation ys zs -> Permutation (List.concat ys) (List.concat zs).
Proof.
  induction 1 as [|x l l' _ IH|x y l|l l' l'' _ IH1 _ IH2]; simpl.
  - constructor.
  - now apply Permutation_app_head.
  - rewrite !app_assoc. apply Permutation_app_tail, Permutation_app_comm.
  - now transitivity (List.concat l').
Qed.

Lemma mapM_perm {A B : Type} (f : A -> result B) l l' ys :
  Permutation l l' -> mapM f l = Return ys ->
  exists ys', mapM f l' = Return ys' /\ Permutation ys ys'.
Proof.
  intros P; revert ys.
  induction P as [|x l l' _ IH|x y l|l l' l'' _ IH1 _ IH2]; simpl; intros ys H.
  - eauto.
  - apply bind_Return_inv in H as (y & Hy & H).
    apply bind_Return_inv in H as (ys0 & Hys & H). injection H as <-.
    destruct (IH _ Hys) as (ys' & -> & Hp). rewrite Hy. simpl.
    eexists; split; [reflexivity|now constructor].
  - apply bind_Return_inv in H as (b & Hb & H).
    apply bind_Return_inv in H as (ys0 & H0 & H). injection H as <-.
    apply bind_Return_inv in H0 as (a & Ha & H0).
    apply bind_Return_inv in H0 as (ys1 & Hys & H0). injection H0 as <-.
    rewrite Ha, Hb, Hys. simpl.
    eexists; split; [reflexivity|apply perm_swap].
  - destruct (IH1 _ H) as (ys' & H' & Hp).
    destruct (IH2 _ H') as (ys'' & H'' & Hp').
    exists ys''. split; [assumption|now transitivity ys'].
Qed.

Lemma stations_perm obs obs' :
  Permutation obs obs' -> Permutation (stations obs) (stations obs').
Proof.
  intros P. apply NoDup_Permutation; try apply first_seen_NoDup.
  intros sid. unfold stations. rewrite !first_seen_In.
  split; apply Permutation_in; [|symmetry]; now apply Permutation_map.
Qed.

(** When ties are equal, the sorted group of a station does not depend
    on the order of arrival. *)
Lemma sorted_group_perm obs obs' sid :
  Permutation obs obs' -> ties_are_equal obs ->
  sort_by_timestamp (station_group sid obs') =
  sort_by_timestamp (station_group sid obs).
Proof.
  intros P Hties. symmetry.
  apply sorted_perm_unique; try apply sort_by_timestamp_sorted.
  - rewrite !sort_by_timestamp_perm. now apply filter_perm.
  - intros a b Ha Hb E.
    apply sort_by_timestamp_In, filter_In in Ha as [Ha Esa].
    apply sort_by_timestamp_In, filter_In in Hb as [Hb Esb].
    apply String.eqb_eq in Esa, Esb. apply Hties; congruence.
Qed.

(** C5, as amended.  When no two distinct observations of one station
    carry the same timestamp, the detector returns on a permutation of
    the observations whenever it returns on the observations, and with
    the same multiset of records. *)
Theorem arrival_order_irrelevant np_mean np_std round2 strftime
  obs obs' threshold recs :
  Permutation obs obs' ->
  ties_are_equal obs ->
  detect_temporal_anomalies np_mean np_std round2 strftime obs threshold
  = Return recs ->
  exists recs',
    detect_temporal_anomalies np_mean np_std round2 strftime obs' threshold
    = Return recs' /\
    Permutation recs recs'.
Proof.
  intros P Hties. rewrite !detect_mapM. intros H.
  apply bind_Return_inv in H as (rss & Hrss & H). injection H as <-.
  destruct (mapM_perm _ _ _ _ (stations_perm _ _ P) Hrss)
    as (rss' & Hrss' & Hp).
  assert (Hsame : mapM (station_result np_mean np_std round2 strftime
                          threshold obs') (stations obs')
                  = Return rss').
  { rewrite <- Hrss'. apply mapM_ext_in. intros sid _.
    unfold station_result, check_station.
    now rewrite (sorted_group_perm obs obs' sid P Hties). }
  rewrite Hsame. simpl. eexists. split; [reflexivity|].
  now apply concat_perm.
Qed.

Lemma arrival_order_irrelevant_witness :
  Permutation Sample.station_001 (rev Sample.station_001) /\
  Reference.detect Sample.station_001 Sample.threshold
  = Return [Sample.anomaly] /\
  exists recs',
    Reference.detect (rev Sample.station_001) Sample.threshold
    = Return recs' /\
    Permutation [Sample.anomaly] recs'.
Proof.
  assert (P : Permutation Sample.station_001 (rev Sample.station_001))
    by apply Permutation_rev.
  assert (H : Reference.detect Sample.station_001 Sample.threshold
              = Return [Sample.anomaly]) by (vm_compute; reflexivity).
  assert (Hties : ties_are_equal Sample.station_001).
  { intros o1 o2 H1 H2 _ E. unfold Sample.station_001 in H1, H2.
    simpl in H1, H2.
    repeat (destruct H1 as [H1|H1]; [subst o1|]); try contradiction;
      repeat (destruct H2 as [H2|H2]; [subst o2|]); try contradiction;
      reflexivity || discriminate E. }
  split; [exact P|]. split; [exact H|].
  exact (arrival_order_irrelevant _ _ _ _ _ _ _ _ P Hties H).
Defined.

(** C5, as stated, fails: the three readings of [Tie.arrival] share
    their timestamp; in arrival order the first one is reported at
    the threshold [Tie.threshold], in the reverse order none is. *)
Lemma tied_timestamps_order_matters :
  Permutation Tie.arrival (rev Tie.arrival) /\
  Reference.detect Tie.arrival Tie.threshold = Return [Tie.anomaly] /\
  Reference.detect (rev Tie.arrival) Tie.threshold = Return [] /\
  ~ Permutation [Tie.anomaly] [].
Proof.
  split; [apply Permutation_rev|].
  split; [vm_compute; reflexivity|].
  split; [vm_compute; reflexivity|].
  intros P. symmetry in P. apply Permutation_nil in P. discriminate P.
Qed.

(** ** The bound on a Z-score *)

(** The arithmetic of floats rounds every result to the nearest
    float.  The facts below bound one rounding, from the definitions
    of [SpecFloat], and then follow the seven roundings that lie
    between a deviation and its Z-score. *)

Section RoundingFacts.

Import Rounding.

(** *** The digits of a mantissa *)
Lemma digits2_pos_bounds p :
  2 ^ (Zpos (digits2_pos p) - 1) <= Zpos p < 2 ^ Zpos (digits2_pos p).
Proof.
  induction p as [p IH|p IH|]; cbn [digits2_pos].
  - rewrite Pos2Z.inj_succ.
    replace (Z.succ (Zpos (digits2_pos p)) - 1) with (Zpos (digits2_pos p)) by lia.
    rewrite Z.pow_succ_r by lia.
    assert (Zpos (digits2_pos p) = Z.succ (Zpos (digits2_pos p) - 1)) as E by lia.
    rewrite E at 1. rewrite Z.pow_succ_r by lia. lia.
  - rewrite Pos2Z.inj_succ.
    replace (Z.succ (Zpos (digits2_pos p)) - 1) with (Zpos (digits2_pos p)) by lia.
    rewrite Z.pow_succ_r by lia.
    assert (Zpos (digits2_pos p) = Z.succ (Zpos (digits2_pos p) - 1)) as E by lia.
    rewrite E at 1. rewrite Z.pow_succ_r by lia. lia.
  - simpl. lia.
Qed.

Lemma Zdigits2_nonneg m : 0 <= Zdigits2 m.
Proof. destruct m; simpl; lia. Qed.

Lemma Zdigits2_bounds m :
  0 < m -> 2 ^ (Zdigits2 m - 1) <= m < 2 ^ Zdigits2 m.
Proof.
  destruct m as [|p|p]; try lia. intros _. apply digits2_pos_bounds.
Qed.

(** The number of digits is determined by the binade. *)
Lemma Zdigits2_unique m d :
  2 ^ (d - 1) <= m < 2 ^ d -> 0 < d -> Zdigits2 m = d.
Proof.
  intros [Hlo Hhi] Hd.
  assert (0 < m).
  { assert (0 < 2 ^ (d - 1)) by (apply Z.pow_pos_nonneg; lia). lia. }
  pose proof (Zdigits2_bounds m H) as [Hlo' Hhi'].
  pose proof (Zdigits2_nonneg m).
  destruct (Z.lt_trichotomy (Zdigits2 m) d) as [Hlt|[E|Hgt]]; [|exact E|].
  - exfalso. assert (2 ^ Zdigits2 m <= 2 ^ (d - 1)) by (apply Z.pow_le_mono_r; lia). lia.
  - exfalso. assert (2 ^ d <= 2 ^ (Zdigits2 m - 1)) by (apply Z.pow_le_mono_r; lia). lia.
Qed.

Lemma Zdigits2_le m d : 0 <= m -> 0 <= d -> m < 2 ^ d -> Zdigits2 m <= d.
Proof.
  intros Hm Hd Hlt. destruct (Z.eq_dec m 0) as [->|Hne]; [simpl; lia|].
  pose proof (Zdigits2_bounds m ltac:(lia)) as [Hlo _].
  destruct (Z_le_gt_dec (Zdigits2 m) d) as [|Hgt]; [assumption|exfalso].
  assert (2 ^ d <= 2 ^ (Zdigits2 m - 1)) by (apply Z.pow_le_mono_r; lia). lia.
Qed.

Lemma Zdigits2_ge m d : 0 < d -> 2 ^ (d - 1) <= m -> d <= Zdigits2 m.
Proof.
  intros Hd Hle.
  assert (0 < m).
  { assert (0 < 2 ^ (d - 1)) by (apply Z.pow_pos_nonneg; lia). lia. }
  pose proof (Zdigits2_bounds m H) as [_ Hhi].
  pose proof (Zdigits2_nonneg m).
  destruct (Z_le_gt_dec d (Zdigits2 m)) as [|Hgt]; [assumption|exfalso].
  assert (2 ^ Zdigits2 m <= 2 ^ (d - 1)) by (apply Z.pow_le_mono_r; lia). lia.
Qed.

(** *** Shifting a mantissa right *)
Lemma iter_pos_comm {A} (f : A -> A) p x :
  SpecFloat.iter_pos f p (f x) = f (SpecFloat.iter_pos f p x).
Proof.
  revert x. induction p as [p IH|p IH|]; intros x; cbn [SpecFloat.iter_pos].
  - now rewrite !IH.
  - now rewrite !IH.
  - reflexivity.
Qed.

Lemma iter_pos_succ {A} (f : A -> A) p x :
  SpecFloat.iter_pos f (Pos.succ p) x = f (SpecFloat.iter_pos f p x).
Proof.
  revert x. induction p as [p IH|p IH|]; intros x; cbn [SpecFloat.iter_pos Pos.succ].
  - rewrite !IH. now rewrite !iter_pos_comm.
  - now rewrite !iter_pos_comm.
  - reflexivity.
Qed.

Lemma shr_1_m mrs : 0 <= shr_m mrs -> shr_m (shr_1 mrs) = shr_m mrs / 2.
Proof.
  destruct mrs as [m r s]. cbn [shr_m]. intros Hm.
  destruct m as [|[p|p|]|p]; cbn [shr_1 shr_m]; try lia.
  all: try reflexivity.
  - apply Z.div_unique with (r := 1); lia.
  - apply Z.div_unique with (r := 0); lia.
Qed.

Lemma iter_shr_1_m p mrs :
  0 <= shr_m mrs ->
  shr_m (SpecFloat.iter_pos shr_1 p mrs) = shr_m mrs / 2 ^ Zpos p.
Proof.
  revert mrs. induction p as [|p IH] using Pos.peano_ind; intros mrs Hm.
  - cbn [SpecFloat.iter_pos]. rewrite shr_1_m by assumption. reflexivity.
  - rewrite iter_pos_succ, shr_1_m.
    + rewrite IH by assumption. rewrite Pos2Z.inj_succ, Z.pow_succ_r by lia.
      rewrite Z.div_div by (try lia; apply Z.pow_pos_nonneg; lia).
      f_equal. lia.
    + rewrite IH by assumption. apply Z.div_pos; [assumption|].
      apply Z.pow_pos_nonneg; lia.
Qed.

Lemma shr_m_of_loc m l : shr_m (shr_record_of_loc m l) = m.
Proof. destruct l as [|[]]; reflexivity. Qed.

Lemma shr_fexp_spec m e l :
  0 <= m -> e <= cexp m e ->
  exists mrs, shr_fexp Float.prec Float.emax m e l = (mrs, cexp m e) /\
              shr_m mrs = m / 2 ^ (cexp m e - e).
Proof.
  intros Hm Hle. unfold shr_fexp, shr. fold (cexp m e).
  destruct (cexp m e - e) as [|p|p] eqn:E; try lia.
  - exists (shr_record_of_loc m l). replace (cexp m e) with e by lia.
    split; [reflexivity|]. rewrite shr_m_of_loc. simpl. now rewrite Z.div_1_r.
  - eexists. split.
    + f_equal. lia.
    + rewrite iter_shr_1_m; rewrite shr_m_of_loc; [reflexivity|assumption].
Qed.

Lemma Zdigits2_div m k :
  0 < m -> 0 <= k -> k < Zdigits2 m -> Zdigits2 (m / 2 ^ k) = Zdigits2 m - k.
Proof.
  intros Hm Hk Hlt. pose proof (Zdigits2_bounds m Hm) as [Hlo Hhi].
  assert (Hp : 0 < 2 ^ k) by (apply Z.pow_pos_nonneg; lia).
  apply Zdigits2_unique; [|lia]. split.
  - apply Z.div_le_lower_bound; [assumption|].
    rewrite <- Z.pow_add_r by lia. replace (k + (Zdigits2 m - k - 1)) with (Zdigits2 m - 1) by lia.
    assumption.
  - apply Z.div_lt_upper_bound; [assumption|].
    rewrite <- Z.pow_add_r by lia. replace (k + (Zdigits2 m - k)) with (Zdigits2 m) by lia.
    assumption.
Qed.

Lemma Zdigits2_div_small m k :
  0 <= m -> 0 <= k -> Zdigits2 m <= k -> m / 2 ^ k = 0.
Proof.
  intros Hm Hk Hle. destruct (Z.eq_dec m 0) as [->|Hne]; [apply Z.div_0_l; apply Z.pow_nonzero; lia|].
  pose proof (Zdigits2_bounds m ltac:(lia)) as [_ Hhi].
  apply Z.div_small. split; [assumption|].
  assert (2 ^ Zdigits2 m <= 2 ^ k) by (apply Z.pow_le_mono_r; lia). lia.
Qed.

Lemma emin_value : emin = -1074.
Proof. reflexivity. Qed.

Lemma cexp_eq m e : cexp m e = Z.max (Zdigits2 m + e - Float.prec) emin.
Proof. reflexivity. Qed.

Lemma round_nearest_even_cases m l :
  round_nearest_even m l = m \/ round_nearest_even m l = m + 1.
Proof.
  destruct l as [|[]]; cbn [round_nearest_even]; auto.
  destruct (Z.even m); auto.
Qed.

(** What rounding does to a mantissa [mx] of exponent [ex], whatever
    the location of the exact value in its interval. *)
Lemma binary_round_aux_spec sx mx ex lx :
  0 <= mx -> ex <= cexp mx ex ->
  let e1 := cexp mx ex in
  let m1 := mx / 2 ^ (e1 - ex) in
  let r := binary_round_aux Float.prec Float.emax sx mx ex lx in
  0 <= m1 < 2 ^ Float.prec /\ emin <= e1 /\
  (e1 = emin \/ 2 ^ (Float.prec - 1) <= m1) /\
  exists m2, (m2 = m1 \/ m2 = m1 + 1) /\
    ((m2 = 0 /\ r = S754_zero sx) \/
     (exists m3 e3,
        r = S754_finite sx m3 e3 /\ bounded Float.prec Float.emax m3 e3 = true /\
        e1 <= e3 /\ Zpos m3 * 2 ^ (e3 - e1) = m2) \/
     (r = S754_infinity sx /\ Float.emax - Float.prec <= e1 /\
      2 ^ (Float.prec - 1) <= m2 /\ (e1 = Float.emax - Float.prec -> m2 = 2 ^ Float.prec))).
Proof.
  intros Hmx Hex e1 m1 r.
  assert (Hp : 0 < 2 ^ (e1 - ex)) by (apply Z.pow_pos_nonneg; unfold e1; lia).
  assert (Hd1 : Zdigits2 mx + ex - Float.prec <= e1 /\ emin <= e1)
    by (unfold e1; rewrite cexp_eq; lia).
  assert (Hm1 : 0 <= m1 < 2 ^ Float.prec).
  { split; [apply Z.div_pos; lia|].
    destruct (Z.eq_dec mx 0) as [E|Hne].
    - unfold m1. rewrite E, Z.div_0_l by lia. reflexivity.
    - pose proof (Zdigits2_bounds mx ltac:(lia)) as [_ Hhi].
      apply Z.div_lt_upper_bound; [assumption|].
      rewrite <- Z.pow_add_r by (unfold Float.prec; lia).
      assert (2 ^ Zdigits2 mx <= 2 ^ (e1 - ex + Float.prec))
        by (apply Z.pow_le_mono_r; lia).
      lia. }
  assert (Hnorm : e1 = emin \/ 2 ^ (Float.prec - 1) <= m1).
  { destruct (Z.eq_dec e1 emin) as [E|Hne]; [now left|right].
    assert (E1 : e1 = Zdigits2 mx + ex - Float.prec)
      by (unfold e1 in *; rewrite cexp_eq in *; lia).
    assert (0 < mx).
    { destruct (Z.eq_dec mx 0) as [E0|]; [|lia].
      rewrite E0 in E1. simpl in E1. unfold Float.prec in E1. lia. }
    pose proof (Zdigits2_bounds mx H) as [Hlo _].
    apply Z.div_le_lower_bound; [assumption|].
    rewrite <- Z.pow_add_r by (unfold Float.prec; lia).
    replace (e1 - ex + (Float.prec - 1)) with (Zdigits2 mx - 1) by lia.
    assumption. }
  split; [exact Hm1|]. split; [apply Hd1|]. split; [exact Hnorm|].
  unfold r, binary_round_aux.
  destruct (shr_fexp_spec mx ex lx Hmx Hex) as (mrs & -> & Hmrs).
  fold e1 in Hmrs |- *. fold m1 in Hmrs. rewrite Hmrs.
  set (m2 := round_nearest_even m1 (loc_of_shr_record mrs)).
  assert (Hm2 : m2 = m1 \/ m2 = m1 + 1) by apply round_nearest_even_cases.
  exists m2. split; [exact Hm2|].
  assert (Hm2' : 0 <= m2 <= 2 ^ Float.prec) by lia.
  assert (Hc2 : e1 <= cexp m2 e1).
  { rewrite cexp_eq. destruct Hnorm as [E|Hlo]; [lia|].
    assert (Float.prec <= Zdigits2 m2) by (apply Zdigits2_ge; [unfold Float.prec|]; lia).
    lia. }
  destruct (shr_fexp_spec m2 e1 loc_Exact (proj1 Hm2') Hc2) as (mrs2 & -> & Hmrs2).
  rewrite Hmrs2.
  destruct (Z.eq_dec m2 (2 ^ Float.prec)) as [Etop|Hlt].
  - (* the mantissa has one digit too many *)
    assert (Hd : Zdigits2 m2 = Float.prec + 1).
    { apply Zdigits2_unique; [|unfold Float.prec; lia].
      rewrite Etop. replace (Float.prec + 1 - 1) with Float.prec by lia.
      split; [lia|]. apply Z.pow_lt_mono_r; unfold Float.prec; lia. }
    assert (Ec : cexp m2 e1 = e1 + 1) by (rewrite cexp_eq, Hd; lia).
    rewrite Ec. replace (e1 + 1 - e1) with 1 by lia.
    rewrite Etop. change (2 ^ Float.prec / 2 ^ 1) with (Zpos (2 ^ 52)).
    change (2 ^ Float.prec) with (Zpos (2 ^ 53)) in Etop.
    destruct (e1 + 1 <=? Float.emax - Float.prec) eqn:Eb.
    + right; left. exists (2 ^ 52)%positive, (e1 + 1).
      split; [reflexivity|]. split.
      * unfold bounded, canonical_mantissa. rewrite Eb, andb_true_r.
        apply Z.eqb_eq. change (Zpos (digits2_pos (2 ^ 52))) with 53.
        unfold fexp. fold emin. unfold Float.prec in *. lia.
      * split; [lia|]. replace (e1 + 1 - e1) with 1 by lia.
        reflexivity.
    + right; right. apply Z.leb_gt in Eb.
      split; [reflexivity|]. split; [lia|]. split.
      * change (2 ^ (Float.prec - 1)) with (Zpos (2 ^ 52)).
        change (2 ^ Float.prec) with (Zpos (2 ^ 53)). lia.
      * intros _. reflexivity.
  - assert (Hd : Zdigits2 m2 <= Float.prec)
      by (apply Zdigits2_le; [lia|unfold Float.prec; lia|lia]).
    assert (Ec : cexp m2 e1 = e1).
    { rewrite cexp_eq in *. lia. }
    rewrite Ec. replace (e1 - e1) with 0 by lia.
    change (2 ^ 0) with 1. rewrite Z.div_1_r.
    destruct m2 as [|p|p] eqn:Em2; [left; auto| |lia].
    destruct (e1 <=? Float.emax - Float.prec) eqn:Eb.
    + right; left. exists p, e1. split; [reflexivity|]. split.
      * unfold bounded, canonical_mantissa. rewrite Eb, andb_true_r.
        apply Z.eqb_eq. exact Ec.
      * split; [lia|]. replace (e1 - e1) with 0 by lia. simpl. lia.
    + right; right. apply Z.leb_gt in Eb.
      split; [reflexivity|]. split; [lia|]. split.
      * destruct Hnorm as [E|Hlo]; [|lia].
        rewrite E in Eb. unfold emin, SpecFloat.emin, Float.emax, Float.prec in Eb. lia.
      * intros E. lia.
Qed.

Lemma pow2_pos e : (0 < pow2 e)%Q.
Proof. apply Qpower_0_lt. reflexivity. Qed.

Lemma pow2_add a b : (pow2 (a + b) == pow2 a * pow2 b)%Q.
Proof. apply Qpower_plus. discriminate. Qed.

Lemma pow2_Z k : 0 <= k -> (inject_Z (2 ^ k) == pow2 k)%Q.
Proof. intros Hk. now rewrite Zpower_Qpower. Qed.

Lemma pow2_le a b : a <= b -> (pow2 a <= pow2 b)%Q.
Proof. intros H. apply Qpower_le_compat_l; [assumption|discriminate]. Qed.

Lemma pow2_lt a b : a < b -> (pow2 a < pow2 b)%Q.
Proof. intros H. apply Qpower_lt_compat_l; [assumption|reflexivity]. Qed.

(** A float value on a lower exponent. *)
Lemma F2Q_shift m e k :
  k <= e -> (F2Q m e == F2Q (m * 2 ^ (e - k)) k)%Q.
Proof.
  intros Hk. unfold F2Q.
  replace e with ((e - k) + k) at 1 by lia.
  rewrite pow2_add, inject_Z_mult, pow2_Z by lia. ring.
Qed.

Lemma F2Q_le_same m m' e : m <= m' <-> (F2Q m e <= F2Q m' e)%Q.
Proof.
  unfold F2Q. pose proof (pow2_pos e). split; intros Hle.
  - apply Qmult_le_compat_r; [now rewrite <- Zle_Qle|]. lra.
  - apply Qmult_le_r in Hle; [now rewrite <- Zle_Qle in Hle|assumption].
Qed.

Lemma F2Q_lt_same m m' e : m < m' <-> (F2Q m e < F2Q m' e)%Q.
Proof.
  unfold F2Q. pose proof (pow2_pos e). split; intros Hlt.
  - apply Qmult_lt_compat_r; [assumption|now rewrite <- Zlt_Qlt].
  - apply Qmult_lt_r in Hlt; [now rewrite <- Zlt_Qlt in Hlt|assumption].
Qed.

Lemma F2Q_nonneg m e : 0 <= m -> (0 <= F2Q m e)%Q.
Proof.
  intros Hm. unfold F2Q. apply Qmult_le_0_compat.
  - change 0%Q with (inject_Z 0). now rewrite <- Zle_Qle.
  - pose proof (pow2_pos e). lra.
Qed.

Lemma F2Q_pos m e : 0 < m -> (0 < F2Q m e)%Q.
Proof.
  intros Hm. unfold F2Q. apply Qmult_lt_0_compat.
  - change 0%Q with (inject_Z 0). now rewrite <- Zlt_Qlt.
  - apply pow2_pos.
Qed.

Lemma F2Q_add m m' e : (F2Q (m + m') e == F2Q m e + F2Q m' e)%Q.
Proof. unfold F2Q. rewrite inject_Z_plus. ring. Qed.

Lemma F2Q_one e : (F2Q 1 e == pow2 e)%Q.
Proof. unfold F2Q. change (inject_Z 1) with 1%Q. ring. Qed.

Lemma F2Q_pow m e : 0 <= m -> (F2Q (2 ^ m) e == pow2 (m + e))%Q.
Proof. intros Hm. unfold F2Q. now rewrite pow2_Z, pow2_add. Qed.

(** Truncating a mantissa to a higher exponent. *)
Lemma F2Q_div_lower m e e1 :
  e <= e1 -> (F2Q (m / 2 ^ (e1 - e)) e1 <= F2Q m e)%Q.
Proof.
  intros He. rewrite (F2Q_shift _ e1 e He). apply F2Q_le_same.
  assert (0 < 2 ^ (e1 - e)) by (apply Z.pow_pos_nonneg; lia).
  rewrite Z.mul_comm. apply Z.mul_div_le. assumption.
Qed.

Lemma F2Q_div_upper m e e1 :
  e <= e1 -> (F2Q (m + 1) e <= F2Q (m / 2 ^ (e1 - e) + 1) e1)%Q.
Proof.
  intros He. rewrite (F2Q_shift _ e1 e He). apply F2Q_le_same.
  assert (Hp : 0 < 2 ^ (e1 - e)) by (apply Z.pow_pos_nonneg; lia).
  pose proof (Z.mul_succ_div_gt m _ Hp). lia.
Qed.

(** The result of rounding lies on the grid of the canonical exponent,
    at or next to the truncated mantissa. *)
Lemma binary_round_aux_bounds sx mx ex lx :
  0 <= mx -> ex <= cexp mx ex ->
  exists m1 e1,
    0 <= m1 < 2 ^ Float.prec /\ emin <= e1 /\ ex <= e1 /\
    (e1 = emin \/ 2 ^ (Float.prec - 1) <= m1) /\
    m1 = mx / 2 ^ (e1 - ex) /\
    let r := binary_round_aux Float.prec Float.emax sx mx ex lx in
    ((r = S754_zero sx /\ m1 = 0) \/
     (exists m e,
        r = S754_finite sx m e /\ bounded Float.prec Float.emax m e = true /\
        (F2Q m1 e1 <= F2Q (Zpos m) e <= F2Q (m1 + 1) e1)%Q) \/
     (r = S754_infinity sx /\ (pow2 Float.emax <= F2Q (m1 + 1) e1)%Q)).
Proof.
  intros Hmx Hex.
  destruct (binary_round_aux_spec sx mx ex lx Hmx Hex)
    as (Hm1 & He1 & Hnorm & m2 & Hm2 & Hr).
  exists (mx / 2 ^ (cexp mx ex - ex)), (cexp mx ex).
  set (e1 := cexp mx ex) in *. set (m1 := mx / 2 ^ (e1 - ex)) in *.
  repeat (split; [assumption || reflexivity|]).
  cbv zeta.
  destruct Hr as [[E0 Hr]|[(m3 & e3 & Hr & Hb & He3 & Hv)|(Hr & He & Hlo & Htop)]].
  - left. split; [exact Hr|lia].
  - right; left. exists m3, e3. split; [exact Hr|]. split; [exact Hb|].
    rewrite (F2Q_shift (Zpos m3) e3 e1 He3), Hv.
    split; apply F2Q_le_same; lia.
  - right; right. split; [exact Hr|].
    apply Qle_trans with (F2Q m2 e1); [|apply F2Q_le_same; lia].
    destruct (Z.eq_dec e1 (Float.emax - Float.prec)) as [E|Hne].
    + rewrite (Htop E). rewrite F2Q_pow by (unfold Float.prec; lia).
      apply pow2_le. lia.
    + apply Qle_trans with (F2Q (2 ^ (Float.prec - 1)) e1);
        [|apply F2Q_le_same; lia].
      rewrite F2Q_pow by (unfold Float.prec; lia). apply pow2_le. lia.
Qed.

(** The step of the grid is small against a full mantissa, and the
    grid of the least exponent lies below the least normal number. *)
Lemma grid_step m1 e1 :
  0 <= m1 < 2 ^ Float.prec -> emin <= e1 ->
  (e1 = emin \/ 2 ^ (Float.prec - 1) <= m1) ->
  (F2Q (m1 + 1) e1 <= F2Q m1 e1 * (1 + eps))%Q \/
  (F2Q (m1 + 1) e1 <= tiny)%Q.
Proof.
  intros Hm1 He1 Hnorm.
  destruct (Z_lt_le_dec m1 (2 ^ (Float.prec - 1))) as [Hlt|Hge].
  - right. destruct Hnorm as [->|]; [|lia].
    apply Qle_trans with (F2Q (2 ^ (Float.prec - 1)) emin);
      [apply F2Q_le_same; lia|].
    rewrite F2Q_pow by (unfold Float.prec; lia). apply Qle_refl.
  - left. rewrite F2Q_add, F2Q_one.
    assert (pow2 e1 <= F2Q m1 e1 * eps)%Q; [|lra].
    apply Qle_trans with (F2Q (2 ^ (Float.prec - 1)) e1 * eps)%Q.
    + rewrite F2Q_pow by (unfold Float.prec; lia). unfold eps.
      rewrite <- pow2_add. apply pow2_le. unfold Float.prec. lia.
    + apply Qmult_le_compat_r; [apply F2Q_le_same; lia|].
      pose proof (pow2_pos (-52)). unfold eps. lra.
Qed.

Lemma one_plus_eps : (1 < 1 + eps)%Q.
Proof. pose proof (pow2_pos (-52)). unfold eps. lra. Qed.

(** ** Valid floats *)

Lemma bounded_spec m e :
  bounded Float.prec Float.emax m e = true ->
  emin <= e <= Float.emax - Float.prec /\ Zpos m < 2 ^ Float.prec /\
  (e = emin \/ 2 ^ (Float.prec - 1) <= Zpos m) /\ cexp (Zpos m) e = e.
Proof.
  unfold bounded, canonical_mantissa. intros H.
  apply andb_true_iff in H as [Hc Hb].
  apply Z.eqb_eq in Hc. apply Z.leb_le in Hb.
  change (cexp (Zpos m) e = e) in Hc. pose proof Hc as Hc'.
  rewrite cexp_eq in Hc'.
  pose proof (Zdigits2_bounds (Zpos m) ltac:(lia)) as [Hlo Hhi].
  assert (Hd : Zdigits2 (Zpos m) <= Float.prec) by lia.
  split; [lia|]. split.
  - assert (2 ^ Zdigits2 (Zpos m) <= 2 ^ Float.prec)
      by (apply Z.pow_le_mono_r; lia). lia.
  - split; [|exact Hc].
    destruct (Z.eq_dec e emin) as [|Hne]; [now left|right].
    assert (E : Zdigits2 (Zpos m) = Float.prec) by lia.
    rewrite E in Hlo. exact Hlo.
Qed.

(** The order of two valid positive floats is the order of their
    values. *)
Lemma valid_lt_exponent m1 e1 m2 e2 :
  bounded Float.prec Float.emax m1 e1 = true -> bounded Float.prec Float.emax m2 e2 = true ->
  e1 < e2 -> (F2Q (Zpos m1) e1 < F2Q (Zpos m2) e2)%Q.
Proof.
  intros H1 H2 Hlt.
  destruct (bounded_spec _ _ H1) as (He1 & Hm1 & _ & _).
  destruct (bounded_spec _ _ H2) as (He2 & _ & Hn2 & _).
  destruct Hn2 as [E|Hn2]; [lia|].
  apply Qlt_le_trans with (F2Q (2 ^ Float.prec) e1); [now apply F2Q_lt_same|].
  apply Qle_trans with (F2Q (2 ^ (Float.prec - 1)) e2); [|now apply F2Q_le_same].
  rewrite !F2Q_pow by (unfold Float.prec; lia). apply pow2_le. lia.
Qed.

Lemma SFltb_true_value m1 e1 m2 e2 :
  bounded Float.prec Float.emax m1 e1 = true -> bounded Float.prec Float.emax m2 e2 = true ->
  SFltb (S754_finite false m1 e1) (S754_finite false m2 e2) = true ->
  (F2Q (Zpos m1) e1 < F2Q (Zpos m2) e2)%Q.
Proof.
  intros H1 H2. unfold SFltb, SFcompare.
  destruct (Z.compare_spec e1 e2) as [E|Hlt|Hgt]; try discriminate.
  - subst e2. change (Pos.compare_cont Eq m1 m2) with (Pos.compare m1 m2).
    destruct (Pos.compare_spec m1 m2); try discriminate.
    intros _. apply F2Q_lt_same. lia.
  - intros _. now apply valid_lt_exponent.
Qed.

Lemma SFltb_false_value m1 e1 m2 e2 :
  bounded Float.prec Float.emax m1 e1 = true -> bounded Float.prec Float.emax m2 e2 = true ->
  SFltb (S754_finite false m1 e1) (S754_finite false m2 e2) = false ->
  (F2Q (Zpos m2) e2 <= F2Q (Zpos m1) e1)%Q.
Proof.
  intros H1 H2. unfold SFltb, SFcompare.
  destruct (Z.compare_spec e1 e2) as [E|Hlt|Hgt]; try discriminate.
  - subst e2. change (Pos.compare_cont Eq m1 m2) with (Pos.compare m1 m2).
    destruct (Pos.compare_spec m1 m2); try discriminate;
      intros _; apply F2Q_le_same; lia.
  - intros _. apply Qlt_le_weak. now apply valid_lt_exponent.
Qed.

(** ** Rounding, relative to the exact value

    [X] is the value of the truncated mantissa and [X'] that of its
    successor: the exact value lies in between. *)
Lemma round_rel sx mx ex lx :
  0 <= mx -> ex <= cexp mx ex ->
  let X := F2Q mx ex in
  let X' := F2Q (mx + 1) ex in
  let r := binary_round_aux Float.prec Float.emax sx mx ex lx in
  (r = S754_zero sx /\ (X' <= tiny)%Q) \/
  (exists m e,
     r = S754_finite sx m e /\ bounded Float.prec Float.emax m e = true /\
     let V := F2Q (Zpos m) e in
     ((X' <= V * (1 + eps) /\ V <= X * (1 + eps))%Q \/
      (X' <= tiny /\ V <= tiny)%Q)) \/
  (r = S754_infinity sx /\ (pow2 Float.emax <= X * (1 + eps))%Q).
Proof.
  intros Hmx Hex X X' r.
  destruct (binary_round_aux_bounds sx mx ex lx Hmx Hex)
    as (m1 & e1 & Hm1 & He1 & Hee & Hnorm & Em1 & Hr).
  pose proof (F2Q_div_lower mx ex e1 Hee) as Hlo.
  pose proof (F2Q_div_upper mx ex e1 Hee) as Hhi.
  rewrite <- Em1 in Hlo, Hhi. fold X in Hlo. fold X' in Hhi.
  pose proof (grid_step m1 e1 Hm1 He1 Hnorm) as Hstep.
  pose proof one_plus_eps as H1e.
  assert (Hlo0 : (0 <= F2Q m1 e1)%Q) by (apply F2Q_nonneg; lia).
  cbv zeta in Hr.
  destruct Hr as [[Hr E0]|[(m & e & Hr & Hb & Hv1 & Hv2)|[Hr Hinf]]].
  - left. split; [exact Hr|].
    destruct Hstep as [Hs|Hs]; [|lra].
    exfalso. rewrite E0 in Hs. change (0 + 1) with 1 in Hs.
    rewrite F2Q_one in Hs.
    assert (E : (F2Q 0 e1 == 0)%Q) by (unfold F2Q; ring).
    rewrite E in Hs. pose proof (pow2_pos e1). lra.
  - right; left. exists m, e. split; [exact Hr|]. split; [exact Hb|].
    cbv zeta. destruct Hstep as [Hs|Hs].
    + left. split.
      * apply Qle_trans with (F2Q (m1 + 1) e1); [assumption|].
        apply Qle_trans with (F2Q m1 e1 * (1 + eps))%Q; [assumption|].
        apply Qmult_le_compat_r; lra.
      * apply Qle_trans with (F2Q (m1 + 1) e1); [assumption|].
        apply Qle_trans with (F2Q m1 e1 * (1 + eps))%Q; [assumption|].
        apply Qmult_le_compat_r; lra.
    + right. split; lra.
  - right; right. split; [exact Hr|].
    destruct Hstep as [Hs|Hs].
    + apply Qle_trans with (F2Q (m1 + 1) e1); [assumption|].
      apply Qle_trans with (F2Q m1 e1 * (1 + eps))%Q; [assumption|].
      apply Qmult_le_compat_r; lra.
    + exfalso. assert (pow2 (-1022) < pow2 Float.emax)%Q
        by (apply pow2_lt; unfold Float.emax; lia).
      unfold tiny in Hs. lra.
Qed.

(** Rounding does not go below a float that the exact value
    reaches. *)
Lemma round_above sx mx ex lx ma ea :
  0 <= mx -> ex <= cexp mx ex ->
  bounded Float.prec Float.emax ma ea = true ->
  (F2Q (Zpos ma) ea <= F2Q mx ex)%Q ->
  let r := binary_round_aux Float.prec Float.emax sx mx ex lx in
  (exists m e,
     r = S754_finite sx m e /\ bounded Float.prec Float.emax m e = true /\
     (F2Q (Zpos ma) ea <= F2Q (Zpos m) e)%Q) \/
  r = S754_infinity sx.
Proof.
  intros Hmx Hex Ha Hle r.
  destruct (binary_round_aux_bounds sx mx ex lx Hmx Hex)
    as (m1 & e1 & Hm1 & He1 & Hee & Hnorm & Em1 & Hr).
  destruct (bounded_spec _ _ Ha) as (Hea & Hma & Hna & _).
  assert (Hgrid : (F2Q (Zpos ma) ea <= F2Q m1 e1)%Q).
  { destruct (Z_le_gt_dec e1 ea) as [Hge|Hlt].
    - rewrite (F2Q_shift (Zpos ma) ea e1 Hge). apply F2Q_le_same.
      rewrite Em1. assert (Hp : 0 < 2 ^ (e1 - ex)) by (apply Z.pow_pos_nonneg; lia).
      apply Z.div_le_lower_bound; [assumption|].
      rewrite (F2Q_shift (Zpos ma) ea ex ltac:(lia)) in Hle.
      apply F2Q_le_same in Hle.
      replace (ea - ex) with ((ea - e1) + (e1 - ex)) in Hle by lia.
      rewrite Z.pow_add_r in Hle by lia. lia.
    - destruct Hnorm as [E|Hn]; [lia|].
      apply Qle_trans with (F2Q (2 ^ Float.prec) ea);
        [apply F2Q_le_same; lia|].
      apply Qle_trans with (F2Q (2 ^ (Float.prec - 1)) e1);
        [|apply F2Q_le_same; lia].
      rewrite !F2Q_pow by (unfold Float.prec; lia). apply pow2_le. lia. }
  cbv zeta in Hr.
  destruct Hr as [[Hr E0]|[(m & e & Hr & Hb & Hv1 & Hv2)|[Hr Hinf]]].
  - exfalso. rewrite E0 in Hgrid.
    pose proof (F2Q_pos (Zpos ma) ea ltac:(lia)).
    assert (E : (F2Q 0 e1 == 0)%Q) by (unfold F2Q; ring).
    rewrite E in Hgrid. lra.
  - left. exists m, e. split; [exact Hr|]. split; [exact Hb|]. lra.
  - now right.
Qed.

(** ** Aligning a mantissa *)

Lemma iter_xO_value m d : Zpos (Pos.iter xO m d) = Zpos m * 2 ^ Zpos d.
Proof.
  induction d as [|d IH] using Pos.peano_ind.
  - simpl. lia.
  - rewrite Pos.iter_succ, Pos2Z.inj_xO, IH, Pos2Z.inj_succ,
      Z.pow_succ_r by lia. lia.
Qed.

Lemma shl_align_spec mx ex ex' :
  let '(mz, ez) := shl_align mx ex ex' in
  ez = Z.min ex ex' /\ Zpos mz = Zpos mx * 2 ^ (ex - ez).
Proof.
  unfold shl_align. destruct (ex' - ex) as [|p|p] eqn:E.
  - split; [lia|]. rewrite Z.sub_diag. simpl. lia.
  - split; [lia|]. rewrite Z.sub_diag. simpl. lia.
  - split; [lia|]. rewrite iter_xO_value. f_equal. f_equal. lia.
Qed.

Lemma Zdigits2_shift m k :
  0 < m -> 0 <= k -> Zdigits2 (m * 2 ^ k) = Zdigits2 m + k.
Proof.
  intros Hm Hk. pose proof (Zdigits2_bounds m Hm) as [Hlo Hhi].
  pose proof (Zdigits2_nonneg m).
  assert (Hp : 0 < 2 ^ k) by (apply Z.pow_pos_nonneg; lia).
  assert (0 < Zdigits2 m).
  { destruct m; simpl in *; lia. }
  apply Zdigits2_unique; [|lia]. split.
  - replace (Zdigits2 m + k - 1) with ((Zdigits2 m - 1) + k) by lia.
    rewrite Z.pow_add_r by lia. nia.
  - rewrite Z.pow_add_r by lia. nia.
Qed.

(** ** Rounding an exact value: [binary_round] *)

Lemma binary_round_core sx mx ex :
  exists mz ez,
    binary_round Float.prec Float.emax sx mx ex
    = binary_round_aux Float.prec Float.emax sx (Zpos mz) ez loc_Exact /\
    ez <= cexp (Zpos mz) ez /\
    (F2Q (Zpos mz) ez == F2Q (Zpos mx) ex)%Q.
Proof.
  unfold binary_round.
  pose proof (shl_align_spec mx ex
                (fexp Float.prec Float.emax (Zpos (digits2_pos mx) + ex))) as H.
  destruct (shl_align mx ex _) as [mz ez]. destruct H as [Ez Em].
  exists mz, ez. split; [reflexivity|].
  assert (Hle : ez <= ex) by lia.
  split.
  - unfold cexp. rewrite Em, Zdigits2_shift by lia.
    replace (Zdigits2 (Zpos mx) + (ex - ez) + ez)
      with (Zdigits2 (Zpos mx) + ex) by lia.
    change (Zdigits2 (Zpos mx)) with (Zpos (digits2_pos mx)). lia.
  - rewrite (F2Q_shift (Zpos mx) ex ez Hle), Em. reflexivity.
Qed.

Lemma F2Q_succ_gt m e : (F2Q m e < F2Q (m + 1) e)%Q.
Proof. apply F2Q_lt_same. lia. Qed.

Lemma binary_round_rel sx mx ex :
  let X := F2Q (Zpos mx) ex in
  let r := binary_round Float.prec Float.emax sx mx ex in
  (r = S754_zero sx /\ (X < tiny)%Q) \/
  (exists m e,
     r = S754_finite sx m e /\ bounded Float.prec Float.emax m e = true /\
     let V := F2Q (Zpos m) e in
     ((X <= V * (1 + eps) /\ V <= X * (1 + eps))%Q \/
      (X < tiny /\ V <= tiny)%Q)) \/
  (r = S754_infinity sx /\ (pow2 Float.emax <= X * (1 + eps))%Q).
Proof.
  intros X r. subst X r.
  destruct (binary_round_core sx mx ex) as (mz & ez & -> & Hc & Ev).
  pose proof (round_rel sx (Zpos mz) ez loc_Exact ltac:(lia) Hc) as H.
  cbv zeta in H. pose proof (F2Q_succ_gt (Zpos mz) ez) as Hs.
  destruct H as [[Hr Ht]|[(m & e & Hr & Hb & Hv)|[Hr Hinf]]].
  - left. split; [exact Hr|lra].
  - right; left. exists m, e. split; [exact Hr|]. split; [exact Hb|].
    cbv zeta. destruct Hv as [[H1 H2]|[H1 H2]]; [left|right];
      try rewrite Ev in H2; split; lra.
  - right; right. rewrite Ev in Hinf. auto.
Qed.

Lemma binary_round_above sx mx ex ma ea :
  bounded Float.prec Float.emax ma ea = true ->
  (F2Q (Zpos ma) ea <= F2Q (Zpos mx) ex)%Q ->
  let r := binary_round Float.prec Float.emax sx mx ex in
  (exists m e,
     r = S754_finite sx m e /\ bounded Float.prec Float.emax m e = true /\
     (F2Q (Zpos ma) ea <= F2Q (Zpos m) e)%Q) \/
  r = S754_infinity sx.
Proof.
  intros Ha Hle r. unfold r.
  destruct (binary_round_core sx mx ex) as (mz & ez & -> & Hc & Ev).
  rewrite <- Ev in Hle.
  exact (round_above sx (Zpos mz) ez loc_Exact ma ea ltac:(lia) Hc Ha Hle).
Qed.

(** A finite result of [binary_round] is a valid float. *)
Lemma binary_round_valid sx mx ex :
  valid_binary Float.prec Float.emax (binary_round Float.prec Float.emax sx mx ex) = true.
Proof.
  destruct (binary_round_rel sx mx ex)
    as [[-> _]|[(m & e & -> & Hb & _)|[-> _]]]; auto.
Qed.

Lemma binary_normalize_valid m e s :
  valid_binary Float.prec Float.emax (binary_normalize Float.prec Float.emax m e s) = true.
Proof.
  destruct m; cbn [binary_normalize]; [reflexivity| |];
    apply binary_round_valid.
Qed.

Lemma F2Q_mul m e m' e' :
  (F2Q m e * F2Q m' e' == F2Q (m * m') (e + e'))%Q.
Proof. unfold F2Q. rewrite inject_Z_mult, pow2_add. ring. Qed.

(** ** The square of a float *)

Lemma mul_self_rel s m e :
  bounded Float.prec Float.emax m e = true ->
  let X := (F2Q (Zpos m) e * F2Q (Zpos m) e)%Q in
  let q := SFmul Float.prec Float.emax (S754_finite s m e) (S754_finite s m e) in
  (q = S754_zero false /\ (X < tiny)%Q) \/
  (exists mq eq,
     q = S754_finite false mq eq /\ bounded Float.prec Float.emax mq eq = true /\
     ((X <= F2Q (Zpos mq) eq * (1 + eps))%Q \/ (X < tiny)%Q)) \/
  q = S754_infinity false.
Proof.
  intros Hb X q. subst X q. cbn [SFmul]. rewrite xorb_nilpotent.
  destruct (bounded_spec _ _ Hb) as (He & Hm & Hn & _).
  assert (Hc : e + e <= cexp (Zpos (m * m)) (e + e)).
  { rewrite cexp_eq. destruct Hn as [E|Hn].
    - rewrite E, emin_value. lia.
    - assert (105 <= Zdigits2 (Zpos (m * m))).
      { apply Zdigits2_ge; [lia|]. rewrite Pos2Z.inj_mul.
        change (2 ^ (105 - 1)) with (2 ^ (Float.prec - 1) * 2 ^ (Float.prec - 1)).
        apply Z.mul_le_mono_nonneg; lia. }
      unfold Float.prec. lia. }
  pose proof (round_rel false (Zpos (m * m)) (e + e) loc_Exact
                ltac:(lia) Hc) as H.
  cbv zeta in H.
  pose proof (F2Q_succ_gt (Zpos (m * m)) (e + e)) as Hs.
  assert (EX : (F2Q (Zpos m) e * F2Q (Zpos m) e
                == F2Q (Zpos (m * m)) (e + e))%Q)
    by (rewrite F2Q_mul, <- Pos2Z.inj_mul; reflexivity).
  destruct H as [[Hr Ht]|[(mq & eq & Hr & Hbq & Hv)|[Hr Hinf]]].
  - left. split; [exact Hr|]. rewrite EX. lra.
  - right; left. exists mq, eq. split; [exact Hr|]. split; [exact Hbq|].
    rewrite EX. destruct Hv as [[H1 H2]|[H1 H2]]; [left|right]; lra.
  - right; right. exact Hr.
Qed.

(** ** The quotient of two floats *)

Lemma div_core_spec mx ex my ey :
  let '(q, e', l) := SFdiv_core_binary Float.prec Float.emax (Zpos mx) ex (Zpos my) ey in
  0 <= q /\ e' <= cexp q e' /\
  (F2Q q e' * F2Q (Zpos my) ey <= F2Q (Zpos mx) ex)%Q /\
  (F2Q (Zpos mx) ex < F2Q (q + 1) e' * F2Q (Zpos my) ey)%Q.
Proof.
  unfold SFdiv_core_binary.
  set (d1 := Zdigits2 (Zpos mx)). set (d2 := Zdigits2 (Zpos my)).
  set (e' := Z.min (fexp Float.prec Float.emax (d1 + ex - (d2 + ey))) (ex - ey)).
  set (s := ex - ey - e').
  assert (Hs : 0 <= s) by (unfold s, e'; lia).
  set (m' := match s with
             | 0 => Zpos mx
             | Zpos _ => Z.shiftl (Zpos mx) s
             | Zneg _ => 0
             end).
  assert (Em' : m' = Zpos mx * 2 ^ s).
  { unfold m'. destruct s as [|p|p] eqn:E; [simpl; lia| |lia].
    rewrite Z.shiftl_mul_pow2 by lia. reflexivity. }
  pose proof (Z_div_mod m' (Zpos my) ltac:(lia)) as Hdm.
  destruct (Z.div_eucl m' (Zpos my)) as [q r]. destruct Hdm as [Eq Hr].
  assert (Hp : 0 < 2 ^ s) by (apply Z.pow_pos_nonneg; lia).
  assert (Hq : 0 <= q) by nia.
  split; [exact Hq|].
  pose proof (Zdigits2_bounds (Zpos mx) ltac:(lia)) as [Hlo1 Hhi1].
  pose proof (Zdigits2_bounds (Zpos my) ltac:(lia)) as [Hlo2 Hhi2].
  fold d1 in Hlo1, Hhi1. fold d2 in Hlo2, Hhi2.
  assert (Hd1 : 0 < d1) by (unfold d1; simpl; lia).
  assert (Hd2 : 0 < d2) by (unfold d2; simpl; lia).
  split.
  - rewrite cexp_eq.
    destruct (Z_le_gt_dec e' emin) as [|Hgt]; [lia|].
    assert (He' : e' <= d1 + ex - (d2 + ey) - Float.prec).
    { unfold e', fexp in *. fold emin in *. lia. }
    assert (Float.prec <= Zdigits2 q); [|lia].
    apply Zdigits2_ge; [unfold Float.prec; lia|].
    assert (Hbig : 2 ^ (Float.prec - 1) * Zpos my <= m').
    { rewrite Em'.
      apply Z.le_trans with (2 ^ (Float.prec - 1) * 2 ^ d2); [nia|].
      rewrite <- Z.pow_add_r by (unfold Float.prec; lia).
      apply Z.le_trans with (2 ^ (d1 - 1) * 2 ^ s); [|nia].
      rewrite <- Z.pow_add_r by lia.
      apply Z.pow_le_mono_r; [lia|]. unfold s. lia. }
    set (P := 2 ^ (Float.prec - 1)) in *.
    destruct (Z_le_gt_dec P q) as [|Hgt']; [assumption|exfalso].
    assert (Zpos my * q <= Zpos my * (P - 1))
      by (apply Z.mul_le_mono_nonneg_l; lia).
    lia.
  - assert (Ee : ex = s + (e' + ey)) by (unfold s; lia).
    rewrite !F2Q_mul.
    rewrite (F2Q_shift (Zpos mx) ex (e' + ey) ltac:(lia)).
    replace (ex - (e' + ey)) with s by lia. rewrite <- Em'.
    split; [apply F2Q_le_same|apply F2Q_lt_same]; nia.
Qed.

Lemma div_rel sx mx ex sy my ey :
  let X := (F2Q (Zpos mx) ex / F2Q (Zpos my) ey)%Q in
  let r := SFdiv Float.prec Float.emax (S754_finite sx mx ex) (S754_finite sy my ey) in
  (r = S754_zero (xorb sx sy) /\ (X < tiny)%Q) \/
  (exists m e,
     r = S754_finite (xorb sx sy) m e /\ bounded Float.prec Float.emax m e = true /\
     let V := F2Q (Zpos m) e in
     ((X <= V * (1 + eps) /\ V <= X * (1 + eps))%Q \/
      (X < tiny /\ V <= tiny)%Q)) \/
  (r = S754_infinity (xorb sx sy) /\ (pow2 Float.emax <= X * (1 + eps))%Q).
Proof.
  intros X r. subst X r. cbn [SFdiv].
  pose proof (div_core_spec mx ex my ey) as H.
  destruct (SFdiv_core_binary Float.prec Float.emax (Zpos mx) ex (Zpos my) ey)
    as [[q e'] l].
  destruct H as (Hq & Hc & Hlo & Hhi).
  pose proof (F2Q_pos (Zpos my) ey ltac:(lia)) as Hy.
  set (Y := F2Q (Zpos my) ey) in *. set (N := F2Q (Zpos mx) ex) in *.
  assert (Hlo' : (F2Q q e' <= N / Y)%Q) by (apply Qle_shift_div_l; assumption).
  assert (Hhi' : (N / Y < F2Q (q + 1) e')%Q) by (apply Qlt_shift_div_r; assumption).
  pose proof (round_rel (xorb sx sy) q e' l Hq Hc) as H. cbv zeta in H.
  pose proof one_plus_eps as H1e.
  destruct H as [[Hr Ht]|[(m & e & Hr & Hb & Hv)|[Hr Hinf]]].
  - left. split; [exact Hr|lra].
  - right; left. exists m, e. split; [exact Hr|]. split; [exact Hb|].
    cbv zeta. destruct Hv as [[H1 H2]|[H1 H2]]; [left|right].
    + split; [lra|].
      apply Qle_trans with (F2Q q e' * (1 + eps))%Q; [assumption|].
      apply Qmult_le_compat_r; lra.
    + split; lra.
  - right; right. split; [exact Hr|].
    apply Qle_trans with (F2Q q e' * (1 + eps))%Q; [assumption|].
    apply Qmult_le_compat_r; lra.
Qed.

(** ** The square root of a float *)

Lemma sqrt_core_spec m e :
  let '(q, e', l) := SFsqrt_core_binary Float.prec Float.emax (Zpos m) e in
  0 <= q /\ e' <= cexp q e' /\
  (F2Q q e' * F2Q q e' <= F2Q (Zpos m) e)%Q /\
  (F2Q (Zpos m) e < F2Q (q + 1) e' * F2Q (q + 1) e')%Q.
Proof.
  unfold SFsqrt_core_binary.
  set (d := Zdigits2 (Zpos m)).
  set (E := Z.div2 (d + e + 1)).
  set (e' := Z.min (fexp Float.prec Float.emax E) (Z.div2 e)).
  set (s := e - 2 * e').
  assert (H2e : 2 * Z.div2 e <= e).
  { rewrite Z.div2_div. pose proof (Z.mul_div_le e 2 ltac:(lia)). lia. }
  assert (H2E : 2 * E <= d + e + 1).
  { unfold E. rewrite Z.div2_div.
    pose proof (Z.mul_div_le (d + e + 1) 2 ltac:(lia)). lia. }
  assert (Hs : 0 <= s) by (unfold s, e'; lia).
  set (m' := match s with
             | 0 => Zpos m
             | Zpos _ => Z.shiftl (Zpos m) s
             | Zneg _ => 0
             end).
  assert (Em' : m' = Zpos m * 2 ^ s).
  { unfold m'. destruct s as [|p|p] eqn:Es; [simpl; lia| |lia].
    rewrite Z.shiftl_mul_pow2 by lia. reflexivity. }
  assert (Hp : 0 < 2 ^ s) by (apply Z.pow_pos_nonneg; lia).
  assert (Hm' : 0 <= m') by nia.
  pose proof (Z.sqrtrem_spec m' Hm') as Hsq.
  destruct (Z.sqrtrem m') as [q r]. destruct Hsq as [Eq Hr].
  pose proof (Zdigits2_bounds (Zpos m) ltac:(lia)) as [Hlo Hhi].
  fold d in Hlo, Hhi.
  assert (Hd : 0 < d) by (unfold d; simpl; lia).
  assert (Hq : 0 <= q) by lia.
  split; [exact Hq|]. split.
  - rewrite cexp_eq.
    destruct (Z_le_gt_dec e' emin) as [|Hgt]; [lia|].
    assert (He' : e' <= E - Float.prec).
    { unfold e', fexp in *. fold emin in *. lia. }
    assert (Float.prec <= Zdigits2 q); [|lia].
    apply Zdigits2_ge; [unfold Float.prec; lia|].
    set (P := 2 ^ (Float.prec - 1)).
    assert (Hbig : P * P <= m').
    { rewrite Em'. unfold P. rewrite <- Z.pow_add_r by (unfold Float.prec; lia).
      apply Z.le_trans with (2 ^ (d - 1) * 2 ^ s); [|nia].
      rewrite <- Z.pow_add_r by lia.
      apply Z.pow_le_mono_r; [lia|]. unfold s, Float.prec in *. lia. }
    assert (0 < P) by (apply Z.pow_pos_nonneg; unfold Float.prec; lia).
    destruct (Z_le_gt_dec P q) as [|Hgt']; [assumption|exfalso].
    assert ((q + 1) * (q + 1) <= P * P) by (apply Z.mul_le_mono_nonneg; lia).
    nia.
  - assert (Ee : e = s + (e' + e')) by (unfold s; lia).
    rewrite !F2Q_mul.
    rewrite (F2Q_shift (Zpos m) e (e' + e') ltac:(lia)).
    replace (e - (e' + e')) with s by lia. rewrite <- Em'.
    split; [apply F2Q_le_same|apply F2Q_lt_same]; nia.
Qed.

Lemma sqrt_rel m e :
  let v := F2Q (Zpos m) e in
  let s := SFsqrt Float.prec Float.emax (S754_finite false m e) in
  s = S754_zero false \/
  (exists ms es,
     s = S754_finite false ms es /\ bounded Float.prec Float.emax ms es = true /\
     let V := F2Q (Zpos ms) es in
     ((v <= (V * (1 + eps)) * (V * (1 + eps)) /\
       V * V <= v * ((1 + eps) * (1 + eps)))%Q \/
      (V <= tiny)%Q)) \/
  s = S754_infinity false.
Proof.
  intros v s. subst v s. cbn [SFsqrt].
  pose proof (sqrt_core_spec m e) as H.
  destruct (SFsqrt_core_binary Float.prec Float.emax (Zpos m) e) as [[q e'] l].
  destruct H as (Hq & Hc & Hlo & Hhi).
  pose proof (round_rel false q e' l Hq Hc) as H. cbv zeta in H.
  pose proof one_plus_eps as H1e.
  pose proof (F2Q_nonneg q e' Hq) as HX.
  pose proof (F2Q_pos (q + 1) e' ltac:(lia)) as HX'.
  set (X := F2Q q e') in *. set (X' := F2Q (q + 1) e') in *.
  set (v := F2Q (Zpos m) e) in *.
  destruct H as [[Hr Ht]|[(ms & es & Hr & Hb & Hv)|[Hr Hinf]]].
  - left. exact Hr.
  - right; left. exists ms, es. split; [exact Hr|]. split; [exact Hb|].
    cbv zeta. pose proof (F2Q_pos (Zpos ms) es ltac:(lia)) as HV.
    set (V := F2Q (Zpos ms) es) in *.
    destruct Hv as [[H1 H2]|[H1 H2]]; [left|right; exact H2].
    split.
    + apply Qle_trans with (X' * X')%Q; [lra|].
      apply Qmult_le_compat_nonneg; split; lra.
    + apply Qle_trans with ((X * (1 + eps)) * (X * (1 + eps)))%Q.
      * apply Qmult_le_compat_nonneg; split; lra.
      * assert (E : ((X * (1 + eps)) * (X * (1 + eps))
                     == (X * X) * ((1 + eps) * (1 + eps)))%Q) by ring.
        rewrite E. apply Qmult_le_compat_r; [assumption|].
        apply Qmult_le_0_compat; lra.
  - right; right. exact Hr.
Qed.

(** ** The float of a positive integer *)

Lemma of_Z_rel p :
  let r := binary_normalize Float.prec Float.emax (Zpos p) 0 false in
  (exists m e,
     r = S754_finite false m e /\ bounded Float.prec Float.emax m e = true /\
     (inject_Z (Zpos p) <= F2Q (Zpos m) e * (1 + eps))%Q /\
     (F2Q (Zpos m) e <= inject_Z (Zpos p) * (1 + eps))%Q) \/
  r = S754_infinity false.
Proof.
  cbv zeta. cbn [binary_normalize].
  pose proof one_plus_eps as H1e.
  assert (EX : (F2Q (Zpos p) 0 == inject_Z (Zpos p))%Q)
    by (unfold F2Q, pow2; simpl; ring).
  assert (H1 : (1 <= inject_Z (Zpos p))%Q)
    by (change 1%Q with (inject_Z 1); rewrite <- Zle_Qle; lia).
  assert (Ht : (tiny < 1)%Q)
    by (change 1%Q with (pow2 0); apply pow2_lt; lia).
  destruct (binary_round_rel false p 0)
    as [[Hr Hx]|[(m & e & Hr & Hb & Hv)|[Hr _]]].
  - exfalso. rewrite EX in Hx. lra.
  - left. exists m, e. split; [exact Hr|]. split; [exact Hb|].
    cbv zeta in Hv. destruct Hv as [[H2 H3]|[Hx _]].
    + rewrite EX in H2, H3. split; assumption.
    + exfalso. rewrite EX in Hx. lra.
  - right. exact Hr.
Qed.

Lemma bounded_lt_emax m e :
  bounded Float.prec Float.emax m e = true ->
  (F2Q (Zpos m) e < pow2 Float.emax)%Q.
Proof.
  intros Hb. destruct (bounded_spec _ _ Hb) as (He & Hm & _ & _).
  apply Qlt_le_trans with (F2Q (2 ^ Float.prec) e);
    [now apply F2Q_lt_same|].
  rewrite F2Q_pow by (unfold Float.prec; lia). apply pow2_le. lia.
Qed.

(** ** The sum of two positive floats *)

Lemma add_pos_above ma ea mb eb :
  bounded Float.prec Float.emax ma ea = true -> bounded Float.prec Float.emax mb eb = true ->
  let r := SFadd Float.prec Float.emax (S754_finite false ma ea)
             (S754_finite false mb eb) in
  (exists m e,
     r = S754_finite false m e /\ bounded Float.prec Float.emax m e = true /\
     (F2Q (Zpos ma) ea <= F2Q (Zpos m) e)%Q /\
     (F2Q (Zpos mb) eb <= F2Q (Zpos m) e)%Q) \/
  r = S754_infinity false.
Proof.
  intros Ha Hb r. subst r. cbn [SFadd cond_Zopp].
  set (ez := Z.min ea eb).
  pose proof (shl_align_spec ma ea ez) as Sa.
  pose proof (shl_align_spec mb eb ez) as Sb.
  destruct (shl_align ma ea ez) as [ma' ea'].
  destruct (shl_align mb eb ez) as [mb' eb'].
  destruct Sa as [Ea Va]. destruct Sb as [Eb Vb]. cbn [fst].
  assert (Ea' : ea' = ez) by (unfold ez in *; lia).
  assert (Eb' : eb' = ez) by (unfold ez in *; lia).
  clear Ea Eb. subst ea' eb'.
  change (Zpos ma' + Zpos mb') with (Zpos (ma' + mb')).
  cbn [binary_normalize].
  assert (Xa : (F2Q (Zpos ma) ea <= F2Q (Zpos (ma' + mb')) ez)%Q).
  { rewrite (F2Q_shift (Zpos ma) ea ez ltac:(unfold ez; lia)), <- Va.
    apply F2Q_le_same. lia. }
  assert (Xb : (F2Q (Zpos mb) eb <= F2Q (Zpos (ma' + mb')) ez)%Q).
  { rewrite (F2Q_shift (Zpos mb) eb ez ltac:(unfold ez; lia)), <- Vb.
    apply F2Q_le_same. lia. }
  pose proof (binary_round_above false (ma' + mb') ez ma ea Ha Xa) as H1.
  pose proof (binary_round_above false (ma' + mb') ez mb eb Hb Xb) as H2.
  cbv zeta in H1, H2.
  destruct H1 as [(m & e & Hr & Hbd & Hv)|Hr]; [|now right].
  left. exists m, e. split; [exact Hr|]. split; [exact Hbd|].
  split; [exact Hv|].
  destruct H2 as [(m2 & e2 & Hr2 & _ & Hv2)|Hr2]; [|congruence].
  rewrite Hr in Hr2. injection Hr2 as <- <-. exact Hv2.
Qed.

Local Open Scope Q_scope.

Lemma Qsquare_le_compat a b : 0 <= a -> a <= b -> a * a <= b * b.
Proof. intros. apply Qmult_le_compat_nonneg; split; assumption. Qed.

Lemma Qdiv_le_mult a b c : 0 < c -> a / c <= b -> a <= b * c.
Proof.
  intros Hc H. apply Qmult_le_compat_r with (z := c) in H; [|lra].
  assert (E : a / c * c == a) by (field; lra). now rewrite E in H.
Qed.

Lemma Qle_div_mult a b c : 0 < c -> a <= b / c * c -> a <= b.
Proof.
  intros Hc H. assert (E : b / c * c == b) by (field; lra). now rewrite E in H.
Qed.

(** The chain of roundings from a deviation to its Z-score. *)
Lemma z_chain (u D sv Qv Sv N vv n V : Q) :
  1 <= u -> 0 < D -> 0 < sv -> 0 < N -> 0 <= V -> 0 <= vv ->
  D * D <= Qv * u ->
  Qv <= Sv ->
  Sv / N <= vv * u ->
  N <= n * u ->
  vv <= (sv * u) * (sv * u) ->
  V <= D / sv * u ->
  D * D <= sv * sv * (n * (u * u * u * u * u)) /\
  V * V <= n * (u * u * u * u * u * u * u).
Proof.
  intros Hu HD Hs HN HV Hvv H1 H2 H3 H4 H5 H6.
  assert (Ha : Sv <= vv * u * N) by (now apply Qdiv_le_mult).
  assert (Hn : 0 < n) by nra.
  assert (Hu2 : 0 <= u * u) by nra.
  assert (Hu3 : 0 <= u * u * u) by nra.
  assert (Hs1 : Qv * u <= Sv * u) by (apply Qmult_le_compat_r; lra).
  assert (Hs2 : Sv * u <= vv * u * N * u) by (apply Qmult_le_compat_r; lra).
  assert (Hs3 : vv * u * N * u <= vv * u * (n * u) * u).
  { setoid_replace (vv * u * N * u) with (N * (vv * (u * u))) by ring.
    setoid_replace (vv * u * (n * u) * u) with (n * u * (vv * (u * u))) by ring.
    apply Qmult_le_compat_r; [exact H4|]. apply Qmult_le_0_compat; lra. }
  assert (Hs4 : vv * u * (n * u) * u
                <= (sv * u) * (sv * u) * u * (n * u) * u).
  { setoid_replace (vv * u * (n * u) * u) with (vv * (n * (u * u * u))) by ring.
    setoid_replace ((sv * u) * (sv * u) * u * (n * u) * u)
      with ((sv * u) * (sv * u) * (n * (u * u * u))) by ring.
    apply Qmult_le_compat_r; [exact H5|]. apply Qmult_le_0_compat; lra. }
  assert (HDD : D * D <= sv * sv * (n * (u * u * u * u * u))).
  { setoid_replace (sv * sv * (n * (u * u * u * u * u)))
      with ((sv * u) * (sv * u) * u * (n * u) * u) by ring.
    lra. }
  split; [exact HDD|].
  assert (Hc : V * sv <= D * u).
  { apply Qmult_le_compat_r with (z := sv) in H6; [|lra].
    assert (E : D / sv * u * sv == D * u) by (field; lra).
    now rewrite E in H6. }
  assert (Hsq : (V * sv) * (V * sv) <= (D * u) * (D * u)).
  { apply Qsquare_le_compat; [|exact Hc]. apply Qmult_le_0_compat; lra. }
  assert (Hfin : (V * V) * (sv * sv)
                 <= n * (u * u * u * u * u * u * u) * (sv * sv)).
  { setoid_replace (V * V * (sv * sv)) with ((V * sv) * (V * sv)) by ring.
    apply Qle_trans with ((D * u) * (D * u)); [exact Hsq|].
    setoid_replace ((D * u) * (D * u)) with ((D * D) * (u * u)) by ring.
    setoid_replace (n * (u * u * u * u * u * u * u) * (sv * sv))
      with (sv * sv * (n * (u * u * u * u * u)) * (u * u)) by ring.
    apply Qmult_le_compat_r; assumption. }
  apply Qmult_le_r in Hfin; [exact Hfin|]. apply Qmult_lt_0_compat; lra.
Qed.

Local Close Scope Q_scope.

(** ** Sums of squares *)

Lemma le_sum_refl a : summand a -> le_sum a a.
Proof.
  destruct a as [[]|[]| |[] m e]; simpl; auto.
  intros H. split; [exact H|apply Qle_refl].
Qed.

Lemma le_sum_trans a b c : le_sum a b -> le_sum b c -> le_sum a c.
Proof.
  destruct c as [[]|[]| |[] mc ec]; simpl; auto.
  - intros Hab ->. exact Hab.
  - destruct b as [[]|[]| |[] mb eb]; simpl; try tauto.
    + intros ->. auto.
    + destruct a as [[]|[]| |[] ma ea]; simpl; try tauto.
      intros [Ha Hab] [Hb Hbc]. split; [exact Ha|].
      eapply Qle_trans; eassumption.
Qed.

Lemma add_summand a b :
  summand a -> summand b ->
  summand (Float.add a b) /\ le_sum a (Float.add a b) /\
  le_sum b (Float.add a b).
Proof.
  unfold Float.add.
  destruct a as [[]|[]| |[] ma ea]; try (simpl; tauto);
    destruct b as [[]|[]| |[] mb eb]; try (simpl; tauto).
  - simpl. intros _ Hb. repeat split; auto. apply Qle_refl.
  - simpl. intros Ha _. repeat split; auto. apply Qle_refl.
  - cbn [summand]. intros Ha Hb.
    pose proof (add_pos_above ma ea mb eb Ha Hb) as H. cbv zeta in H.
    destruct H as [(m & e & Hr & Hbd & Hva & Hvb)|Hr]; rewrite Hr;
      simpl; auto.
Qed.

Lemma fold_add_cover l : forall acc,
  summand acc -> Forall summand l ->
  summand (fold_left Float.add l acc) /\
  le_sum acc (fold_left Float.add l acc) /\
  (forall x, In x l -> le_sum x (fold_left Float.add l acc)).
Proof.
  induction l as [|a l IH]; intros acc Hacc Hl; cbn [fold_left].
  - split; [exact Hacc|]. split; [now apply le_sum_refl|]. intros x [].
  - inversion Hl as [|? ? Ha Hl']; subst.
    destruct (add_summand acc a Hacc Ha) as (Hs & H1 & H2).
    destruct (IH (Float.add acc a) Hs Hl') as (Hs' & H3 & H4).
    split; [exact Hs'|]. split; [eapply le_sum_trans; eassumption|].
    intros x [<-|Hx]; [eapply le_sum_trans; eassumption|now apply H4].
Qed.

(** The blocks of eight. *)
Lemma add_blocks_length b : forall r l,
  (List.length (fst (Reference.add_blocks r l b)) <= List.length r)%nat.
Proof.
  induction b as [|b IH]; intros r l; cbn [Reference.add_blocks fst];
    [lia|].
  eapply Nat.le_trans; [apply IH|].
  rewrite length_map, length_combine. lia.
Qed.

Lemma combine_cover_l {A B} (r : list A) (f : list B) x :
  List.length r = List.length f -> In x r ->
  exists y, In (x, y) (combine r f).
Proof.
  revert f. induction r as [|a r IH]; intros [|b f] Hlen Hx;
    try discriminate; try contradiction.
  simpl in Hlen. destruct Hx as [<-|Hx].
  - exists b. now left.
  - destruct (IH f ltac:(lia) Hx) as (y & Hy). exists y. now right.
Qed.

Lemma combine_cover_r {A B} (r : list A) (f : list B) y :
  List.length r = List.length f -> In y f ->
  exists x, In (x, y) (combine r f).
Proof.
  revert f. induction r as [|a r IH]; intros [|b f] Hlen Hy;
    try discriminate; try contradiction.
  simpl in Hlen. destruct Hy as [<-|Hy].
  - exists a. now left.
  - destruct (IH f ltac:(lia) Hy) as (x & Hx). exists x. now right.
Qed.

Lemma add_blocks_cover b : forall r l r' rest,
  Reference.add_blocks r l b = (r', rest) ->
  List.length r = 8%nat -> List.length r' = 8%nat ->
  Forall summand r -> Forall summand l ->
  Forall summand r' /\ Forall summand rest /\
  (forall x, In x r -> exists y, In y r' /\ le_sum x y) /\
  (forall x, In x l -> (exists y, In y r' /\ le_sum x y) \/ In x rest).
Proof.
  induction b as [|b IH]; intros r l r' rest E Hr Hr' Fr Fl;
    cbn [Reference.add_blocks] in E.
  - injection E as <- <-. repeat split; auto.
    intros x Hx. exists x. split; [exact Hx|].
    apply le_sum_refl. rewrite Forall_forall in Fr. auto.
  - set (r1 := map (fun p => Float.add (fst p) (snd p))
                 (combine r (firstn 8 l))) in *.
    assert (Hlen1 : List.length r1 = 8%nat).
    { pose proof (add_blocks_length b r1 (skipn 8 l)) as H.
      rewrite E in H. cbn [fst] in H.
      unfold r1 in *. rewrite length_map, length_combine in *. lia. }
    assert (Hf : List.length r = List.length (firstn 8 l)).
    { unfold r1 in Hlen1. rewrite length_map, length_combine in Hlen1.
      pose proof (firstn_le_length 8 l). rewrite length_firstn in *. lia. }
    assert (Ff : Forall summand (firstn 8 l)).
    { rewrite Forall_forall in *. intros x Hx. apply Fl.
      rewrite <- (firstn_skipn 8 l). apply in_or_app. now left. }
    assert (Fs : Forall summand (skipn 8 l)).
    { rewrite Forall_forall in *. intros x Hx. apply Fl.
      rewrite <- (firstn_skipn 8 l). apply in_or_app. now right. }
    assert (Hpair : forall p, In p (combine r (firstn 8 l)) ->
              summand (Float.add (fst p) (snd p)) /\
              le_sum (fst p) (Float.add (fst p) (snd p)) /\
              le_sum (snd p) (Float.add (fst p) (snd p))).
    { intros [x y] Hp. cbn [fst snd]. apply add_summand.
      - apply in_combine_l in Hp. rewrite Forall_forall in Fr. auto.
      - apply in_combine_r in Hp. rewrite Forall_forall in Ff. auto. }
    assert (F1 : Forall summand r1).
    { rewrite Forall_forall. intros z Hz. unfold r1 in Hz.
      apply in_map_iff in Hz as (p & <- & Hp). now apply Hpair. }
    destruct (IH r1 (skipn 8 l) r' rest E Hlen1 Hr' F1 Fs)
      as (G1 & G2 & G3 & G4).
    split; [exact G1|]. split; [exact G2|]. split.
    + intros x Hx. destruct (combine_cover_l r (firstn 8 l) x Hf Hx) as (y & Hy).
      destruct (G3 (Float.add x y)) as (z & Hz & Hle).
      { unfold r1. apply in_map_iff. exists (x, y). auto. }
      exists z. split; [exact Hz|].
      eapply le_sum_trans; [|exact Hle]. now apply (Hpair (x, y)).
    + intros y Hy. rewrite <- (firstn_skipn 8 l) in Hy.
      apply in_app_or in Hy as [Hy|Hy]; [|now apply G4].
      left. destruct (combine_cover_r r (firstn 8 l) y Hf Hy) as (x & Hx).
      destruct (G3 (Float.add x y)) as (z & Hz & Hle).
      { unfold r1. apply in_map_iff. exists (x, y). auto. }
      exists z. split; [exact Hz|].
      eapply le_sum_trans; [|exact Hle]. now apply (Hpair (x, y)).
Qed.

Lemma sum_unrolled_cover l :
  Forall summand l ->
  summand (Reference.sum_unrolled l) /\
  (forall x, In x l -> le_sum x (Reference.sum_unrolled l)).
Proof.
  intros Fl. unfold Reference.sum_unrolled.
  destruct (Reference.add_blocks (firstn 8 l) (skipn 8 l)
              (List.length l / 8 - 1)) as [r rest] eqn:E.
  assert (Hnan : summand S754_nan /\
                 (forall x, In x l -> le_sum x S754_nan))
    by (split; [exact I|intros; exact I]).
  destruct r as [|r0 [|r1 [|r2 [|r3 [|r4 [|r5 [|r6 [|r7 [|]]]]]]]]];
    try exact Hnan.
  clear Hnan.
  assert (Hlen : List.length (firstn 8 l) = 8%nat).
  { pose proof (add_blocks_length (List.length l / 8 - 1) (firstn 8 l)
                  (skipn 8 l)) as H.
    rewrite E in H. cbn [fst List.length] in H.
    pose proof (firstn_le_length 8 l). rewrite length_firstn in *. lia. }
  assert (Ff : Forall summand (firstn 8 l)).
  { rewrite Forall_forall in *. intros x Hx. apply Fl.
    rewrite <- (firstn_skipn 8 l). apply in_or_app. now left. }
  assert (Fs : Forall summand (skipn 8 l)).
  { rewrite Forall_forall in *. intros x Hx. apply Fl.
    rewrite <- (firstn_skipn 8 l). apply in_or_app. now right. }
  destruct (add_blocks_cover _ _ _ _ _ E Hlen eq_refl Ff Fs)
    as (Fr & Frest & G1 & G2).
  rewrite Forall_forall in Fr.
  assert (S0 : summand r0) by (apply Fr; simpl; tauto).
  assert (S1 : summand r1) by (apply Fr; simpl; tauto).
  assert (S2 : summand r2) by (apply Fr; simpl; tauto).
  assert (S3 : summand r3) by (apply Fr; simpl; tauto).
  assert (S4 : summand r4) by (apply Fr; simpl; tauto).
  assert (S5 : summand r5) by (apply Fr; simpl; tauto).
  assert (S6 : summand r6) by (apply Fr; simpl; tauto).
  assert (S7 : summand r7) by (apply Fr; simpl; tauto).
  destruct (add_summand r0 r1 S0 S1) as (S01 & L0 & L1).
  destruct (add_summand r2 r3 S2 S3) as (S23 & L2 & L3).
  destruct (add_summand r4 r5 S4 S5) as (S45 & L4 & L5).
  destruct (add_summand r6 r7 S6 S7) as (S67 & L6 & L7).
  destruct (add_summand _ _ S01 S23) as (S03 & L01 & L23).
  destruct (add_summand _ _ S45 S67) as (S47 & L45 & L67).
  destruct (add_summand _ _ S03 S47) as (ST & L03 & L47).
  set (T := Float.add
              (Float.add (Float.add r0 r1) (Float.add r2 r3))
              (Float.add (Float.add r4 r5) (Float.add r6 r7))) in *.
  destruct (fold_add_cover rest T ST Frest) as (SF & LT & Lrest).
  split; [exact SF|].
  assert (Hr : forall y, In y [r0; r1; r2; r3; r4; r5; r6; r7] ->
                 le_sum y (fold_left Float.add rest T)).
  { intros y Hy. apply le_sum_trans with T; [|exact LT].
    simpl in Hy.
    destruct Hy as [<-|[<-|[<-|[<-|[<-|[<-|[<-|[<-|[]]]]]]]]].
    - eapply le_sum_trans; [exact L0|]. eapply le_sum_trans; eassumption.
    - eapply le_sum_trans; [exact L1|]. eapply le_sum_trans; eassumption.
    - eapply le_sum_trans; [exact L2|]. eapply le_sum_trans; eassumption.
    - eapply le_sum_trans; [exact L3|]. eapply le_sum_trans; eassumption.
    - eapply le_sum_trans; [exact L4|]. eapply le_sum_trans; eassumption.
    - eapply le_sum_trans; [exact L5|]. eapply le_sum_trans; eassumption.
    - eapply le_sum_trans; [exact L6|]. eapply le_sum_trans; eassumption.
    - eapply le_sum_trans; [exact L7|]. eapply le_sum_trans; eassumption. }
  intros x Hx. rewrite <- (firstn_skipn 8 l) in Hx.
  apply in_app_or in Hx as [Hx|Hx].
  - destruct (G1 x Hx) as (y & Hy & Hle).
    eapply le_sum_trans; [exact Hle|]. now apply Hr.
  - destruct (G2 x Hx) as [(y & Hy & Hle)|Hin].
    + eapply le_sum_trans; [exact Hle|]. now apply Hr.
    + now apply Lrest.
Qed.

Lemma pairwise_sum_cover fuel : forall l,
  Forall summand l ->
  summand (Reference.pairwise_sum fuel l) /\
  (forall x, In x l -> le_sum x (Reference.pairwise_sum fuel l)).
Proof.
  assert (Hsmall : forall l fuel,
            (List.length l <? 8)%nat = true -> Forall summand l ->
            summand (Reference.pairwise_sum fuel l) /\
            (forall x, In x l -> le_sum x (Reference.pairwise_sum fuel l))).
  { intros l f E Fl.
    destruct (fold_add_cover l Float.zero I Fl) as (S & _ & L).
    destruct f; cbn [Reference.pairwise_sum]; rewrite E; auto. }
  assert (Hmid : forall l fuel,
            (List.length l <? 8)%nat = false ->
            (List.length l <=? 128)%nat = true -> Forall summand l ->
            summand (Reference.pairwise_sum fuel l) /\
            (forall x, In x l -> le_sum x (Reference.pairwise_sum fuel l))).
  { intros l f E1 E2 Fl.
    destruct f; cbn [Reference.pairwise_sum]; rewrite E1, E2;
      now apply sum_unrolled_cover. }
  induction fuel as [|fuel IH]; intros l Fl;
    destruct (List.length l <? 8)%nat eqn:E1; try (now apply Hsmall);
    destruct (List.length l <=? 128)%nat eqn:E2; try (now apply Hmid);
    cbn [Reference.pairwise_sum]; rewrite E1, E2.
  - split; [exact I|intros; exact I].
  - set (n2 := (List.length l / 2 - (List.length l / 2) mod 8)%nat).
    assert (Ff : Forall summand (firstn n2 l)).
    { rewrite Forall_forall in *. intros x Hx. apply Fl.
      rewrite <- (firstn_skipn n2 l). apply in_or_app. now left. }
    assert (Fs : Forall summand (skipn n2 l)).
    { rewrite Forall_forall in *. intros x Hx. apply Fl.
      rewrite <- (firstn_skipn n2 l). apply in_or_app. now right. }
    destruct (IH _ Ff) as (S1 & L1). destruct (IH _ Fs) as (S2 & L2).
    destruct (add_summand _ _ S1 S2) as (S & La & Lb).
    split; [exact S|]. intros x Hx.
    rewrite <- (firstn_skipn n2 l) in Hx.
    apply in_app_or in Hx as [Hx|Hx].
    + eapply le_sum_trans; [now apply L1|exact La].
    + eapply le_sum_trans; [now apply L2|exact Lb].
Qed.

(** Every square is at most the sum of all. *)
Lemma np_sum_cover l x :
  Forall summand l -> In x l -> le_sum x (Reference.np_sum l).
Proof.
  intros Fl Hx. unfold Reference.np_sum.
  destruct (pairwise_sum_cover (List.length l) l Fl) as (S & L).
  destruct (add_summand Float.zero _ I S) as (_ & _ & Lb).
  eapply le_sum_trans; [now apply L|exact Lb].
Qed.

Lemma value_finite s m e :
  (Exact.value (S754_finite s m e) * Exact.value (S754_finite s m e)
   == F2Q (Zpos m) e * F2Q (Zpos m) e)%Q.
Proof.
  unfold Exact.value, F2Q, pow2. destruct s; [|reflexivity].
  change (Zneg m) with (- Zpos m). rewrite inject_Z_opp. ring.
Qed.

Lemma eps_le_1 : (eps <= 1)%Q.
Proof. change 1%Q with (pow2 0). apply pow2_le. lia. Qed.

Lemma seven_roundings :
  let u := (1 + eps)%Q in (u * u * u * u * u * u * u <= slack)%Q.
Proof. vm_compute. discriminate. Qed.

Lemma float_eps_lower : (pow2 (-20) <= Exact.value Float.eps)%Q.
Proof.
  rewrite eps_value.
  change (Exact.value (S754_finite false 4722366482869645 (-72)))
    with (F2Q 4722366482869645 (-72)).
  apply Qle_trans with (F2Q (2 ^ 52) (-72)); [|apply F2Q_le_same; lia].
  rewrite F2Q_pow by lia. apply Qle_refl.
Qed.

(** ** Validity of the results *)

Lemma div_valid a b : Float.valid (Float.div a b) = true.
Proof.
  unfold Float.valid, Float.div.
  destruct a as [sa|sa| |sa ma ea], b as [sb|sb| |sb mb eb];
    try reflexivity.
  destruct (div_rel sa ma ea sb mb eb)
    as [[-> _]|[(m & e & -> & Hb & _)|[-> _]]]; auto.
Qed.

Lemma sub_valid a b :
  Float.valid a = true -> Float.valid b = true -> Float.valid (Float.sub a b) = true.
Proof.
  unfold Float.valid, Float.sub.
  destruct a as [sa|sa| |sa ma ea], b as [sb|sb| |sb mb eb];
    try reflexivity; cbn [SFsub valid_binary]; auto.
  - destruct sa, sb; reflexivity.
  - destruct sa, sb; reflexivity.
  - intros _ _. apply binary_normalize_valid.
Qed.

Lemma mul_self_summand d : Float.valid d = true -> summand (Float.mul d d).
Proof.
  unfold Float.valid, Float.mul. destruct d as [s|s| |s m e]; cbn [valid_binary].
  - intros _. simpl. now rewrite xorb_nilpotent.
  - intros _. simpl. now rewrite xorb_nilpotent.
  - intros _. exact I.
  - intros Hb.
    destruct (mul_self_rel s m e Hb)
      as [[Hr _]|[(mq & eq & Hr & Hbq & _)|Hr]]; cbv zeta in Hr;
      rewrite Hr; simpl; auto.
Qed.

(** ** The bound on a computed Z-score *)

Lemma sqrt_finite_inv v ms es :
  Float.sqrt v = S754_finite false ms es ->
  exists mv ev, v = S754_finite false mv ev.
Proof.
  unfold Float.sqrt. destruct v as [s|[]| |[] mv ev]; try discriminate.
  eauto.
Qed.

Lemma div_finite_inv a b m e :
  Float.div a b = S754_finite false m e ->
  exists sa ma ea sb mb eb,
    a = S754_finite sa ma ea /\ b = S754_finite sb mb eb /\
    xorb sa sb = false.
Proof.
  unfold Float.div.
  destruct a as [sa|sa| |sa ma ea], b as [sb|sb| |sb mb eb];
    try discriminate.
  intros H. exists sa, ma, ea, sb, mb, eb. split; [reflexivity|].
  split; [reflexivity|].
  destruct (div_rel sa ma ea sb mb eb)
    as [[Hr _]|[(m' & e' & Hr & _)|[Hr _]]]; cbv zeta in Hr;
    unfold Float.prec, Float.emax in *; congruence.
Qed.

Lemma count_rel (l : list float) :
  l <> [] ->
  (exists m e,
     Reference.count l = S754_finite false m e /\
     bounded Float.prec Float.emax m e = true /\
     (inject_Z (Z.of_nat (List.length l)) <= F2Q (Zpos m) e * (1 + eps))%Q /\
     (F2Q (Zpos m) e <= inject_Z (Z.of_nat (List.length l)) * (1 + eps))%Q) \/
  Reference.count l = S754_infinity false.
Proof.
  intros Hne. unfold Reference.count, Float.of_Z.
  destruct (Z.of_nat (List.length l)) as [|p|p] eqn:E.
  - destruct l; [congruence|discriminate].
  - apply of_Z_rel.
  - lia.
Qed.

Section ZScore.

Variable l : list float.
Hypothesis l_valid : Forall (fun a => Float.valid a = true) l.

Lemma squares_summand : Forall summand (squared_deviations l).
Proof.
  unfold squared_deviations. rewrite Forall_forall. intros q Hq.
  apply in_map_iff in Hq as (d & <- & Hd).
  apply in_map_iff in Hd as (a & <- & Ha).
  apply mul_self_summand. apply sub_valid.
  - rewrite Forall_forall in l_valid. auto.
  - apply div_valid.
Qed.

Lemma square_le_sum x :
  In x l ->
  le_sum
    (Float.mul (Float.sub x (Reference.np_mean l))
       (Float.sub x (Reference.np_mean l)))
    (Reference.np_sum (squared_deviations l)).
Proof.
  intros Hx. apply np_sum_cover; [apply squares_summand|].
  unfold squared_deviations. apply in_map_iff.
  exists (Float.sub x (Reference.np_mean l)).
  split; [reflexivity|]. apply in_map_iff. eauto.
Qed.

Lemma z_score_bound x ms es :
  In x l ->
  Reference.np_std l = S754_finite false ms es ->
  Float.ltb (S754_finite false ms es) Float.eps = false ->
  let z :=
    Float.div (Float.sub x (Reference.np_mean l)) (Reference.np_std l) in
  Exact.finite z = true /\
  (Exact.value z * Exact.value z
   <= inject_Z (Z.of_nat (List.length l)) * slack)%Q.
Proof.
  intros Hx Hstd Hguard z. subst z. rewrite Hstd.
  set (n := inject_Z (Z.of_nat (List.length l))).
  assert (Hn1 : (1 <= n)%Q).
  { unfold n. change 1%Q with (inject_Z 1). rewrite <- Zle_Qle.
    destruct l; [contradiction|]. simpl List.length. lia. }
  pose proof one_plus_eps as H1u.
  assert (Hu2 : (1 + eps <= 2)%Q) by (pose proof eps_le_1; lra).
  set (u := (1 + eps)%Q) in *.
  pose proof seven_roundings as H7. cbv zeta in H7. fold u in H7.
  assert (Hslack : (1 <= slack)%Q)
    by (unfold slack; pose proof (pow2_pos (-49)); lra).
  assert (Htiny : (tiny < pow2 (-42))%Q) by (apply pow2_lt; lia).
  (* the standard deviation and what it comes from *)
  unfold Reference.np_std in Hstd.
  destruct (sqrt_finite_inv _ _ _ Hstd) as (mv & ev & Hvar).
  rewrite Hvar in Hstd.
  change (Reference.np_var l)
    with (Float.div (Reference.np_sum (squared_deviations l))
            (Reference.count l)) in Hvar.
  destruct (div_finite_inv _ _ _ _ Hvar)
    as (sS & mS & eS & sN & mN & eN & HS & HN & Hsign).
  assert (Hne : l <> []) by (intros E; rewrite E in Hx; contradiction).
  destruct (count_rel l Hne) as [(mN' & eN' & HN' & HbN & Hn_lo & Hn_hi)|HN'];
    [|congruence].
  rewrite HN in HN'. injection HN' as -> <- <-.
  simpl in Hsign. destruct sS; [discriminate|]. clear Hsign.
  fold n in Hn_lo, Hn_hi.
  (* the guard *)
  assert (Hbs : bounded Float.prec Float.emax ms es = true).
  { pose proof (sqrt_rel mv ev) as H. cbv zeta in H.
    unfold Float.sqrt in Hstd. rewrite Hstd in H.
    destruct H as [H|[(ms' & es' & H & Hb & _)|H]]; try discriminate.
    now injection H as <- <-. }
  assert (Hsv : (pow2 (-20) <= F2Q (Zpos ms) es)%Q).
  { eapply Qle_trans; [apply float_eps_lower|].
    rewrite eps_value in *.
    apply (SFltb_false_value ms es 4722366482869645 (-72) Hbs eq_refl Hguard). }
  set (sv := F2Q (Zpos ms) es) in *.
  assert (Hsv0 : (0 < sv)%Q) by (pose proof (pow2_pos (-20)); lra).
  (* the variance *)
  assert (Hvv : (F2Q (Zpos mv) ev <= (sv * u) * (sv * u) /\
                 sv * sv <= F2Q (Zpos mv) ev * (u * u))%Q).
  { pose proof (sqrt_rel mv ev) as H. cbv zeta in H.
    unfold Float.sqrt in Hstd. rewrite Hstd in H.
    destruct H as [H|[(ms' & es' & H & _ & Hrel)|H]]; try discriminate.
    injection H as <- <-. fold sv in Hrel. fold u in Hrel.
    destruct Hrel as [Hrel|Ht]; [exact Hrel|].
    exfalso. assert (tiny < pow2 (-20))%Q by (apply pow2_lt; lia). lra. }
  destruct Hvv as [Hv_hi Hv_lo].
  set (vv := F2Q (Zpos mv) ev) in *.
  assert (Hvv0 : (pow2 (-42) <= vv)%Q).
  { assert (Hsq : (pow2 (-20) * pow2 (-20) <= sv * sv)%Q).
    { apply Qsquare_le_compat; [|exact Hsv].
      pose proof (pow2_pos (-20)). lra. }
    rewrite <- pow2_add in Hsq. change (-20 + -20) with (-40) in Hsq.
    assert (E : (pow2 (-40) == pow2 (-42) * 4)%Q).
    { change (-40) with (-42 + 2). rewrite pow2_add. reflexivity. }
    assert (Hu4 : (u * u <= 4)%Q) by nra.
    pose proof (pow2_pos (-42)).
    destruct (Qlt_le_dec vv (pow2 (-42))) as [Hlt|]; [exfalso|assumption].
    assert (vv * (u * u) < pow2 (-42) * 4)%Q; [|lra].
    apply Qlt_le_trans with (pow2 (-42) * (u * u))%Q.
    - apply Qmult_lt_compat_r; [nra|exact Hlt].
    - apply Qmult_le_l; lra. }
  (* the sum of squares *)
  set (Sv := F2Q (Zpos mS) eS) in *.
  set (N := F2Q (Zpos mN) eN) in *.
  assert (HN0 : (0 < N)%Q) by (apply F2Q_pos; lia).
  assert (Hdiv : (Sv / N <= vv * u)%Q).
  { pose proof (div_rel false mS eS false mN eN) as H. cbv zeta in H.
    rewrite HS, HN in Hvar. unfold Float.div in Hvar. rewrite Hvar in H.
    destruct H as [[H _]|[(m' & e' & H & _ & Hrel)|[H _]]];
      try discriminate.
    injection H as <- <-. fold vv Sv N u in Hrel.
    destruct Hrel as [[H1 _]|[_ H2]]; [exact H1|].
    exfalso. lra. }
  (* the deviation *)
  pose proof (square_le_sum x Hx) as Hle. rewrite HS in Hle.
  unfold Float.div, Float.sub in *.
  set (d := SFsub Float.prec Float.emax x (Reference.np_mean l)) in *.
  assert (Hd : Float.valid d = true).
  { apply sub_valid; [|apply div_valid].
    rewrite Forall_forall in l_valid. auto. }
  destruct d as [sd|sd| |sd md ed] eqn:Ed.
  - (* no deviation *)
    cbn [SFdiv Exact.finite Exact.value]. split; [reflexivity|].
    apply Qle_trans with 0%Q; [lra|]. apply Qmult_le_0_compat; lra.
  - exfalso. unfold Float.mul in Hle. cbn [SFmul] in Hle.
    rewrite xorb_nilpotent in Hle. exact Hle.
  - exfalso. exact Hle.
  - unfold Float.valid in Hd. cbn [valid_binary] in Hd.
    set (D := F2Q (Zpos md) ed) in *.
    assert (HD0 : (0 < D)%Q) by (apply F2Q_pos; lia).
    (* the square, which the sum reaches *)
    assert (Hsq : (D * D < tiny \/ D * D <= Sv * u)%Q).
    { pose proof (mul_self_rel sd md ed Hd) as H. cbv zeta in H.
      fold D in H. unfold Float.mul in Hle.
      destruct H as [[Hr Ht]|[(mq & eq & Hr & Hbq & Hrel)|Hr]];
        rewrite Hr in Hle; cbn [le_sum] in Hle.
      - now left.
      - destruct Hrel as [Hrel|Ht]; [right|now left].
        destruct Hle as [_ Hle]. fold Sv in Hle.
        apply Qle_trans with (F2Q (Zpos mq) eq * (1 + eps))%Q;
          [exact Hrel|].
        apply Qmult_le_compat_r; [exact Hle|unfold u in *; lra].
      - contradiction. }
    (* the quotient *)
    set (X := (D / sv)%Q).
    assert (HX0 : (0 <= X)%Q).
    { unfold X. apply Qle_shift_div_l; lra. }
    assert (HXX : (X * X * (sv * sv) == D * D)%Q)
      by (unfold X; field; lra).
    assert (Hquot : (X * X <= n * (u * u * u * u * u) /\
                     (forall V : Q, 0 <= V -> V <= X * u ->
                        V * V <= n * slack))%Q).
    { destruct Hsq as [Hsmall|Hbig].
      - assert (HX1 : (X * X <= 1)%Q).
        { destruct (Qlt_le_dec 1 (X * X)) as [Hgt|]; [exfalso|assumption].
          assert (pow2 (-42) * 1 <= X * X * (sv * sv))%Q; [|lra].
          apply Qle_trans with (X * X * pow2 (-42))%Q.
          - rewrite (Qmult_comm (X * X)). apply Qmult_le_l; [|lra].
            apply pow2_pos.
          - apply Qmult_le_l; [lra|].
            assert (Hs2 : (pow2 (-20) * pow2 (-20) <= sv * sv)%Q).
            { apply Qsquare_le_compat; [|exact Hsv].
              pose proof (pow2_pos (-20)). lra. }
            rewrite <- pow2_add in Hs2. change (-20 + -20) with (-40) in Hs2.
            assert (pow2 (-42) <= pow2 (-40))%Q by (apply pow2_le; lia).
            lra. }
        split.
        + apply Qle_trans with 1%Q; [exact HX1|].
          apply Qle_trans with (1 * (1 * 1 * 1 * 1 * 1))%Q; [lra|].
          apply Qmult_le_compat_nonneg; split; try lra.
          repeat (apply Qmult_le_compat_nonneg; split; try lra).
        + intros V HV HVX.
          apply Qle_trans with ((X * u) * (X * u))%Q;
            [now apply Qsquare_le_compat|].
          setoid_replace ((X * u) * (X * u))%Q
            with ((X * X) * (u * u))%Q by ring.
          apply Qle_trans with (1 * (u * u))%Q;
            [apply Qmult_le_compat_r; [exact HX1|nra]|].
          apply Qle_trans with (1 * slack)%Q;
            [|apply Qmult_le_compat_r; lra].
          assert (u * u <= u * u * u * u * u * u * u)%Q; [|lra].
          setoid_replace (u * u * u * u * u * u * u)%Q
            with ((u * u) * (u * u * u * u * u))%Q by ring.
          rewrite <- (Qmult_1_r (u * u)) at 1.
          apply Qmult_le_l; [nra|].
          apply Qle_trans with (1 * 1 * 1 * 1 * 1)%Q; [lra|].
          repeat (apply Qmult_le_compat_nonneg; split; try lra).
      - assert (Hq0 : (D * D <= Sv * u)%Q) by exact Hbig.
        assert (HXle : (X <= D / sv * 1)%Q) by (unfold X; lra).
        destruct (z_chain u D sv Sv Sv N vv n (X * u)
                    ltac:(lra) HD0 Hsv0 HN0 ltac:(nra) ltac:(pose proof (pow2_pos (-42)); lra)
                    Hq0 ltac:(lra) Hdiv Hn_hi Hv_hi ltac:(unfold X; lra))
          as [HDD Hz].
        split.
        + apply Qmult_le_r with (z := (sv * sv)%Q); [nra|].
          rewrite HXX.
          setoid_replace (n * (u * u * u * u * u) * (sv * sv))%Q
            with (sv * sv * (n * (u * u * u * u * u)))%Q by ring.
          exact HDD.
        + intros V HV HVX.
          apply Qle_trans with ((X * u) * (X * u))%Q;
            [now apply Qsquare_le_compat|].
          apply Qle_trans with (n * (u * u * u * u * u * u * u))%Q;
            [exact Hz|].
          apply Qmult_le_l; lra. }
    destruct Hquot as [HXn Hbound].
    (* the Z-score *)
    pose proof (div_rel sd md ed false ms es) as H. cbv zeta in H.
    fold D sv X u in H.
    destruct H as [[Hr _]|[(mz & ez & Hr & Hbz & Hrel)|[Hr Hinf]]];
      rewrite Hr.
    + cbn [Exact.finite Exact.value]. split; [reflexivity|].
      apply Qle_trans with 0%Q; [lra|]. apply Qmult_le_0_compat; lra.
    + split; [reflexivity|]. rewrite value_finite.
      pose proof (F2Q_pos (Zpos mz) ez ltac:(lia)) as HV0.
      destruct Hrel as [[_ Hrel]|[_ Hrel]].
      * apply Hbound; lra.
      * apply Qle_trans with (1 * 1)%Q.
        -- apply Qmult_le_compat_nonneg; split; try lra;
             assert (tiny < 1)%Q
               by (change 1%Q with (pow2 0); apply pow2_lt; lia); lra.
        -- apply Qmult_le_compat_nonneg; split; lra.
    + (* no overflow: the count is a float *)
      exfalso.
      pose proof (bounded_lt_emax _ _ HbN) as HNmax. fold N in HNmax.
      assert (Hbig : (pow2 Float.emax * pow2 Float.emax
                      <= (X * u) * (X * u))%Q).
      { apply Qsquare_le_compat; [|exact Hinf].
        pose proof (pow2_pos Float.emax). lra. }
      assert (Hnn : (n <= pow2 Float.emax * 2)%Q).
      { apply Qle_trans with (N * u)%Q; [exact Hn_lo|].
        apply Qmult_le_compat_nonneg; split; lra. }
      assert (H2 : ((X * u) * (X * u)
                    <= pow2 Float.emax * 2 * (2 * 2 * 2 * 2 * 2 * 2 * 2))%Q).
      { setoid_replace ((X * u) * (X * u))%Q
          with ((X * X) * (u * u))%Q by ring.
        apply Qle_trans with (n * (u * u * u * u * u) * (u * u))%Q;
          [apply Qmult_le_compat_r; [exact HXn|nra]|].
        setoid_replace (n * (u * u * u * u * u) * (u * u))%Q
          with (n * (u * u * u * u * u * u * u))%Q by ring.
        apply Qmult_le_compat_nonneg; split; try lra.
        - repeat (apply Qmult_le_0_compat; try lra).
        - repeat (apply Qmult_le_compat_nonneg; split; try lra);
            repeat (apply Qmult_le_0_compat; try lra). }
      assert (E : (pow2 Float.emax * 2 * (2 * 2 * 2 * 2 * 2 * 2 * 2)
                   == pow2 Float.emax * pow2 8)%Q)
        by (unfold pow2 at 3; simpl; ring).
      rewrite E in H2.
      assert (pow2 8 < pow2 Float.emax)%Q
        by (apply pow2_lt; unfold Float.emax; lia).
      pose proof (pow2_pos Float.emax). nra.
Qed.

End ZScore.

End RoundingFacts.

(** What the guard [np.std(values) < 1e-6] lets through. *)
Lemma std_guard_cases s :
  Float.ltb s Float.eps = false ->
  s = S754_nan \/ s = S754_infinity false \/
  exists m e, s = S754_finite false m e.
Proof.
  rewrite eps_value. destruct s as [[]|[]| |[] m e]; simpl; eauto;
    discriminate.
Qed.

Lemma computed_z_score_bound values z :
  Forall (fun a => Float.valid a = true) values ->
  Float.ltb (Reference.np_std values) Float.eps = false ->
  In z (z_scores Reference.np_mean Reference.np_std values) ->
  z = S754_nan \/
  (Exact.finite z = true /\ Float.valid z = true /\
   (Exact.value z * Exact.value z
    <= inject_Z (Z.of_nat (List.length values)) * Rounding.slack)%Q).
Proof.
  intros Hvalid Hguard Hz. unfold z_scores in Hz.
  apply in_map_iff in Hz as (x & <- & Hx).
  destruct (std_guard_cases _ Hguard) as [E|[E|(ms & es & E)]].
  - left. rewrite E. unfold Float.div.
    now destruct (Float.sub x (Reference.np_mean values)).
  - rewrite E. unfold Float.div.
    destruct (Float.sub x (Reference.np_mean values)) as [s|s| |s m e];
      simpl; auto.
    + right. repeat split; try reflexivity.
      apply Qmult_le_0_compat; [|unfold Rounding.slack, Rounding.pow2].
      * change 0%Q with (inject_Z 0). rewrite <- Zle_Qle. lia.
      * pose proof (Qpower_0_lt 2 (-49) eq_refl). lra.
    + right. repeat split; try reflexivity.
      apply Qmult_le_0_compat; [|unfold Rounding.slack, Rounding.pow2].
      * change 0%Q with (inject_Z 0). rewrite <- Zle_Qle. lia.
      * pose proof (Qpower_0_lt 2 (-49) eq_refl). lra.
  - right. rewrite E in Hguard.
    destruct (z_score_bound values Hvalid x ms es Hx E Hguard) as [Hf Hb].
    split; [exact Hf|]. split; [apply div_valid|exact Hb].
Qed.

(** A Z-score within the bound is no anomaly at a threshold above
    it. *)
Lemma no_anomaly_above t z (bound : Q) :
  Float.valid t = true -> (0 <= Exact.value t)%Q -> (0 < bound)%Q ->
  (bound <= Exact.value t * Exact.value t)%Q ->
  z = S754_nan \/
  (Exact.finite z = true /\ Float.valid z = true /\
   (Exact.value z * Exact.value z <= bound)%Q) ->
  is_anomaly t z = false.
Proof.
  intros Ht Ht0 Hb Hbt Hz. unfold is_anomaly, Float.gtb, Float.abs.
  destruct t as [st|st| |st mt et];
    try (exfalso; cbn [Exact.value] in Hbt; lra).
  destruct st.
  { exfalso. cbn [Exact.value] in Ht0.
    pose proof (F2Q_pos (Zpos mt) et ltac:(lia)) as Hp.
    change (Zneg mt) with (- Zpos mt) in Ht0.
    rewrite inject_Z_opp in Ht0. unfold Rounding.F2Q, Rounding.pow2 in Hp.
    lra. }
  destruct Hz as [->|(Hf & Hv & Hle)]; [reflexivity|].
  destruct z as [sz|sz| |sz mz ez]; try discriminate; [reflexivity|].
  destruct (Float.ltb (S754_finite false mt et)
              (SFabs (S754_finite sz mz ez))) eqn:E; [exfalso|reflexivity].
  cbn [SFabs] in E.
  apply (SFltb_true_value mt et mz ez Ht Hv) in E.
  rewrite value_finite in Hle, Hbt.
  pose proof (F2Q_pos (Zpos mt) et ltac:(lia)) as Hp.
  assert (Rounding.F2Q (Zpos mt) et * Rounding.F2Q (Zpos mt) et
          < Rounding.F2Q (Zpos mz) ez * Rounding.F2Q (Zpos mz) ez)%Q
    by nra.
  lra.
Qed.

Lemma group_values_valid obs sid v :
  Forall (fun o => well_formed o = true) (station_group sid obs) ->
  Forall (fun a => Float.valid a = true)
    (map (fun o => getattr o v)
       (sort_by_timestamp (station_group sid obs))).
Proof.
  intros H. rewrite Forall_forall in *. intros a Ha.
  apply in_map_iff in Ha as (o & <- & Ho).
  apply (proj1 (sort_by_timestamp_In _ _)) in Ho.
  specialize (H o Ho). unfold well_formed in H.
  rewrite forallb_forall in H. apply H. apply variables_In.
Qed.

(** C10, as amended.  For every station group of [n] observations
    whose measurements are binary64 numbers, every Z-score [z] that is
    computed with NumPy's mean and standard deviation is no number or
    has [z^2 <= n * (1 + 2^-49)]; so for every threshold [t >= 0] with
    [t^2 >= n * (1 + 2^-49)] the detector reports nothing for that
    group, and at the default threshold 2.5 it reports nothing for a
    group of at most six observations. *)
Theorem float_z_score_bound obs sid :
  let group := sort_by_timestamp (station_group sid obs) in
  let n := inject_Z (Z.of_nat (List.length group)) in
  Forall (fun o => well_formed o = true) (station_group sid obs) ->
  (forall v z,
     let values := map (fun o => getattr o v) group in
     Float.ltb (Reference.np_std values) Float.eps = false ->
     In z (z_scores Reference.np_mean Reference.np_std values) ->
     z = S754_nan \/
     (Exact.finite z = true /\
      (Exact.value z * Exact.value z <= n * Rounding.slack)%Q)) /\
  (forall t recs,
     Float.valid t = true -> (0 <= Exact.value t)%Q ->
     (n * Rounding.slack <= Exact.value t * Exact.value t)%Q ->
     Reference.detect obs t = Return recs ->
     filter (of_station sid) recs = []) /\
  (forall recs,
     (List.length group <= 6)%nat ->
     Reference.detect obs Sample.threshold = Return recs ->
     filter (of_station sid) recs = []).
Proof.
  intros group n Hwf.
  assert (Hlen : forall v,
            List.length (map (fun o => getattr o v) group)
            = List.length group) by (intros; apply length_map).
  assert (Hz : forall v z,
            Float.ltb (Reference.np_std (map (fun o => getattr o v) group))
              Float.eps = false ->
            In z (z_scores Reference.np_mean Reference.np_std
                    (map (fun o => getattr o v) group)) ->
            z = S754_nan \/
            (Exact.finite z = true /\ Float.valid z = true /\
             (Exact.value z * Exact.value z <= n * Rounding.slack)%Q)).
  { intros v z Hguard Hin.
    pose proof (computed_z_score_bound _ z (group_values_valid obs sid v Hwf)
                  Hguard Hin) as H.
    fold group in H. rewrite Hlen in H. exact H. }
  assert (Hnone : forall t recs,
            Float.valid t = true -> (0 <= Exact.value t)%Q ->
            (n * Rounding.slack <= Exact.value t * Exact.value t)%Q ->
            Reference.detect obs t = Return recs ->
            filter (of_station sid) recs = []).
  { intros t recs Ht Ht0 Hbound Hrun.
    apply detect_Return_spec in Hrun. subst recs.
    rewrite spec_detect_station. unfold spec_station_records.
    fold group.
    destruct (List.length group <? 3)%nat eqn:E3; [reflexivity|].
    apply Nat.ltb_ge in E3.
    assert (Hn : (0 < n * Rounding.slack)%Q).
    { apply Qmult_lt_0_compat.
      - unfold n. change 0%Q with (inject_Z 0). rewrite <- Zlt_Qlt. lia.
      - unfold Rounding.slack, Rounding.pow2.
        pose proof (Qpower_0_lt 2 (-49) eq_refl). lra. }
    apply flat_map_nil. intros v. unfold spec_variable_records.
    destruct (Float.ltb _ Float.eps) eqn:Eg; [reflexivity|].
    rewrite filter_none; [reflexivity|].
    intros [o z] Hp. cbn [snd]. apply in_combine_r in Hp.
    apply (no_anomaly_above t z _ Ht Ht0 Hn Hbound).
    apply (Hz v z); assumption. }
  split; [|split; [exact Hnone|]].
  - intros v z values Hguard Hin.
    destruct (Hz v z Hguard Hin) as [H|(Hf & _ & Hb)]; auto.
  - intros recs Hsix. apply Hnone.
    + reflexivity.
    + vm_compute. discriminate.
    + apply Qle_trans with (6 * Rounding.slack)%Q.
      * apply Qmult_le_compat_r.
        -- unfold n. change 6%Q with (inject_Z 6). rewrite <- Zle_Qle. lia.
        -- unfold Rounding.slack, Rounding.pow2.
           pose proof (Qpower_0_lt 2 (-49) eq_refl). lra.
      * vm_compute. discriminate.
Qed.

Lemma float_z_score_bound_witness :
  Forall (fun o => well_formed o = true)
    (station_group "station_005" FiveReadings.observations) /\
  List.length
    (sort_by_timestamp (station_group "station_005" FiveReadings.observations))
  = 5%nat /\
  (let z := S754_finite false 4503599627370497 (-51) in
   In z (z_scores Reference.np_mean Reference.np_std
           (map (fun o => getattr o TempOut)
              (sort_by_timestamp
                 (station_group "station_005" FiveReadings.observations)))) /\
   (Exact.value z * Exact.value z <= 5 * Rounding.slack)%Q) /\
  Reference.detect FiveReadings.observations Sample.threshold = Return [].
Proof.
  assert (Hwf : Forall (fun o => well_formed o = true)
                  (station_group "station_005" FiveReadings.observations))
    by (repeat constructor).
  assert (Hrun : exists recs,
             Reference.detect FiveReadings.observations Sample.threshold
             = Return recs) by (eexists; vm_compute; reflexivity).
  pose proof (float_z_score_bound FiveReadings.observations "station_005"
                Hwf) as (Hz & _ & Hsix).
  split; [exact Hwf|]. split; [reflexivity|]. split.
  - assert (Hin : In (S754_finite false 4503599627370497 (-51))
                    (z_scores Reference.np_mean Reference.np_std
                       (map (fun o => getattr o TempOut)
                          (sort_by_timestamp
                             (station_group "station_005"
                                FiveReadings.observations)))))
      by (vm_compute; tauto).
    split; [exact Hin|].
    destruct (Hz TempOut _ ltac:(vm_compute; reflexivity) Hin)
      as [H|[_ H]]; [discriminate H|exact H].
  - destruct Hrun as (recs & Hrun). rewrite Hrun. f_equal.
    assert (Hall : filter (of_station "station_005") recs = recs).
    { apply detect_Return_spec in Hrun. subst recs. vm_compute. reflexivity. }
    rewrite <- Hall. apply Hsix; [vm_compute; lia|exact Hrun].
Defined.

(** C10, as stated, fails on float64 numbers.  The group of
    [SevenReadings.observations] has seven observations and the
    threshold is the default, [2.5 >= sqrt (7 - 1)].  The sum of the
    seven temperatures is rounded to [7 * 2^40], so the computed mean
    is [2^40] and the computed Z-score of the last reading is
    [2.6457513110645907], the square root of 7: the detector reports
    it. *)
Lemma seven_readings_anomaly_at_default :
  List.length (station_group "station_012" SevenReadings.observations)
  = 7%nat /\
  (inject_Z 7 - 1
   <= Exact.value Sample.threshold * Exact.value Sample.threshold)%Q /\
  nth 6 (z_scores Reference.np_mean Reference.np_std
           (map (fun o => getattr o TempOut)
              (sort_by_timestamp
                 (station_group "station_012" SevenReadings.observations))))
    Float.zero = SevenReadings.z_score /\
  (inject_Z 7 - 1
   < Exact.value SevenReadings.z_score * Exact.value SevenReadings.z_score)%Q /\
  Float.ltb Sample.threshold SevenReadings.z_score = true /\
  Reference.detect SevenReadings.observations Sample.threshold
  = Return [SevenReadings.anomaly].
Proof.
  split; [reflexivity|]. split; [vm_compute; discriminate|].
  split; [vm_compute; reflexivity|]. split; [vm_compute; reflexivity|].
  split; vm_compute; reflexivity.
Qed.


(** ** The scenarios of the specification, run on the reference
    environment *)

(** Ten observations of one station with one reading of 100 degrees:
    exactly one anomaly, on [temp_out], at the default threshold. *)
Example scenario_outlier :
  Reference.detect Sample.station_001 Sample.threshold
  = Return [Sample.anomaly].
Proof. vm_compute. reflexivity. Qed.

(** All five variables constant across five observations: no anomaly,
    whatever the threshold. *)
Example scenario_constant threshold :
  Reference.detect Sample.constant_station threshold = Return [].
Proof.
  unfold Reference.detect. rewrite detect_total.
  - reflexivity.
  - intros o Ho. unfold Sample.constant_station in Ho. simpl in Ho.
    repeat (destruct Ho as [<-|Ho]; [eexists; vm_compute; reflexivity|]).
    contradiction.
Qed.

(** A station with two observations and a station with ten: anomalies
    of the second station only. *)
Example scenario_two_stations :
  Reference.detect Sample.two_stations Sample.threshold
  = Return [Sample.anomaly] /\
  AnomalyResult.station_id Sample.anomaly = "station_001".
Proof. split; vm_compute; reflexivity. Qed.

(** No observation: the handler answers 400 and no detection runs. *)
Example scenario_empty detector :
  detect_anomalies_with detector Sample.now
    (mkRequest [] 60 18 Sample.threshold)
  = HTTPException 400 "No observations provided".
Proof. reflexivity. Qed.

(** The example request of the source is answered with its anomaly. *)
Example scenario_request :
  match
    detect_anomalies Reference.np_mean Reference.np_std Reference.round2
      Reference.strftime Sample.now Sample.request
  with
  | Response response =>
      status response = "anomalies_found" /\
      total_observations response = 10%nat /\
      total_anomalies response = 1%nat /\
      anomalies response = [Sample.anomaly]
  | HTTPException _ _ => False
  end.
Proof. vm_compute. repeat split; reflexivity. Qed.

(** * Further properties of the code *)

(** ** The grouping loop *)

Lemma dict_append_items k o d :
  Permutation (List.concat (map snd (dict_append k o d)))
    (o :: List.concat (map snd d)).
Proof.
  induction d as [|[k' l] d IH]; simpl; [reflexivity|].
  destruct (String.eqb k k'); simpl.
  - rewrite <- app_assoc. simpl. symmetry. apply Permutation_middle.
  - rewrite IH. symmetry. apply Permutation_middle.
Qed.

Lemma group_into_items obs d :
  Permutation (List.concat (map snd (group_into obs d)))
    (List.concat (map snd d) ++ obs).
Proof.
  unfold group_into. revert d; induction obs as [|o obs IH]; intros d; simpl.
  - now rewrite app_nil_r.
  - rewrite IH, dict_append_items. apply Permutation_middle.
Qed.

(** X1.  The dictionary built by the grouping loop partitions the
    observations: its keys are the station ids in first-seen order,
    without repetition; the group of a key is not empty and holds
    exactly the observations of that station, in arrival order; and
    the groups together hold every observation exactly once. *)
Theorem grouping_partitions obs :
  map fst (group_by_station obs) = first_seen (map station_id obs) /\
  NoDup (map fst (group_by_station obs)) /\
  (forall k l, In (k, l) (group_by_station obs) ->
     l <> [] /\
     l = filter (fun o => String.eqb (station_id o) k) obs) /\
  Permutation (List.concat (map snd (group_by_station obs))) obs.
Proof.
  assert (Hkeys : map fst (group_by_station obs)
                  = first_seen (map station_id obs)).
  { rewrite group_by_station_spec, map_map. simpl. apply map_id. }
  split; [exact Hkeys|]. split; [rewrite Hkeys; apply first_seen_NoDup|].
  split.
  - intros k l Hin. rewrite group_by_station_spec in Hin.
    apply in_map_iff in Hin as (k' & [= <- <-] & Hk).
    split; [now apply stations_In|reflexivity].
  - apply (group_into_items obs []).
Qed.

(** ** How many records a run can return *)

Lemma filter_length_bound {B : Type} (p : B -> bool) l :
  (List.length (filter p l) <= List.length l)%nat.
Proof.
  induction l as [|x l IH]; simpl; [lia|]. destruct (p x); simpl; lia.
Qed.

Section Counting.

Variable np_mean : list float -> float.
Variable np_std : list float -> float.
Variable round2 : float -> float.
Variable strftime : Z -> result string.

Lemma spec_variable_records_length threshold sid sorted v :
  (List.length
     (spec_variable_records np_mean np_std round2 strftime threshold sid
        sorted v) <= List.length sorted)%nat.
Proof.
  unfold spec_variable_records.
  destruct (Float.ltb _ Float.eps); simpl; [lia|].
  rewrite length_map.
  etransitivity; [apply filter_length_bound|].
  rewrite length_combine. lia.
Qed.

Lemma spec_station_records_length threshold obs sid :
  (List.length
     (spec_station_records np_mean np_std round2 strftime threshold obs sid)
   <= 5 * List.length (station_group sid obs))%nat.
Proof.
  unfold spec_station_records.
  destruct (_ <? 3)%nat; [simpl; lia|].
  rewrite <- (sort_by_timestamp_length (station_group sid obs)).
  set (sorted := sort_by_timestamp (station_group sid obs)).
  unfold variables. cbn [flat_map]. rewrite !length_app. cbn [List.length].
  pose proof (fun v => spec_variable_records_length threshold sid sorted v)
    as H.
  pose proof (H TempOut). pose proof (H OutHum). pose proof (H WindSpeed).
  pose proof (H Bar). pose proof (H Rain). lia.
Qed.

Lemma spec_detect_length threshold obs :
  (List.length (spec_detect np_mean np_std round2 strftime obs threshold)
   <= 5 * List.length obs)%nat.
Proof.
  assert (P : Permutation (List.concat (map snd (group_by_station obs))) obs)
    by apply (group_into_items obs []).
  apply Permutation_length in P. rewrite <- P.
  rewrite group_by_station_spec, map_map. cbn [snd].
  unfold spec_detect.
  induction (stations obs) as [|sid ks IH]; simpl; [lia|].
  rewrite !length_app.
  pose proof (spec_station_records_length threshold obs sid). lia.
Qed.

End Counting.

(** X2.  A run returns at most five records for each observation: the
    number of anomalies is at most five times the number of
    observations. *)
Theorem at_most_five_records_per_observation np_mean np_std round2 strftime
  obs threshold recs :
  detect_temporal_anomalies np_mean np_std round2 strftime obs threshold
  = Return recs ->
  (List.length recs <= 5 * List.length obs)%nat.
Proof.
  intros H. apply detect_Return_spec in H. subst recs.
  apply spec_detect_length.
Qed.

Lemma at_most_five_records_per_observation_witness :
  Reference.detect Sample.station_001 Sample.threshold
  = Return [Sample.anomaly] /\
  (List.length [Sample.anomaly] <= 5 * List.length Sample.station_001)%nat.
Proof.
  assert (H : Reference.detect Sample.station_001 Sample.threshold
              = Return [Sample.anomaly]) by (vm_compute; reflexivity).
  split; [exact H|].
  exact (at_most_five_records_per_observation _ _ _ _ _ _ _ H).
Defined.

(** ** The sort of a group *)

Lemma filter_timestamp_In k o (l : list Observation) :
  In o l -> timestamp o = k -> In o (filter (fun o => timestamp o =? k) l).
Proof. intros Hin E. apply filter_In. split; [assumption|now apply Z.eqb_eq]. Qed.

(** Two lists sorted by timestamp that hold, for every timestamp, the
    same observations in the same order are equal. *)
Lemma stable_sorted_unique l1 l2 :
  StronglySorted ts_le l1 -> StronglySorted ts_le l2 ->
  (forall k, filter (fun o => timestamp o =? k) l1 =
             filter (fun o => timestamp o =? k) l2) ->
  l1 = l2.
Proof.
  intros S1; revert l2; induction S1 as [|a l1 S1 IH Ha]; intros l2 S2 H.
  - destruct l2 as [|b l2]; [reflexivity|].
    specialize (H (timestamp b)). simpl in H. rewrite Z.eqb_refl in H.
    discriminate H.
  - destruct l2 as [|b l2].
    { specialize (H (timestamp a)). simpl in H. rewrite Z.eqb_refl in H.
      discriminate H. }
    inversion S2 as [|? ? S2' Hb]; subst.
    assert (E : timestamp a = timestamp b).
    { destruct (Z.eq_dec (timestamp a) (timestamp b)) as [E|N]; [exact E|].
      exfalso.
      assert (Hb1 : In b l1).
      { pose proof (H (timestamp b)) as Hk. simpl in Hk.
        rewrite Z.eqb_refl in Hk.
        assert ((timestamp a =? timestamp b) = false) as Ea
            by now apply Z.eqb_neq.
        rewrite Ea in Hk.
        assert (In b (filter (fun o => timestamp o =? timestamp b) l1))
          as Hin by (rewrite Hk; now left).
        now apply filter_In in Hin. }
      assert (Ha2 : In a l2).
      { pose proof (H (timestamp a)) as Hk. simpl in Hk.
        rewrite Z.eqb_refl in Hk.
        assert ((timestamp b =? timestamp a) = false) as Eb
            by (apply Z.eqb_neq; congruence).
        rewrite Eb in Hk.
        assert (In a (filter (fun o => timestamp o =? timestamp a) l2))
          as Hin by (rewrite <- Hk; now left).
        now apply filter_In in Hin. }
      rewrite Forall_forall in Ha, Hb.
      specialize (Ha _ Hb1). specialize (Hb _ Ha2).
      unfold ts_le in *. lia. }
    assert (a = b) as <-.
    { pose proof (H (timestamp a)) as Hk. simpl in Hk.
      rewrite <- E, Z.eqb_refl in Hk. now injection Hk. }
    f_equal. apply IH; [assumption|].
    intros k. specialize (H k). simpl in H.
    destruct (timestamp a =? k); [now injection H|assumption].
Qed.

(** X3.  The sort of the source is determined by being ascending and
    stable: a list that is ascending by timestamp and keeps, for every
    timestamp, the observations with that timestamp in the order of
    the given list, is the sorted list; in particular, sorting a
    sorted list changes nothing. *)
Theorem stable_sort_unique l l' :
  StronglySorted ts_le l' ->
  (forall k, filter (fun o => timestamp o =? k) l' =
             filter (fun o => timestamp o =? k) l) ->
  l' = sort_by_timestamp l /\
  sort_by_timestamp l' = l'.
Proof.
  intros S H. split.
  - apply stable_sorted_unique; [assumption|apply sort_by_timestamp_sorted|].
    intros k. now rewrite sort_by_timestamp_stable.
  - apply stable_sorted_unique; [apply sort_by_timestamp_sorted|assumption|].
    intros k. apply sort_by_timestamp_stable.
Qed.

Lemma stable_sort_unique_witness :
  rev Tie.arrival = sort_by_timestamp (rev Tie.arrival) /\
  sort_by_timestamp (rev Tie.arrival) = rev Tie.arrival.
Proof.
  apply stable_sort_unique.
  - unfold Tie.arrival, ts_le. simpl.
    repeat (constructor; [|repeat constructor; simpl; lia]). constructor.
  - intros k. reflexivity.
Defined.

(** ** When the detector raises *)

Lemma mapM_Raise_inv {A B : Type} (f : A -> result B) l msg :
  mapM f l = Raise msg -> exists x, In x l /\ f x = Raise msg.
Proof.
  induction l as [|x l IH]; simpl; [discriminate|].
  destruct (f x) as [y|msg'] eqn:E; simpl.
  - destruct (mapM f l) as [ys|msg'']; simpl; [discriminate|].
    intros [= <-]. destruct IH as (x' & Hx' & Hf); [reflexivity|]. eauto.
  - intros [= <-]. eauto.
Qed.

Section Raising.

Variable np_mean : list float -> float.
Variable np_std : list float -> float.
Variable round2 : float -> float.
Variable strftime : Z -> result string.

Lemma emit_record_Raise threshold ts te sid v p msg :
  emit_record round2 strftime threshold ts te sid v p = Raise msg ->
  strftime (timestamp (fst p)) = Raise msg.
Proof.
  unfold emit_record. destruct (is_anomaly threshold (snd p)); [|discriminate].
  destruct (strftime (timestamp (fst p))); simpl; [discriminate|].
  now intros [= <-].
Qed.

Lemma variable_result_Raise threshold ts te sid l v msg :
  variable_result np_mean np_std round2 strftime threshold ts te sid l v
  = Raise msg ->
  exists o, In o l /\ strftime (timestamp o) = Raise msg.
Proof.
  unfold variable_result, check_variable, check_variable_with.
  destruct (Float.ltb _ Float.eps); [discriminate|].
  destruct (Float.gtb _ Float.zero); [|discriminate].
  rewrite find_anomalies_mapM.
  destruct (mapM _ _) as [rss|msg'] eqn:E; simpl; [discriminate|].
  intros [= <-]. apply mapM_Raise_inv in E as ([o z] & Hin & Hp).
  apply emit_record_Raise in Hp. apply in_combine_l in Hin. eauto.
Qed.

Lemma station_result_Raise threshold obs sid msg :
  station_result np_mean np_std round2 strftime threshold obs sid
  = Raise msg ->
  (3 <= List.length (station_group sid obs))%nat /\
  exists o, In o (station_group sid obs) /\
            strftime (timestamp o) = Raise msg.
Proof.
  unfold station_result, check_station.
  set (sorted := sort_by_timestamp (station_group sid obs)).
  assert (Hgroup : forall o, In o sorted -> In o (station_group sid obs))
    by (intros o; apply sort_by_timestamp_In).
  destruct (_ <? 3)%nat eqn:E; [discriminate|].
  pose proof (sorted_nonempty _ E) as Hne.
  apply Nat.ltb_ge in E. unfold sorted in E.
  rewrite sort_by_timestamp_length in E.
  rewrite py_min_timestamp, py_max_timestamp by assumption. cbn [bind].
  destruct (min_timestamp_In _ Hne) as (o1 & Ho1 & E1).
  destruct (max_timestamp_In _ Hne) as (o2 & Ho2 & E2).
  intros H. split; [exact E|].
  destruct (strftime (min_timestamp sorted)) as [ts|m] eqn:Hts; cbn [bind] in H.
  2:{ injection H as <-. exists o1. rewrite E1. auto. }
  destruct (strftime (max_timestamp sorted)) as [te|m] eqn:Hte; cbn [bind] in H.
  2:{ injection H as <-. exists o2. rewrite E2. auto. }
  rewrite (for_each_appends _ _ (check_variable_appends _ _ _ _ threshold ts
             te sid _)) in H.
  destruct (mapM _ variables) as [rss|m] eqn:Hv; simpl in H; [discriminate|].
  injection H as <-. apply mapM_Raise_inv in Hv as (v & _ & Hv).
  apply variable_result_Raise in Hv as (o & Ho & Hraise). eauto.
Qed.

Lemma detect_Raise obs threshold msg :
  detect_temporal_anomalies np_mean np_std round2 strftime obs threshold
  = Raise msg ->
  exists o,
    In o obs /\
    (3 <= List.length (station_group (station_id o) obs))%nat /\
    strftime (timestamp o) = Raise msg.
Proof.
  rewrite detect_mapM.
  destruct (mapM _ (stations obs)) as [rss|m] eqn:E; simpl; [discriminate|].
  intros [= <-]. apply mapM_Raise_inv in E as (sid & _ & Hs).
  apply station_result_Raise in Hs as (Hlen & o & Ho & Hraise).
  apply filter_In in Ho as [Ho Es]. apply String.eqb_eq in Es. subst sid.
  eauto.
Qed.

End Raising.

(** X4.  The detector raises only what formatting a timestamp raises:
    when it raises, [strftime] raises the same message on the
    timestamp of an observation of a station with at least three
    observations; and when [strftime] returns on the timestamps of all
    such observations, the detector returns. *)
Theorem detector_raises_only_from_strftime np_mean np_std round2 strftime
  obs threshold :
  (forall msg,
     detect_temporal_anomalies np_mean np_std round2 strftime obs threshold
     = Raise msg ->
     exists o,
       In o obs /\
       (3 <= List.length (station_group (station_id o) obs))%nat /\
       strftime (timestamp o) = Raise msg) /\
  ((forall o,
      In o obs ->
      (3 <= List.length (station_group (station_id o) obs))%nat ->
      exists s, strftime (timestamp o) = Return s) ->
   exists recs,
     detect_temporal_anomalies np_mean np_std round2 strftime obs threshold
     = Return recs).
Proof.
  split; [intros msg; apply detect_Raise|].
  intros Hok.
  destruct (detect_temporal_anomalies np_mean np_std round2 strftime obs
              threshold) as [recs|msg] eqn:E; [eauto|].
  apply detect_Raise in E as (o & Ho & Hlen & Hraise).
  destruct (Hok o Ho Hlen) as (s & Hs). congruence.
Qed.

Lemma detector_raises_only_from_strftime_witness :
  (exists o,
     In o FarFuture.observations /\
     Reference.strftime (timestamp o) = Raise "year 31690708 is out of range") /\
  exists recs,
    Reference.detect Sample.two_stations Sample.threshold = Return recs.
Proof.
  split.
  - destruct (proj1 (detector_raises_only_from_strftime Reference.np_mean
                       Reference.np_std Reference.round2 Reference.strftime
                       FarFuture.observations Sample.threshold)
                "year 31690708 is out of range")
      as (o & Ho & _ & Hraise).
    + vm_compute. reflexivity.
    + exists o. auto.
  - apply (proj2 (detector_raises_only_from_strftime Reference.np_mean
                    Reference.np_std Reference.round2 Reference.strftime
                    Sample.two_stations Sample.threshold)).
    intros o Ho _. unfold Sample.two_stations, Sample.station_002,
      Sample.station_001 in Ho. simpl in Ho.
    repeat (destruct Ho as [<-|Ho]; [eexists; vm_compute; reflexivity|]).
    contradiction.
Defined.

(** ** What the handler answers *)

(** X5.  Read backwards, an answer of the handler of the source tells
    what happened.  A status 400 means fewer than three observations.
    A status 500 means at least three observations, of which one, of a
    station with at least three observations, has a timestamp that
    [strftime] cannot format: the detail is ["Detection failed: "]
    followed by the message [strftime] raises on it.  A response means
    at least three observations and carries the records that the
    selection by Z-score yields, their number, the number of
    observations, and the status ["anomalies_found"] exactly when
    there is a record. *)
Theorem handler_outcomes np_mean np_std round2 strftime now request :
  let obs := observations request in
  (forall code detail,
     detect_anomalies np_mean np_std round2 strftime now request
     = HTTPException code detail ->
     (code = 400 /\ (List.length obs < 3)%nat) \/
     (code = 500 /\ (3 <= List.length obs)%nat /\
      exists o msg,
        In o obs /\
        (3 <= List.length (station_group (station_id o) obs))%nat /\
        strftime (timestamp o) = Raise msg /\
        detail = ("Detection failed: " ++ msg)%string)) /\
  (forall response,
     detect_anomalies np_mean np_std round2 strftime now request
     = Response response ->
     (3 <= List.length obs)%nat /\
     anomalies response =
       spec_detect np_mean np_std round2 strftime obs (threshold request) /\
     total_observations response = List.length obs /\
     total_anomalies response = List.length (anomalies response) /\
     (total_anomalies response <= 5 * total_observations response)%nat /\
     (status response = "anomalies_found" /\ anomalies response <> [] \/
      status response = "no_anomalies" /\ anomalies response = [])).
Proof.
  intros obs. subst obs.
  unfold detect_anomalies, detect_anomalies_with, build_response.
  destruct (observations request) as [|o obs] eqn:Eobs.
  - split; [|discriminate].
    intros code detail [= <- <-]. left. simpl. split; [reflexivity|lia].
  - destruct (_ <? 3)%nat eqn:E.
    + split; [|discriminate].
      intros code detail [= <- <-]. left. apply Nat.ltb_lt in E. auto.
    + apply Nat.ltb_ge in E.
      destruct (detect_temporal_anomalies np_mean np_std round2 strftime
                  (o :: obs) (threshold request)) as [recs|msg] eqn:Ed;
        cbn [bind].
      * split.
        { destruct (0 <? List.length recs)%nat; discriminate. }
        intros response H.
        pose proof (detect_Return_spec _ _ _ _ _ _ _ Ed) as Hspec.
        pose proof (spec_detect_length np_mean np_std round2 strftime
                      (threshold request) (o :: obs)) as Hbound.
        rewrite <- Hspec in Hbound.
        destruct recs as [|r recs]; cbn in H; injection H as <-;
          cbn [anomalies total_observations total_anomalies status];
          repeat split; auto.
        left. split; [reflexivity|discriminate].
      * split; [|discriminate].
        intros code detail [= <- <-]. right.
        apply detect_Raise in Ed as (o' & Ho & Hlen & Hraise).
        repeat split; [exact E|]. exists o', msg. auto.
Qed.

Lemma handler_outcomes_witness :
  detect_anomalies Reference.np_mean Reference.np_std Reference.round2
    Reference.strftime Sample.now FarFuture.request
  = HTTPException 500 "Detection failed: year 31690708 is out of range" /\
  (exists o,
     In o FarFuture.observations /\
     Reference.strftime (timestamp o)
     = Raise "year 31690708 is out of range") /\
  exists response,
    detect_anomalies Reference.np_mean Reference.np_std Reference.round2
      Reference.strftime Sample.now Sample.request = Response response /\
    anomalies response = [Sample.anomaly] /\
    total_anomalies response = 1%nat /\
    status response = "anomalies_found".
Proof.
  assert (H500 : detect_anomalies Reference.np_mean Reference.np_std
                   Reference.round2 Reference.strftime Sample.now
                   FarFuture.request
                 = HTTPException 500
                     "Detection failed: year 31690708 is out of range")
    by (vm_compute; reflexivity).
  split; [exact H500|]. split.
  - destruct (proj1 (handler_outcomes Reference.np_mean Reference.np_std
                       Reference.round2 Reference.strftime Sample.now
                       FarFuture.request) _ _ H500)
      as [[H _]|(_ & _ & o & msg & Ho & _ & Hraise & Hmsg)].
    + discriminate H.
    + exists o. split; [exact Ho|].
      injection Hmsg as <-. exact Hraise.
  - destruct (detect_anomalies Reference.np_mean Reference.np_std
                Reference.round2 Reference.strftime Sample.now Sample.request)
      as [response|code detail] eqn:E; [|vm_compute in E; discriminate E].
    exists response. split; [reflexivity|].
    destruct (proj2 (handler_outcomes Reference.np_mean Reference.np_std
                       Reference.round2 Reference.strftime Sample.now
                       Sample.request) response E)
      as (_ & Ha & _ & Hn & _ & Hs).
    assert (Hrecs : anomalies response = [Sample.anomaly]).
    { rewrite Ha. vm_compute. reflexivity. }
    split; [exact Hrecs|]. split; [now rewrite Hn, Hrecs|].
    destruct Hs as [[Hs _]|[_ Hs]]; [exact Hs|].
    rewrite Hrecs in Hs. discriminate Hs.
Defined.

(** X6.  On a request of at least three observations whose timestamps
    can all be formatted, the handler of the source answers with a
    response and no error; its anomaly list is the one the algorithm
    of the specification yields, and its number of anomalies is at most
    five times its number of observations. *)
Theorem handler_answers np_mean np_std round2 strftime now request :
  (3 <= List.length (observations request))%nat ->
  (forall o, In o (observations request) ->
     formattable strftime (timestamp o)) ->
  exists response,
    detect_anomalies np_mean np_std round2 strftime now request
    = Response response /\
    anomalies response =
      spec_detect np_mean np_std round2 strftime (observations request)
        (threshold request) /\
    (total_anomalies response <= 5 * total_observations response)%nat.
Proof.
  intros Hlen Hfmt.
  pose proof (detect_total np_mean np_std round2 strftime
                (observations request) (threshold request) Hfmt) as Hd.
  unfold detect_anomalies, detect_anomalies_with, build_response.
  destruct (observations request) as [|o obs] eqn:Eobs; [simpl in Hlen; lia|].
  apply Nat.ltb_ge in Hlen. rewrite Hlen, Hd. cbn [bind].
  set (recs := spec_detect np_mean np_std round2 strftime (o :: obs)
                 (threshold request)).
  pose proof (spec_detect_length np_mean np_std round2 strftime
                (threshold request) (o :: obs)) as Hbound.
  fold recs in Hbound.
  destruct (0 <? List.length recs)%nat; eexists; repeat split; exact Hbound.
Qed.

Lemma handler_answers_witness :
  exists response,
    detect_anomalies Reference.np_mean Reference.np_std Reference.round2
      Reference.strftime Sample.now Sample.request = Response response /\
    (total_anomalies response <= 5 * total_observations response)%nat.
Proof.
  destruct (handler_answers Reference.np_mean Reference.np_std
              Reference.round2 Reference.strftime Sample.now Sample.request)
    as (response & H & _ & Hbound).
  - vm_compute. lia.
  - intros o Ho. unfold Sample.request, Sample.station_001 in Ho. simpl in Ho.
    repeat (destruct Ho as [<-|Ho]; [eexists; vm_compute; reflexivity|]).
    contradiction.
  - exists response. auto.
Defined.

(** ** What a record stands for *)

(** X7.  No record is spurious: every record of the output reports an
    observation of the input, of a station with at least three
    observations, for a tracked variable whose standard deviation over
    the sorted group is at least [1e-6]; the Z-score [z] of that
    observation has [|z| > threshold], and the record carries the
    station id of the observation, the name of the variable, the
    formatted timestamp, the rounded value and the rounded [z]. *)
Theorem records_report_anomalous_observations np_mean np_std round2 strftime
  obs threshold recs r :
  detect_temporal_anomalies np_mean np_std round2 strftime obs threshold
  = Return recs ->
  In r recs ->
  exists o v z,
    let sorted :=
      sort_by_timestamp (station_group (station_id o) obs) in
    let values := map (fun o => getattr o v) sorted in
    In o obs /\
    (3 <= List.length (station_group (station_id o) obs))%nat /\
    Float.leb Float.eps (np_std values) = true /\
    In (o, z) (combine sorted (z_scores np_mean np_std values)) /\
    is_anomaly threshold z = true /\
    AnomalyResult.station_id r = station_id o /\
    AnomalyResult.variable r = var_name v /\
    strftime (timestamp o) = Return (AnomalyResult.anomaly_timestamp r) /\
    AnomalyResult.anomaly_value r = round2 (getattr o v) /\
    AnomalyResult.z_score r = round2 z.
Proof.
  intros H Hr.
  pose proof (detect_Return_spec _ _ _ _ _ _ _ H) as Hspec.
  rewrite Hspec in Hr.
  apply spec_detect_In in Hr as (sid & v & [o z] & Hlen & E1 & Hp & Ha & ->).
  cbn [fst snd] in *.
  set (sorted := sort_by_timestamp (station_group sid obs)) in *.
  assert (Ho : In o (station_group sid obs)).
  { apply sort_by_timestamp_In. now apply in_combine_l in Hp. }
  apply filter_In in Ho as [Ho Es]. apply String.eqb_eq in Es.
  assert (Hin : In sid (stations obs)).
  { apply stations_In. destruct (station_group sid obs); [simpl in Hlen; lia|].
    discriminate. }
  destruct (detect_station_returns _ _ _ _ _ _ _ _ H Hin) as (rs & Hrs).
  assert (E : (List.length sorted <? 3)%nat = false).
  { apply Nat.ltb_ge. unfold sorted. now rewrite sort_by_timestamp_length. }
  destruct (station_result_formats _ _ _ _ _ _ _ _ Hrs E)
    as (ts & te & _ & _ & Hv).
  fold sorted in Hv. destruct (Hv v) as (rv & Hrv).
  destruct (variable_result_formats _ _ _ _ _ _ _ _ _ _ _ (o, z) Hrv E1 Hp Ha)
    as (s & Hs).
  cbn [fst] in Hs.
  assert (E2 : Float.gtb
                 (np_std (map (fun o => getattr o v) sorted)) Float.zero
               = true).
  { destruct (Float.gtb _ Float.zero) eqn:E2; [reflexivity|].
    apply guards_nan in E2; [|assumption].
    apply in_combine_r in Hp. unfold z_scores in Hp. rewrite E2 in Hp.
    apply in_map_iff in Hp as (x & Hx & _).
    rewrite <- Hx, is_anomaly_div_nan in Ha. discriminate. }
  exists o, v, z. rewrite Es. fold sorted.
  cbn [record_of AnomalyResult.station_id AnomalyResult.variable
         AnomalyResult.anomaly_timestamp AnomalyResult.anomaly_value
         AnomalyResult.z_score fst snd].
  rewrite (formatted_Return _ _ _ Hs).
  repeat split; try assumption; try reflexivity.
  now apply guards_divisor.
Qed.

Lemma records_report_anomalous_observations_witness :
  exists o v z,
    In o Sample.station_001 /\
    is_anomaly Sample.threshold z = true /\
    AnomalyResult.anomaly_value Sample.anomaly
    = Reference.round2 (getattr o v) /\
    AnomalyResult.z_score Sample.anomaly = Reference.round2 z.
Proof.
  assert (H : Reference.detect Sample.station_001 Sample.threshold
              = Return [Sample.anomaly]) by (vm_compute; reflexivity).
  destruct (records_report_anomalous_observations _ _ _ _ _ _ _
              Sample.anomaly H (or_introl eq_refl))
    as (o & v & z & Ho & _ & _ & _ & Ha & _ & _ & _ & Hval & Hz).
  exists o, v, z. auto.
Defined.

(** ** Stations and variables do not influence each other *)

(** X8.  The records of a station depend on the observations of that
    station only: two runs on inputs that hold the same observations
    of a station, in the same order, return the same records for it,
    whatever the observations of the other stations are. *)
Theorem station_records_depend_on_its_group np_mean np_std round2 strftime
  obs obs' threshold recs recs' sid :
  station_group sid obs = station_group sid obs' ->
  detect_temporal_anomalies np_mean np_std round2 strftime obs threshold
  = Return recs ->
  detect_temporal_anomalies np_mean np_std round2 strftime obs' threshold
  = Return recs' ->
  filter (of_station sid) recs = filter (of_station sid) recs'.
Proof.
  intros Hsame H H'.
  apply detect_Return_spec in H, H'. subst recs recs'.
  rewrite !spec_detect_station. unfold spec_station_records.
  now rewrite Hsame.
Qed.

Lemma station_records_depend_on_its_group_witness :
  station_group "station_001" Sample.station_001
  = station_group "station_001" Sample.two_stations /\
  Reference.detect Sample.station_001 Sample.threshold
  = Return [Sample.anomaly] /\
  Reference.detect Sample.two_stations Sample.threshold
  = Return [Sample.anomaly] /\
  filter (of_station "station_001") [Sample.anomaly]
  = filter (of_station "station_001") [Sample.anomaly].
Proof.
  assert (Hsame : station_group "station_001" Sample.station_001
                  = station_group "station_001" Sample.two_stations)
    by (vm_compute; reflexivity).
  assert (H : Reference.detect Sample.station_001 Sample.threshold
              = Return [Sample.anomaly]) by (vm_compute; reflexivity).
  assert (H' : Reference.detect Sample.two_stations Sample.threshold
               = Return [Sample.anomaly]) by (vm_compute; reflexivity).
  split; [exact Hsame|]. split; [exact H|]. split; [exact H'|].
  exact (station_records_depend_on_its_group Reference.np_mean
           Reference.np_std Reference.round2 Reference.strftime
           Sample.station_001 Sample.two_stations Sample.threshold
           [Sample.anomaly] [Sample.anomaly] "station_001" Hsame H H').
Defined.

Lemma filter_flat_map {A B : Type} (p : B -> bool) (F : A -> list B) l :
  filter p (flat_map F l) = flat_map (fun x => filter p (F x)) l.
Proof.
  induction l as [|x l IH]; simpl; [reflexivity|].
  now rewrite filter_app, IH.
Qed.

Lemma combine_map_l {A A' B : Type} (f : A -> A') (l : list A) (zs : list B) :
  combine (map f l) zs = map (fun p => (f (fst p), snd p)) (combine l zs).
Proof.
  revert zs; induction l as [|a l IH]; intros [|z zs]; simpl;
    try reflexivity.
  now rewrite IH.
Qed.

Lemma filter_map_snd {A A' B : Type} (g : A * B -> A' * B) (p : B -> bool)
  (l : list (A * B)) :
  (forall q, snd (g q) = snd q) ->
  filter (fun q => p (snd q)) (map g l) =
  map g (filter (fun q => p (snd q)) l).
Proof.
  intros Hg. induction l as [|q l IH]; simpl; [reflexivity|].
  rewrite Hg. destruct (p (snd q)); simpl; now rewrite IH.
Qed.

Section Relabelling.

(** A change of the observations that keeps the station, the timestamp
    and the variable [v]. *)
Variable f : Observation -> Observation.
Variable v : Var.
Hypothesis f_station : forall o, station_id (f o) = station_id o.
Hypothesis f_timestamp : forall o, timestamp (f o) = timestamp o.
Hypothesis f_value : forall o, getattr (f o) v = getattr o v.

Variable np_mean : list float -> float.
Variable np_std : list float -> float.
Variable round2 : float -> float.
Variable strftime : Z -> result string.

Lemma station_group_map sid obs :
  station_group sid (map f obs) = map f (station_group sid obs).
Proof.
  unfold station_group. induction obs as [|o obs IH]; simpl; [reflexivity|].
  rewrite f_station. destruct (String.eqb (station_id o) sid); simpl;
    now rewrite IH.
Qed.

Lemma insert_by_map x l :
  insert_by (f x) (map f l) = map f (insert_by x l).
Proof.
  induction l as [|y l IH]; simpl; [reflexivity|].
  rewrite !f_timestamp. destruct (timestamp x <=? timestamp y); simpl;
    [reflexivity|now rewrite IH].
Qed.

Lemma sort_by_timestamp_map l :
  sort_by_timestamp (map f l) = map f (sort_by_timestamp l).
Proof.
  induction l as [|x l IH]; simpl; [reflexivity|].
  now rewrite IH, insert_by_map.
Qed.

Lemma timestamps_map l : map timestamp (map f l) = map timestamp l.
Proof. rewrite map_map. apply map_ext. exact f_timestamp. Qed.

Lemma stations_map obs : stations (map f obs) = stations obs.
Proof.
  unfold stations. f_equal. rewrite map_map. apply map_ext. exact f_station.
Qed.

Lemma spec_variable_records_map threshold sid sorted :
  spec_variable_records np_mean np_std round2 strftime threshold sid
    (map f sorted) v =
  spec_variable_records np_mean np_std round2 strftime threshold sid
    sorted v.
Proof.
  unfold spec_variable_records.
  assert (Hvalues : map (fun o => getattr o v) (map f sorted)
                    = map (fun o => getattr o v) sorted)
    by (rewrite map_map; apply map_ext; exact f_value).
  rewrite Hvalues.
  destruct (Float.ltb _ Float.eps); [reflexivity|].
  rewrite combine_map_l, filter_map_snd by reflexivity.
  rewrite map_map. apply map_ext. intros [o z].
  unfold record_of, min_timestamp, max_timestamp. cbn [fst snd].
  now rewrite timestamps_map, f_timestamp, f_value.
Qed.

Lemma spec_detect_variable_map threshold obs :
  filter (of_variable v)
    (spec_detect np_mean np_std round2 strftime (map f obs) threshold) =
  filter (of_variable v)
    (spec_detect np_mean np_std round2 strftime obs threshold).
Proof.
  unfold spec_detect. rewrite stations_map, !filter_flat_map.
  apply flat_map_ext. intros sid.
  destruct (Nat.lt_ge_cases (List.length (station_group sid obs)) 3)
    as [Hlen|Hlen].
  - rewrite !spec_station_records_absent; try assumption; [reflexivity|].
    now rewrite station_group_map, length_map.
  - rewrite !spec_station_variable; try assumption.
    + now rewrite station_group_map, sort_by_timestamp_map,
        spec_variable_records_map.
    + now rewrite station_group_map, length_map.
Qed.

End Relabelling.

(** X9.  The records of a variable depend on the values of that
    variable only: changing the observations in a way that keeps
    their station, their timestamp and their value of the variable
    (so changing the other four measurements at will) leaves the
    records of that variable as they are. *)
Theorem variable_records_depend_on_its_values np_mean np_std round2 strftime
  (f : Observation -> Observation) v obs threshold recs recs' :
  (forall o, station_id (f o) = station_id o) ->
  (forall o, timestamp (f o) = timestamp o) ->
  (forall o, getattr (f o) v = getattr o v) ->
  detect_temporal_anomalies np_mean np_std round2 strftime obs threshold
  = Return recs ->
  detect_temporal_anomalies np_mean np_std round2 strftime (map f obs)
    threshold = Return recs' ->
  filter (of_variable v) recs' = filter (of_variable v) recs.
Proof.
  intros Hs Ht Hv H H'.
  apply detect_Return_spec in H, H'. subst recs recs'.
  now apply spec_detect_variable_map.
Qed.

Lemma variable_records_depend_on_its_values_witness :
  Reference.detect Sample.station_001 Sample.threshold
  = Return [Sample.anomaly] /\
  exists recs',
    Reference.detect (map Variation.square_humidity Sample.station_001)
      Sample.threshold = Return recs' /\
    filter (of_variable TempOut) recs'
    = filter (of_variable TempOut) [Sample.anomaly].
Proof.
  assert (H : Reference.detect Sample.station_001 Sample.threshold
              = Return [Sample.anomaly]) by (vm_compute; reflexivity).
  split; [exact H|].
  eexists. split; [vm_compute; reflexivity|].
  refine (variable_records_depend_on_its_values _ _ _ _
            Variation.square_humidity TempOut _ _ _ _
            (fun _ => eq_refl) (fun _ => eq_refl) (fun _ => eq_refl) H _).
  vm_compute. reflexivity.
Defined.

(** ** Thresholds that nothing exceeds *)

Lemma is_anomaly_unordered t z :
  t = S754_nan \/ t = S754_infinity false -> is_anomaly t z = false.
Proof.
  unfold is_anomaly, Float.gtb, Float.ltb, Float.abs, SFltb.
  intros [->| ->]; [reflexivity|]. now destruct z as [| | |].
Qed.

Lemma spec_detect_nothing np_mean np_std round2 strftime obs threshold :
  (forall z, is_anomaly threshold z = false) ->
  spec_detect np_mean np_std round2 strftime obs threshold = [].
Proof.
  intros Hno. unfold spec_detect. apply flat_map_nil. intros sid.
  unfold spec_station_records. destruct (_ <? 3)%nat; [reflexivity|].
  apply flat_map_nil. intros v. unfold spec_variable_records.
  destruct (Float.ltb _ Float.eps); [reflexivity|].
  rewrite filter_none; [reflexivity|]. intros p _. apply Hno.
Qed.

(** X10.  A threshold that is not a number, or is plus infinity,
    reports nothing: the comparison [|z| > threshold] is false for
    every Z-score, so the run returns the empty list. *)
Theorem unordered_threshold_reports_nothing np_mean np_std round2 strftime
  obs threshold recs :
  threshold = S754_nan \/ threshold = S754_infinity false ->
  detect_temporal_anomalies np_mean np_std round2 strftime obs threshold
  = Return recs ->
  recs = [].
Proof.
  intros Ht H. apply detect_Return_spec in H. subst recs.
  apply spec_detect_nothing. intros z. now apply is_anomaly_unordered.
Qed.

Lemma unordered_threshold_reports_nothing_witness :
  Reference.detect Sample.station_001 S754_nan = Return [].
Proof.
  assert (H : exists recs,
             Reference.detect Sample.station_001 S754_nan = Return recs).
  { vm_compute. eexists. reflexivity. }
  destruct H as (recs & H).
  rewrite H. f_equal.
  exact (unordered_threshold_reports_nothing _ _ _ _ _ _ _
           (or_introl eq_refl) H).
Defined.

(** ** Batches of different stations *)

Lemma mapM_app {A B : Type} (f : A -> result B) l1 l2 :
  mapM f (l1 ++ l2) =
  (ys1 <- mapM f l1 ;; ys2 <- mapM f l2 ;; Return (ys1 ++ ys2)).
Proof.
  induction l1 as [|x l1 IH]; simpl.
  - now destruct (mapM f l2).
  - destruct (f x); simpl; [|reflexivity]. rewrite IH.
    destruct (mapM f l1); simpl; [|reflexivity].
    now destruct (mapM f l2).
Qed.

Lemma first_seen_app_disjoint l1 l2 :
  (forall k, In k l1 -> ~ In k l2) ->
  first_seen (l1 ++ l2) = first_seen l1 ++ first_seen l2.
Proof.
  induction l1 as [|k l1 IH]; simpl; intros Hd; [reflexivity|].
  rewrite IH by (intros; apply Hd; now right).
  rewrite filter_app. f_equal. f_equal.
  apply filter_all. intros k' Hk'.
  apply (proj1 (first_seen_In _ _)) in Hk'.
  apply negb_true_iff, String.eqb_neq. intros E. subst k'.
  exact (Hd k (or_introl eq_refl) Hk').
Qed.

Section Batches.

Variable np_mean : list float -> float.
Variable np_std : list float -> float.
Variable round2 : float -> float.
Variable strftime : Z -> result string.

Variables obs1 obs2 : list Observation.
Hypothesis disjoint :
  forall o1 o2, In o1 obs1 -> In o2 obs2 -> station_id o1 <> station_id o2.

Lemma station_group_left sid :
  In sid (stations obs1) -> station_group sid (obs1 ++ obs2)
                            = station_group sid obs1.
Proof.
  intros Hin. unfold station_group at 1. rewrite filter_app.
  fold (station_group sid obs1) (station_group sid obs2).
  rewrite (station_group_absent sid obs2); [apply app_nil_r|].
  intros H2. apply in_map_iff in H2 as (o2 & E2 & Ho2).
  apply (proj1 (first_seen_In _ _)) in Hin.
  apply in_map_iff in Hin as (o1 & E1 & Ho1).
  apply (disjoint o1 o2 Ho1 Ho2). congruence.
Qed.

Lemma station_group_right sid :
  In sid (stations obs2) -> station_group sid (obs1 ++ obs2)
                            = station_group sid obs2.
Proof.
  intros Hin. unfold station_group at 1. rewrite filter_app.
  fold (station_group sid obs1) (station_group sid obs2).
  rewrite (station_group_absent sid obs1); [reflexivity|].
  intros H1. apply in_map_iff in H1 as (o1 & E1 & Ho1).
  apply (proj1 (first_seen_In _ _)) in Hin.
  apply in_map_iff in Hin as (o2 & E2 & Ho2).
  apply (disjoint o1 o2 Ho1 Ho2). congruence.
Qed.

Lemma stations_app :
  stations (obs1 ++ obs2) = stations obs1 ++ stations obs2.
Proof.
  unfold stations. rewrite map_app. apply first_seen_app_disjoint.
  intros k H1 H2.
  apply in_map_iff in H1 as (o1 & E1 & Ho1).
  apply in_map_iff in H2 as (o2 & E2 & Ho2).
  apply (disjoint o1 o2 Ho1 Ho2). congruence.
Qed.

Lemma detect_app threshold :
  detect_temporal_anomalies np_mean np_std round2 strftime (obs1 ++ obs2)
    threshold =
  (r1 <- detect_temporal_anomalies np_mean np_std round2 strftime obs1
           threshold ;;
   r2 <- detect_temporal_anomalies np_mean np_std round2 strftime obs2
           threshold ;;
   Return (r1 ++ r2)).
Proof.
  rewrite !detect_mapM, stations_app, mapM_app.
  rewrite (mapM_ext_in
             (station_result np_mean np_std round2 strftime threshold
                (obs1 ++ obs2))
             (station_result np_mean np_std round2 strftime threshold obs1)
             (stations obs1)).
  2:{ intros sid Hin. unfold station_result.
      now rewrite (station_group_left sid Hin). }
  rewrite (mapM_ext_in
             (station_result np_mean np_std round2 strftime threshold
                (obs1 ++ obs2))
             (station_result np_mean np_std round2 strftime threshold obs2)
             (stations obs2)).
  2:{ intros sid Hin. unfold station_result.
      now rewrite (station_group_right sid Hin). }
  destruct (mapM _ (stations obs1)) as [rss1|]; simpl; [|reflexivity].
  destruct (mapM _ (stations obs2)) as [rss2|]; simpl; [|reflexivity].
  now rewrite concat_app.
Qed.

End Batches.

(** X11.  Batches of different stations compose: when no station has
    observations in both lists, the run on their concatenation is the
    run on the first followed by the run on the second; it returns
    the records of the first followed by those of the second, and
    raises what the first of the two that raises does. *)
Theorem disjoint_batches_compose np_mean np_std round2 strftime
  obs1 obs2 threshold :
  (forall o1 o2, In o1 obs1 -> In o2 obs2 ->
     station_id o1 <> station_id o2) ->
  detect_temporal_anomalies np_mean np_std round2 strftime (obs1 ++ obs2)
    threshold =
  (r1 <- detect_temporal_anomalies np_mean np_std round2 strftime obs1
           threshold ;;
   r2 <- detect_temporal_anomalies np_mean np_std round2 strftime obs2
           threshold ;;
   Return (r1 ++ r2)).
Proof. intros Hd. now apply detect_app. Qed.

Lemma disjoint_batches_compose_witness :
  Reference.detect (Sample.station_002 ++ Sample.station_001)
    Sample.threshold =
  (r1 <- Reference.detect Sample.station_002 Sample.threshold ;;
   r2 <- Reference.detect Sample.station_001 Sample.threshold ;;
   Return (r1 ++ r2)).
Proof.
  apply disjoint_batches_compose.
  intros o1 o2 H1 H2.
  assert (E1 : station_id o1 = "station_002").
  { unfold Sample.station_002 in H1. simpl in H1.
    repeat (destruct H1 as [<-|H1]; [reflexivity|]). contradiction. }
  assert (E2 : station_id o2 = "station_001").
  { unfold Sample.station_001 in H2. simpl in H2.
    repeat (destruct H2 as [<-|H2]; [reflexivity|]). contradiction. }
  rewrite E1, E2. discriminate.
Defined.

(** ** The test data endpoint *)

Section TestDataFacts.

Import TestData.

Variable list_of_set : list json -> list json.

Lemma station_of_Return obs id :
  station_of obs = Some id ->
  (x <- py_getitem obs "station_id" ;; py_hash x) = Return id.
Proof.
  unfold station_of, py_getitem. destruct obs as [| | | | | |d];
    try discriminate.
  destruct (dict_get "station_id" d) as [x|]; [|discriminate].
  destruct x; intros [= <-]; reflexivity.
Qed.

Lemma station_of_Return_inv obs id :
  (x <- py_getitem obs "station_id" ;; py_hash x) = Return id ->
  station_of obs = Some id.
Proof.
  unfold station_of, py_getitem. destruct obs as [| | | | | |d];
    try discriminate.
  destruct (dict_get "station_id" d) as [x|]; [|discriminate].
  destruct x; simpl; intros [= <-]; reflexivity.
Qed.

Lemma datetime_of_Return obs x :
  datetime_of obs = Some x -> py_getitem obs "datetime" = Return x.
Proof.
  unfold datetime_of, py_getitem. destruct obs as [| | | | | |d];
    try discriminate.
  now intros ->.
Qed.

Lemma datetime_of_Return_inv obs x :
  py_getitem obs "datetime" = Return x -> datetime_of obs = Some x.
Proof.
  unfold datetime_of, py_getitem. destruct obs as [| | | | | |d];
    try discriminate.
  destruct (dict_get "datetime" d); [now intros [= <-]|discriminate].
Qed.

Lemma station_ids_Return items ids :
  Forall2 (fun obs id => station_of obs = Some id) items ids ->
  mapM (fun obs => x <- py_getitem obs "station_id" ;; py_hash x) items
  = Return ids.
Proof.
  intros H. apply mapM_Return_Forall2.
  eapply Forall2_impl; [|exact H]. intros obs id. apply station_of_Return.
Qed.

End TestDataFacts.

(** X12.  When the test file holds an array of objects that each bind
    ["station_id"] to a value a set can hold, and whose first and last
    object bind ["datetime"], the endpoint returns: the count is the
    length of the array, the stations are the set of the station ids,
    the time range runs from the first to the last datetime (and is
    null on both ends for the empty array), and the observations are
    the array, unchanged.  Conversely, on an array the endpoint returns
    in no other case. *)
Theorem test_data_served list_of_set items :
  let start :=
    match items with
    | [] => Some TestData.JNull
    | x :: _ => TestData.datetime_of x
    end in
  let finish :=
    match rev items with
    | [] => Some TestData.JNull
    | x :: _ => TestData.datetime_of x
    end in
  (forall ids a b,
     Forall2 (fun obs id => TestData.station_of obs = Some id) items ids ->
     start = Some a -> finish = Some b ->
     TestData.get_test_data list_of_set (TestData.Loaded (TestData.JList items))
     = TestData.Returned
         (TestData.mkResponse
            "Sample test data for 10 stations, 60 time points each"
            (List.length items) (list_of_set ids) a b (TestData.JList items)))
  /\
  (forall r,
     TestData.get_test_data list_of_set (TestData.Loaded (TestData.JList items))
     = TestData.Returned r ->
     exists ids,
       Forall2 (fun obs id => TestData.station_of obs = Some id) items ids /\
       TestData.stations r = list_of_set ids /\
       TestData.total_observations r = List.length items /\
       TestData.observations r = TestData.JList items /\
       start = Some (TestData.time_range_start r) /\
       finish = Some (TestData.time_range_end r)).
Proof.
  intros start finish. split.
  - intros ids a b Hids Ha Hb.
    unfold TestData.get_test_data, TestData.build. cbn [TestData.py_len
      TestData.py_iter bind].
    rewrite (station_ids_Return items ids Hids). cbn [bind].
    unfold TestData.py_bool, TestData.py_first, TestData.py_last.
    subst start finish.
    destruct items as [|x items].
    + cbn in *. injection Ha as <-. injection Hb as <-. reflexivity.
    + cbn [List.length Nat.eqb negb] in *.
      destruct (rev (x :: items)) as [|y l] eqn:Erev; cbn [bind].
      * apply (f_equal (@List.length _)) in Erev.
        rewrite length_rev in Erev. discriminate.
      * rewrite (datetime_of_Return x a Ha). cbn [bind].
        now rewrite (datetime_of_Return y b Hb).
  - intros r H.
    unfold TestData.get_test_data, TestData.build in H.
    cbn [TestData.py_len TestData.py_iter bind] in H.
    destruct (mapM _ items) as [ids|] eqn:Eids; cbn [bind] in H;
      [|discriminate].
    exists ids. split.
    { apply mapM_Return_Forall2 in Eids.
      eapply Forall2_impl; [|exact Eids].
      intros obs id. apply station_of_Return_inv. }
    unfold TestData.py_bool, TestData.py_first, TestData.py_last in H.
    subst start finish.
    destruct items as [|x items].
    + cbn in H. injection H as <-. cbn. auto.
    + cbn [List.length Nat.eqb negb] in H.
      destruct (rev (x :: items)) as [|y l] eqn:Erev.
      { apply (f_equal (@List.length _)) in Erev.
        rewrite length_rev in Erev. discriminate. }
      cbn [bind] in H.
      destruct (TestData.py_getitem x "datetime") as [a|] eqn:Ea;
        cbn [bind] in H; [|discriminate].
      destruct (TestData.py_getitem y "datetime") as [b|] eqn:Eb;
        cbn [bind] in H; [|discriminate].
      injection H as <-. cbn.
      rewrite (datetime_of_Return_inv x a Ea), (datetime_of_Return_inv y b Eb).
      auto.
Qed.

Lemma test_data_served_witness :
  TestData.get_test_data TestData.first_occurrences
    (TestData.Loaded (TestData.JList TestData.sample))
  = TestData.Returned
      (TestData.mkResponse
         "Sample test data for 10 stations, 60 time points each" 3
         [TestData.JStr "574"]
         (TestData.JStr "2024-10-22 07:00:00")
         (TestData.JStr "2024-10-22 07:20:00")
         (TestData.JList TestData.sample)).
Proof.
  apply (proj1 (test_data_served TestData.first_occurrences TestData.sample)
           [TestData.JStr "574"; TestData.JStr "574"; TestData.JStr "574"]).
  - repeat constructor.
  - reflexivity.
  - reflexivity.
Defined.

(** X13.  The endpoint answers 404 exactly when the file is missing.
    Other failures are not turned into a response: an error of reading
    or parsing passes through, and so does the [KeyError] of the first
    object of the array that lacks ["station_id"]. *)
Theorem test_data_failures list_of_set :
  (forall file code detail,
     TestData.get_test_data list_of_set file
     = TestData.HTTPException code detail <->
     file = TestData.FileNotFound /\ code = 404 /\
     detail = "Test data file not found") /\
  (forall msg,
     TestData.get_test_data list_of_set (TestData.ReadFailed msg)
     = TestData.Uncaught msg) /\
  (forall good ids d rest,
     Forall2 (fun obs id => TestData.station_of obs = Some id) good ids ->
     TestData.dict_get "station_id" d = None ->
     TestData.get_test_data list_of_set
       (TestData.Loaded (TestData.JList (good ++ TestData.JDict d :: rest)))
     = TestData.Uncaught "KeyError: 'station_id'").
Proof.
  split; [|split].
  - intros file code detail. split.
    + destruct file as [|msg|v]; simpl.
      * now intros [= <- <-].
      * discriminate.
      * destruct (TestData.build list_of_set v); discriminate.
    + now intros (-> & -> & ->).
  - reflexivity.
  - intros good ids d rest Hids Hd.
    unfold TestData.get_test_data, TestData.build.
    cbn [TestData.py_len TestData.py_iter bind].
    rewrite mapM_app, (station_ids_Return good ids Hids). cbn [bind mapM].
    unfold TestData.py_getitem at 1. rewrite Hd. reflexivity.
Qed.

Lemma test_data_failures_witness :
  TestData.get_test_data TestData.first_occurrences
    (TestData.Loaded
       (TestData.JList (TestData.sample ++ [TestData.nameless])))
  = TestData.Uncaught "KeyError: 'station_id'".
Proof.
  apply (proj2 (proj2 (test_data_failures TestData.first_occurrences))
           TestData.sample
           [TestData.JStr "574"; TestData.JStr "574"; TestData.JStr "574"]).
  - repeat constructor.
  - reflexivity.
Defined.
